(** * Verification of the extraction core bundled in web-scraping-bourse

  The repository vendors the trafilatura extraction core
  (core.py, external.py, xml.py).  This development embeds the parts of
  that code the specification makes claims about and proves, or refutes,
  each claim against the embedding.

  Trees are lxml trees: mutable, with parent pointers, shared between
  the functions of the pipeline.  They are modelled as a store of nodes
  addressed by index, so that in-place mutation, aliasing and stale
  references into detached subtrees behave as they do in the code. *)

From Stdlib Require Import ZArith Lia.
From stdpp Require Import base tactics option list strings gmap.

Open Scope string_scope.
Open Scope list_scope.

(** ** Python values used by the code *)

(** [sep.join(parts)] *)
Definition join (sep : string) (parts : list string) : string :=
String.concat sep parts.

(** Membership of a string in a tuple or set literal. *)
Definition str_in (x : string) (l : list string) : bool :=
bool_decide (x ∈ l).

(** ** The lxml tree store *)

Module Lxml.

(** An element: tag, attributes in insertion order, text before the
    first child, tail text after the closing tag, and the links to the
    parent and the children. *)
Record node := mk_node {
  n_tag : string;
  n_attrib : list (string * string);
  n_text : option string;
  n_tail : option string;
  n_parent : option nat;
  n_children : list nat
}.

Abbreviation store := (list node).

Definition blank : node := mk_node "" [] None None None [].

Definition get (s : store) (e : nat) : node := default blank (s !! e).

Definition tag_of (s : store) (e : nat) : string := n_tag (get s e).
Definition attrib_of (s : store) (e : nat) := n_attrib (get s e).
Definition text_of (s : store) (e : nat) : option string := n_text (get s e).
Definition tail_of (s : store) (e : nat) : option string := n_tail (get s e).
Definition getparent (s : store) (e : nat) : option nat := n_parent (get s e).
Definition children_of (s : store) (e : nat) : list nat := n_children (get s e).

(** [len(element)] *)
Definition len (s : store) (e : nat) : nat := length (children_of s e).

Definition with_tag (v : string) (n : node) : node :=
  mk_node v (n_attrib n) (n_text n) (n_tail n) (n_parent n) (n_children n).
Definition with_attrib (v : list (string * string)) (n : node) : node :=
  mk_node (n_tag n) v (n_text n) (n_tail n) (n_parent n) (n_children n).
Definition with_text (v : option string) (n : node) : node :=
  mk_node (n_tag n) (n_attrib n) v (n_tail n) (n_parent n) (n_children n).
Definition with_tail (v : option string) (n : node) : node :=
  mk_node (n_tag n) (n_attrib n) (n_text n) v (n_parent n) (n_children n).
Definition with_parent (v : option nat) (n : node) : node :=
  mk_node (n_tag n) (n_attrib n) (n_text n) (n_tail n) v (n_children n).
Definition with_children (v : list nat) (n : node) : node :=
  mk_node (n_tag n) (n_attrib n) (n_text n) (n_tail n) (n_parent n) v.

(** [element.tag = v], [element.text = v], [element.tail = v] *)
Definition set_tag (s : store) (e : nat) (v : string) : store :=
  alter (with_tag v) e s.
Definition set_text (s : store) (e : nat) (v : option string) : store :=
  alter (with_text v) e s.
Definition set_tail (s : store) (e : nat) (v : option string) : store :=
  alter (with_tail v) e s.
Definition set_attrib (s : store) (e : nat) (v : list (string * string)) : store :=
  alter (with_attrib v) e s.
Definition set_parent (s : store) (e : nat) (v : option nat) : store :=
  alter (with_parent v) e s.
Definition set_children (s : store) (e : nat) (v : list nat) : store :=
  alter (with_children v) e s.

(** Attribute dictionaries. *)
Fixpoint attr_set (k v : string) (a : list (string * string)) : list (string * string) :=
  match a with
  | [] => [(k, v)]
  | (k', v') :: a' => if bool_decide (k' = k) then (k, v) :: a' else (k', v') :: attr_set k v a'
  end.
Definition attr_pop (k : string) (a : list (string * string)) : list (string * string) :=
  filter (λ kv, kv.1 ≠ k) a.
Definition attr_get (k : string) (a : list (string * string)) : option string :=
  (λ r, r.2.2) <$> list_find (λ kv, kv.1 = k) a.

(** [element.set(k, v)] and [element.attrib.clear()] *)
Definition set (s : store) (e : nat) (k v : string) : store :=
  set_attrib s e (attr_set k v (attrib_of s e)).
Definition attrib_clear (s : store) (e : nat) : store := set_attrib s e [].

(** [etree.Element(tag)]: a fresh element that is the root of its own
    tree.  The new element is the second component. *)
Definition Element (s : store) (t : string) : store * nat :=
  (s ++ [mk_node t [] None None None []], length s).

(** The sibling just before [e] in a list of children. *)
Fixpoint before (e : nat) (l : list nat) : option nat :=
  match l with
  | a :: (b :: _) as l' => if bool_decide (b = e) then Some a else before e l'
  | _ => None
  end.

(** [element.getprevious()] *)
Definition getprevious (s : store) (e : nat) : option nat :=
  match getparent s e with
  | Some p => before e (children_of s p)
  | None => None
  end.

(** Removal of the first occurrence of [e]. *)
Fixpoint remove_first (e : nat) (l : list nat) : list nat :=
  match l with
  | [] => []
  | a :: l' => if bool_decide (a = e) then l' else a :: remove_first e l'
  end.

(** [parent.remove(element)]: the element leaves its parent together
    with its subtree and its tail.  lxml raises ValueError when
    [element] is not a child of [parent]; every call in the modelled
    code passes the element's own parent. *)
Definition remove (s : store) (p e : nat) : store :=
  set_parent (set_children s p (remove_first e (children_of s p))) e None.

(** [parent.append(element)]: lxml moves the element, with its subtree
    and tail, out of its old parent. *)
Definition append (s : store) (p e : nat) : store :=
  let s1 := match getparent s e with
            | Some q => remove s q e
            | None => s
            end in
  set_parent (set_children s1 p (children_of s1 p ++ [e])) e (Some p).

(** [etree.SubElement(parent, tag)] *)
Definition SubElement (s : store) (p : nat) (t : string) : store * nat :=
  let '(s1, e) := Element s t in (append s1 p e, e).

(** [parent.extend(elements)] *)
Definition extend (s : store) (p : nat) (es : list nat) : store :=
  foldl (λ s e, append s p e) s es.

(** [element.iter()]: the element and its descendants in document
    order.  The traversal depth is bounded by the size of the store,
    which every tree held in the store respects. *)
Fixpoint iter_fuel (n : nat) (s : store) (e : nat) : list nat :=
  match n with
  | 0 => []
  | S n' => e :: (children_of s e ≫= iter_fuel n' s)
  end.
Definition iter (s : store) (e : nat) : list nat := iter_fuel (length s) s e.

(** [element.iter(tag, ...)] *)
Definition iter_tags (s : store) (e : nat) (tags : list string) : list nat :=
  filter (λ x, str_in (tag_of s x) tags = true) (iter s e).

(** The root of the tree an element belongs to. *)
Fixpoint root_fuel (n : nat) (s : store) (e : nat) : nat :=
  match n with
  | 0 => e
  | S n' => match getparent s e with
            | Some p => root_fuel n' s p
            | None => e
            end
  end.
Definition getroot (s : store) (e : nat) : nat := root_fuel (length s) s e.

Definition otext (o : option string) : list string :=
  match o with Some t => [t] | None => [] end.

(** [element.itertext()]: the text of the element, then for each child
    its own itertext followed by its tail. The tail of the element
    itself is not part of it. *)
Fixpoint itertext_fuel (n : nat) (s : store) (e : nat) : list string :=
  match n with
  | 0 => []
  | S n' => otext (text_of s e) ++
            (children_of s e ≫= λ c, itertext_fuel n' s c ++ otext (tail_of s c))
  end.
Definition itertext (s : store) (e : nat) : list string :=
  itertext_fuel (length s) s e.

(** The characters of a text other than blanks: what two texts share
    when they are equal up to the blanks that joins insert. *)
Definition squeeze (t : string) : list Ascii.ascii :=
filter (λ c, c ≠ Ascii.ascii_of_nat 32) (String.list_ascii_of_string t).

(** The text of a tree, up to blanks. *)
Definition text_chars_fuel (n : nat) (s : store) (e : nat) : list Ascii.ascii :=
itertext_fuel n s e ≫= squeeze.
Definition text_chars (s : store) (e : nat) : list Ascii.ascii :=
itertext s e ≫= squeeze.

(** The depth of the subtree at [e] is at most [n]. *)
Fixpoint depth_ok (n : nat) (s : store) (e : nat) : bool :=
  match n with
  | 0 => false
  | S n' => forallb (depth_ok n' s) (children_of s e)
  end.

(** The links of a store are those of a forest: the children of an
    element are distinct, lie in the store and name it as their parent;
    an element with a parent is among the children of that parent. *)
Definition wf_node (s : store) (p : nat) : bool :=
bool_decide (NoDup (children_of s p)) &&
forallb (λ e, bool_decide (getparent s e = Some p) && bool_decide (e < length s))
        (children_of s p) &&
match getparent s p with
| Some q => bool_decide (p ∈ children_of s q)
| None => true
end.

Definition wf_b (s : store) : bool := forallb (wf_node s) (seq 0 (length s)).

Definition wf (s : store) : Prop :=
  (∀ p, NoDup (children_of s p)) ∧
  (∀ p e, e ∈ children_of s p → getparent s e = Some p ∧ e < length s) ∧
  (∀ e p, getparent s e = Some p → e ∈ children_of s p).

End Lxml.

(** ** More of lxml: stripping tags, lazy iteration, exceptions *)

(** The exceptions the modelled code raises or catches. *)
Inductive exn :=
| ValueError | KeyError | TypeError | AttributeError | IndexError
| SerialisationError | Unparseable.

Inductive result (A : Type) :=
| Ok (a : A)
| Raise (e : exn).
Arguments Ok {A} a.
Arguments Raise {A} e.

Definition is_ok {A} (r : result A) : bool :=
match r with Ok _ => true | Raise _ => false end.

(** [len(x)] of a string, as a Python integer. *)
Definition py_len (t : string) : Z := Z.of_nat (String.length t).

Module Etree.
Import Lxml.

(** Adjacent text nodes read as one string. *)
Definition cat (a b : option string) : option string :=
  match a, b with
  | Some x, Some y => Some (x +:+ y)
  | Some x, None => Some x
  | None, b => b
  end.

(** Appends [t] to the text that precedes position [i] among the
    children of [p]: the tail of the child before, or the text of [p]. *)
Definition add_text_before (s : store) (p : nat) (before_c : list nat) (t : option string) : store :=
  match last before_c with
  | Some q => set_tail s q (cat (tail_of s q) t)
  | None => set_text s p (cat (text_of s p) t)
  end.

(** The children before and after the first occurrence of [c]. *)
Fixpoint split_at (c : nat) (l : list nat) : list nat * list nat :=
  match l with
  | [] => ([], [])
  | a :: l' => if bool_decide (a = c) then ([], l')
               else let '(x, y) := split_at c l' in (a :: x, y)
  end.

(** lxml's [_replaceNodeByChildren]: the element is unlinked, its text,
    children and tail take its place among the children of its parent. *)
Definition replace_by_children (s : store) (c : nat) : store :=
  match getparent s c with
  | None => s
  | Some p =>
      let kids := children_of s c in
      let '(front, back) := split_at c (children_of s p) in
      let s1 := add_text_before s p front (text_of s c) in
      let s2 := match last kids with
                | Some k => set_tail s1 k (cat (tail_of s1 k) (tail_of s c))
                | None => add_text_before s1 p front (tail_of s c)
                end in
      let s3 := foldl (λ s k, set_parent s k (Some p)) s2 kids in
      let s4 := set_children s3 p (front ++ kids ++ back) in
      alter (λ n, mk_node (n_tag n) (n_attrib n) None None None []) c s4
  end.

Fixpoint strip_fuel (n : nat) (tags : list string) (s : store) (work : list nat) : store :=
  match n, work with
  | S n', c :: rest =>
      let s' := if str_in (tag_of s c) tags then replace_by_children s c else s in
      strip_fuel n' tags s' (children_of s c ++ rest)
  | _, _ => s
  end.

(** [etree.strip_tags(element, *tags)]: every descendant with one of the
    tags is replaced by its content; the element itself stays. *)
Definition strip_tags (s : store) (e : nat) (tags : list string) : store :=
  strip_fuel (length s) tags s (children_of s e).

(** [element.getparent().remove(element)] *)
Definition remove_from_parent (s : store) (e : nat) : result store :=
  match getparent s e with
  | Some p => Ok (remove s p e)
  | None => Raise AttributeError
  end.

(** [etree.strip_elements(element, *tags)]: every descendant with one
    of the tags leaves the tree, with its subtree and its tail. *)
Definition strip_elements (s : store) (e : nat) (tags : list string) : store :=
  foldl (λ s x, match getparent s x with
                | Some p => remove s p x
                | None => s
                end)
        s (children_of s e ≫= λ c, iter_tags s c tags).

(** The sibling just after [e] in a list of children. *)
Fixpoint after (e : nat) (l : list nat) : option nat :=
  match l with
  | a :: l' => if bool_decide (a = e) then head l' else after e l'
  | [] => None
  end.

(** The element that follows [e], outside its subtree, in the
    traversal that started at [top]. *)
Fixpoint next_up (n : nat) (s : store) (top e : nat) : option nat :=
  match n with
  | 0 => None
  | S n' =>
      if bool_decide (e = top) then None
      else match getparent s e with
           | None => None
           | Some p => match after e (children_of s p) with
                       | Some x => Some x
                       | None => next_up n' s top p
                       end
           end
  end.

(** The element after [e] in document order below [top]. *)
Definition next_node (s : store) (top e : nat) : option nat :=
  match children_of s e with
  | c :: _ => Some c
  | [] => next_up (length s) s top e
  end.

Fixpoint next_match_fuel (n : nat) (s : store) (top : nat) (sel : string → bool) (e : nat)
  : option nat :=
match n with
| 0 => None
| S n' => match next_node s top e with
          | None => None
          | Some x => if sel (tag_of s x) then Some x
                      else next_match_fuel n' s top sel x
          end
end.
Definition next_match (s : store) (top : nat) (sel : string → bool) (e : nat) : option nat :=
next_match_fuel (length s) s top sel e.

(** The first element of [top.iter(...)]. *)
Definition first_match (s : store) (top : nat) (sel : string → bool) : option nat :=
if sel (tag_of s top) then Some top else next_match s top sel top.

(** A [for] loop over [top.iter(...)] whose body changes the tree; [sel]
    tells which tags the iterator was asked for.  lxml's iterator is
    lazy: it looks up the element after the current one before it hands
    the current one to the body. *)
Fixpoint for_iter_fuel (n : nat) (top : nat) (sel : string → bool)
    (body : store → nat → result store) (s : store) (cur : option nat) : result store :=
match n, cur with
| S n', Some e =>
    let nxt := next_match s top sel e in
    match body s e with
    | Ok s' => for_iter_fuel n' top sel body s' nxt
    | Raise x => Raise x
    end
| _, _ => Ok s
end.
Definition for_iter (top : nat) (sel : string → bool)
    (body : store → nat → result store) (s : store) : result store :=
for_iter_fuel (length s) top sel body s (first_match s top sel).

(** A comprehension over [top.iter(...)] whose body changes the tree. *)
Fixpoint map_iter_fuel {A} (n : nat) (top : nat) (sel : string → bool)
    (body : store → nat → store * A) (s : store) (cur : option nat) : store * list A :=
match n, cur with
| S n', Some e =>
    let nxt := next_match s top sel e in
    let '(s1, a) := body s e in
    let '(s2, r) := map_iter_fuel n' top sel body s1 nxt in
    (s2, a :: r)
| _, _ => (s, [])
end.
Definition map_iter {A} (top : nat) (sel : string → bool)
    (body : store → nat → store * A) (s : store) : store * list A :=
map_iter_fuel (length s) top sel body s (first_match s top sel).

(** The XPath query [//p//text()], evaluated from any element of a
    tree: the text nodes found inside the [p] elements of the whole
    tree.  Only its emptiness is ever looked at. *)
Definition xpath_p_text (s : store) (e : nat) : list string :=
  iter_tags s (getroot s e) ["p"] ≫= itertext s.

(** The XPath query [.//*]: the proper descendants, in document order. *)
Definition xpath_descendants (s : store) (e : nat) : list nat :=
  children_of s e ≫= iter s.

End Etree.

(** ** Collaborators that are not among the files at hand

    The modules [utils], [settings], [htmlprocessing], [filters],
    [metadata] and [xpaths] of the package, and the third-party
    libraries readability and justext, are used by the code but are not
    part of the repository's files.  What the code needs from them is
    gathered in interfaces; every statement below holds for every
    implementation of them. *)

(** [utils]: whitespace normalisation and character sanitising. *)
Class Utils := {
  trim : string → string;
  sanitize : string → string
}.

(** ** xml.py *)

Module Xml.
Import Lxml.

Definition nl : string := String (Ascii.ascii_of_nat 10) EmptyString.

Definition TEI_VALID_TAGS : list string :=
  ["body"; "cell"; "code"; "del"; "div"; "fw"; "head"; "hi"; "item";
   "lb"; "list"; "p"; "quote"; "row"; "table"].
Definition TEI_VALID_ATTRS : list string := ["rend"; "rendition"; "role"; "type"].

(** [replace_element_text]: the text an element contributes, from its
    text and its tail. *)
Definition replace_element_text (s : store) (element : nat) : string :=
  match text_of s element, tail_of s element with
  | Some t, Some tl => join " " [t; tl]
  | Some t, None => t
  | None, Some tl => tl
  | None, None => ""
  end.

(** [merge_with_parent] *)
Definition merge_with_parent (s : store) (element : nat) : store :=
  match getparent s element with
  | None => s
  | Some parent =>
      let full_text := replace_element_text s element in
      let s1 :=
        match getprevious s element with
        | Some previous =>
            match tail_of s previous with
            | Some t => set_tail s previous (Some (join " " [t; full_text]))
            | None => set_tail s previous (Some full_text)
            end
        | None =>
            match text_of s parent with
            | Some t => set_text s parent (Some (join " " [t; full_text]))
            | None => set_text s parent (Some full_text)
            end
        end in
      remove s1 parent element
  end.

(** The XPath query [//hi|//link]: absolute, so it ranges over the whole
    tree the context element belongs to, in document order. *)
Definition xpath_hi_link (s : store) (e : nat) : list nat :=
  iter_tags s (getroot s e) ["hi"; "link"].

(** One round of the flattening loop of [xmltotxt]. *)
Definition txt_pieces (s : store) (element : nat) : list string :=
  match text_of s element, tail_of s element with
  | None, None =>
      if str_in (tag_of s element) ["row"; "table"] then [nl] else []
  | _, _ =>
      let textelement := replace_element_text s element in
      let t := tag_of s element in
      if str_in t ["code"; "fw"; "head"; "lb"; "list"; "p"; "quote"; "row"; "table"]
      then [nl; textelement; nl]
      else if bool_decide (t = "item") then [nl +:+ "- "; textelement; nl]
      else if bool_decide (t = "cell") then ["|"; textelement; "|"]
      else if bool_decide (t = "comments") then [nl +:+ nl]
      else [textelement; " "]
  end.

(** The first loop of [xmltotxt]: every match of [//hi|//link],
    computed once, is merged with its parent. *)
Definition xmltotxt_merge (s : store) (xmloutput : nat) : store :=
  foldl merge_with_parent s (xpath_hi_link s xmloutput).

(** [xmltotxt]: returns the store it leaves behind and the text. *)
Definition xmltotxt `{Utils} (s : store) (xmloutput : nat) : store * string :=
let s1 := xmltotxt_merge s xmloutput in
let returnlist := iter s1 xmloutput ≫= txt_pieces s1 in
(s1, sanitize (join "" returnlist)).

(** The XPath query [//text/body//*]: every element that lies below a
    [body] element that is itself the child of a [text] element. *)
Fixpoint below_text_body (n : nat) (s : store) (inside : bool) (e : nat) : list nat :=
  match n with
  | 0 => []
  | S n' =>
      let is_body :=
        bool_decide (tag_of s e = "body") &&
        match getparent s e with
        | Some p => bool_decide (tag_of s p = "text")
        | None => false
        end in
      (if inside then [e] else []) ++
      (children_of s e ≫= below_text_body n' s (inside || is_body))
  end.
Definition xpath_text_body (s : store) (e : nat) : list nat :=
  below_text_body (length s) s false (getroot s e).

(** The attribute loop of [check_tei]: the keys are listed once, then
    each key outside the allowed set is popped. *)
Definition check_attributes (s : store) (element : nat) : store :=
  foldl (λ s attribute,
           if str_in attribute TEI_VALID_ATTRS then s
           else set_attrib s element (attr_pop attribute (attrib_of s element)))
        s (map fst (attrib_of s element)).

Definition check_element (s : store) (element : nat) : store :=
  if str_in (tag_of s element) TEI_VALID_TAGS
  then check_attributes s element
  else merge_with_parent s element.

Definition convert_head (s : store) (elem : nat) : store :=
  set (set_tag s elem "fw") elem "type" "header".

(** [check_tei] *)
Definition check_tei (s : store) (tei : nat) : store :=
  let s1 := foldl convert_head s (iter_tags s tei ["head"]) in
  foldl check_element s1 (xpath_text_body s1 tei).

End Xml.


(** ** Interfaces of the remaining collaborators *)

(** What a text-processing helper of [htmlprocessing] does to the element
    it is given. *)
Record rewrite := mk_rewrite {
  r_tag : string;
  r_text : option string;
  r_tail : option string;
  r_keep : bool
}.

(** The helper rewrites the element in place and returns it, or None. *)
Definition apply_rewrite (s : Lxml.store) (e : nat) (r : rewrite) : Lxml.store * option nat :=
(Lxml.set_tail (Lxml.set_text (Lxml.set_tag s e (r_tag r)) e (r_text r)) e (r_tail r),
 if r_keep r then Some e else None).

(** [settings]: the thresholds and tag lists. *)
Class Settings := {
  MIN_EXTRACTED_SIZE : Z;
  MIN_EXTRACTED_COMM_SIZE : Z;
  MIN_OUTPUT_SIZE : Z;
  MIN_OUTPUT_COMM_SIZE : Z;
  TAG_CATALOG : list string;
  MANUALLY_STRIPPED : list string;
  JUSTEXT_LANGUAGES : gmap string string
}.

(** [htmlprocessing].

    Modelled from the spec: [process_node] and [handle_textnode] are the
    helpers that "process [an element] as a leaf text node"; they are
    missing from the files at hand.  They trim and test the text of the
    one element they are given, may rewrite its tag, text and tail, and
    return that element or None; they never change the shape of the
    tree.  The pruning and converting passes may change the tree in any
    way. *)
Class HtmlProcessing := {
  process_node : Lxml.store → nat → rewrite;
  handle_textnode : Lxml.store → nat → bool → bool → rewrite;
  discard_unwanted : Lxml.store → nat → Lxml.store * nat;
  discard_unwanted_comments : Lxml.store → nat → Lxml.store * nat;
  link_density_test : Lxml.store → nat → bool;
  link_density_test_tables : Lxml.store → nat → bool;
  convert_tags : Lxml.store → nat → bool → bool → Lxml.store * nat;
  prune_html : Lxml.store → nat → Lxml.store * nat;
  tree_cleaning : Lxml.store → nat → bool → Lxml.store * nat
}.

(** [xpaths]: the candidate queries, and the XPath engine that runs
    them. *)
Class XPaths := {
  expr : Type;
  BODY_XPATH : list expr;
  COMMENTS_XPATH : list expr;
  xpath : Lxml.store → nat → expr → list nat
}.

(** ** Trees under construction

    A handler that builds its result with [etree.Element] and
    [etree.SubElement] owns the new tree until it returns it; nothing
    else refers to it.  Such a tree is a value. *)

Module Fresh.

#[warnings="-register-all"]
Inductive element :=
| El (tag : string) (attrib : list (string * string)) (text : option string)
     (children : list element) (tail : option string).

Definition tag (e : element) : string := let 'El t _ _ _ _ := e in t.
Definition attrib (e : element) := let 'El _ a _ _ _ := e in a.
Definition text (e : element) : option string := let 'El _ _ x _ _ := e in x.
Definition children (e : element) : list element := let 'El _ _ _ c _ := e in c.

(** [etree.Element(tag)] *)
Definition Element (t : string) : element := El t [] None [] None.

(** [parent.append(child)] *)
Definition append (p c : element) : element :=
let 'El t a x cs tl := p in El t a x (cs ++ [c]) tl.

(** [len(element)] *)
Definition len (e : element) : nat := length (children e).

End Fresh.

(** ** core.py: tables *)

Module Table.
Import Lxml Etree.

(** The new cell of [handle_table]: [SubElement(newrow, 'cell')], the
    role of a header cell, and the processed text. *)
Definition new_cell (is_th : bool) (t : string) : Fresh.element :=
Fresh.El "cell" (if is_th then [("role", "head")] else []) (Some t) [] None.

(** The loop of [handle_table] over [table_elem.iter()].  [i] counts the
    elements seen so far. *)
Fixpoint table_loop `{HtmlProcessing} (subelements : list nat) (i : nat) (s : store)
    (newtable newrow : Fresh.element) : store * Fresh.element * Fresh.element :=
match subelements with
| [] => (s, newtable, newrow)
| subelement :: rest =>
    let i := i + 1 in
    let t := tag_of s subelement in
    if bool_decide (t = "tr") then
      if bool_decide (0 < Fresh.len newrow)
      then table_loop rest i s (Fresh.append newtable newrow) (Fresh.Element "row")
      else table_loop rest i s newtable newrow
    else if str_in t ["td"; "th"] then
      let '(s1, processed_cell) := apply_rewrite s subelement (process_node s subelement) in
      match processed_cell with
      | None => table_loop rest i s1 newtable newrow
      | Some c =>
          match text_of s1 c with
          | None => table_loop rest i s1 newtable newrow
          | Some txt =>
              if bool_decide (txt = "") then table_loop rest i s1 newtable newrow
              else table_loop rest i s1 newtable
                     (Fresh.append newrow
                        (new_cell (bool_decide (tag_of s1 subelement = "th")) txt))
          end
      end
    else if bool_decide (t = "table") && bool_decide (1 < i) then (s, newtable, newrow)
    else table_loop rest i s newtable newrow
end.

(** [handle_table] *)
Definition handle_table `{HtmlProcessing} (s : store) (table_elem : nat)
  : store * option Fresh.element :=
let newtable := Fresh.Element "table" in
let newrow := Fresh.Element "row" in
let s0 := strip_tags s table_elem ["thead"; "tbody"; "tfoot"] in
let '(s1, newtable, newrow) := table_loop (iter s0 table_elem) 0 s0 newtable newrow in
let newtable := if bool_decide (0 < Fresh.len newrow)
                then Fresh.append newtable newrow else newtable in
(s1, if bool_decide (0 < Fresh.len newtable) then Some newtable else None).

End Table.

(** ** Tables, in the words of the specification

    "Walk cells row by row; start a new row on each row boundary; for
    each cell, skip it if it has no text after processing; else emit a
    cell node (tagged as header role if it is a header cell); stop
    processing additional nested tables beyond the first row boundary
    (avoid runaway nested-table expansion); discard the table if it
    produced no rows."  These definitions follow that description; they
    are compared below with [Table.handle_table]. *)

Module TableSpec.
Import Lxml Etree.

(** What the walk meets: a row boundary, a cell with its processed
    text, or anything else. *)
Inductive item :=
| RowBoundary
| CellItem (header : bool) (processed : option string)
| Other.

(** The walk over the elements of the table.  A nested table met beyond
    the first row boundary is not processed: the elements inside it are
    passed over and the walk goes on behind it.  A nested table met
    before the first row boundary is walked like any other element.
    Cells are processed on the way.  [first] tells the table itself from
    a nested one, [beyond] that a row boundary has been met, [passed]
    holds the elements of the nested tables that are left out. *)
Fixpoint walk `{HtmlProcessing} (elements : list nat) (first beyond : bool)
    (passed : list nat) (s : store) : store * list item :=
match elements with
| [] => (s, [])
| x :: rest =>
    if bool_decide (x ∈ passed) then walk rest false beyond passed s
    else
      let t := tag_of s x in
      if bool_decide (t = "tr") then
        let '(s', items) := walk rest false true passed s in (s', RowBoundary :: items)
      else if str_in t ["td"; "th"] then
        let '(s1, kept) := apply_rewrite s x (process_node s x) in
        let '(s', items) := walk rest false beyond passed s1 in
        (s', CellItem (bool_decide (t = "th")) (kept ≫= text_of s1) :: items)
      else if bool_decide (t = "table") && negb first && beyond then
        walk rest false beyond (passed ++ iter s x) s
      else let '(s', items) := walk rest false beyond passed s in (s', Other :: items)
end.

(** The items between two row boundaries. *)
Fixpoint split_rows (items : list item) : list (list item) :=
match items with
| [] => [[]]
| RowBoundary :: rest => [] :: split_rows rest
| x :: rest => match split_rows rest with
               | g :: gs => (x :: g) :: gs
               | [] => [[x]]
               end
end.

(** The cell an item gives, if it is a cell with text. *)
Definition cell_of (x : item) : option Fresh.element :=
match x with
| CellItem header (Some t) =>
    if bool_decide (t = "") then None else Some (Table.new_cell header t)
| _ => None
end.

Definition row_of (cells : list Fresh.element) : Fresh.element :=
Fresh.El "row" [] None cells None.

(** The rows of the table: one per stretch of items that holds a cell
    with text. *)
Definition rows_of (items : list item) : list Fresh.element :=
map row_of (filter (λ cells, cells ≠ []) (map (omap cell_of) (split_rows items))).

(** The table, unless it has no row. *)
Definition table_of (rows : list Fresh.element) : option Fresh.element :=
match rows with
| [] => None
| _ => Some (Fresh.El "table" [] None rows None)
end.

(** The procedure of the description: the wrappers are stripped, the
    table is walked, and the rows make the table. *)
Definition handle_table `{HtmlProcessing} (s : store) (table_elem : nat)
  : store * option Fresh.element :=
let s0 := strip_tags s table_elem ["thead"; "tbody"; "tfoot"] in
let '(s1, items) := walk (iter s0 table_elem) true false [] s0 in
(s1, table_of (rows_of items)).

End TableSpec.

(** ** Tables, as the description is amended

    The walk of the code ends at the first nested table it meets,
    wherever that table stands: what follows it in the table is not
    looked at. *)

Module TableAmended.
Import Lxml Etree TableSpec.

(** The walk over the elements of the table, which ends at the first
    nested table.  Cells are processed on the way; a cell is a header
    cell when it is a [th] after processing. *)
Fixpoint walk `{HtmlProcessing} (elements : list nat) (first : bool) (s : store)
  : store * list item :=
match elements with
| [] => (s, [])
| x :: rest =>
    let t := tag_of s x in
    if bool_decide (t = "tr") then
      let '(s', items) := walk rest false s in (s', RowBoundary :: items)
    else if str_in t ["td"; "th"] then
      let '(s1, kept) := apply_rewrite s x (process_node s x) in
      let '(s', items) := walk rest false s1 in
      (s', CellItem (bool_decide (tag_of s1 x = "th")) (kept ≫= text_of s1) :: items)
    else if bool_decide (t = "table") && negb first then (s, [])
    else let '(s', items) := walk rest false s in (s', Other :: items)
end.

End TableAmended.

(** ** core.py: the element handlers *)

(** [filters] and [re]: tests on text. *)
Class Filters := {
  text_chars_test : option string → bool;
  search_word : string → bool;
  duplicate_test : Lxml.store → nat → bool;
  content_fingerprint : string → string
}.

(** The handlers for lists, quotes and paragraphs walk nested elements
    through the helpers of [htmlprocessing]; no statement below depends
    on what they return, and they are kept abstract.  Each may change
    the tree and returns a new or an existing element, or None. *)
Class Handlers := {
  handle_lists : Lxml.store → nat → bool → Lxml.store * option nat;
  handle_quotes : Lxml.store → nat → Lxml.store * option nat;
  handle_paragraphs : Lxml.store → nat → list string → bool → Lxml.store * option nat
}.

Module Core.
Import Lxml Etree.

(** A comprehension whose body changes the tree: the elements are
    handled in order. *)
Fixpoint map_store {A} (f : store → nat → store * A) (s : store) (l : list nat)
  : store * list A :=
match l with
| [] => (s, [])
| e :: l' => let '(s1, a) := f s e in
             let '(s2, r) := map_store f s1 l' in (s2, a :: r)
end.

(** [filter(None.__ne__, xs)] *)
Definition not_none {A} (l : list (option A)) : list A := omap id l.

(** Copies a tree under construction into the store; the result is its
    root. *)
Fixpoint build (s : store) (e : Fresh.element) : store * nat :=
let 'Fresh.El t a x cs tl := e in
let '(s1, r) := Element s t in
let s2 := set_tail (set_text (set_attrib s1 r a) r x) r tl in
(foldl (λ s c, let '(s', k) := build s c in append s' r k) s2 cs, r).

(** [handle_titles] *)
Definition handle_titles `{HtmlProcessing} `{Filters} (s : store) (element : nat)
  : store * option nat :=
let s1 := set_tail s element None in
let '(s2, title) := apply_rewrite s1 element (process_node s1 element) in
match title with
| Some t =>
    match text_of s2 t with
    | Some x => if bool_decide (x ≠ "") && search_word x then (s2, Some t) else (s2, None)
    | None => (s2, None)
    end
| None => (s2, None)
end.

(** [handle_formatting] *)
Definition handle_formatting `{Utils} `{Filters} (s : store) (element : nat)
  : store * option nat :=
match text_of s element, tail_of s element with
| None, None => (s, None)
| x, tl =>
    let '(s1, processed_element) := Element s "p" in
    let '(s2, processed_child) := SubElement s1 processed_element (tag_of s1 element) in
    let s3 := if text_chars_test x then set_text s2 processed_child (trim <$> x) else s2 in
    let s4 := if text_chars_test tl then set_tail s3 processed_child (trim <$> tl) else s3 in
    (s4, Some processed_element)
end.

(** [handle_other_elements] *)
Definition handle_other_elements `{HtmlProcessing} (s : store) (element : nat)
    (potential_tags : list string) (dedupbool : bool) : store * option nat :=
if negb (str_in (tag_of s element) potential_tags) then (s, None)
else if bool_decide (tag_of s element = "div") then
  let '(s1, processed_element) :=
    apply_rewrite s element (handle_textnode s element false dedupbool) in
  match processed_element with
  | Some pe =>
      let s2 := attrib_clear s1 pe in
      let s3 := if bool_decide (tag_of s2 pe = "div") then set_tag s2 pe "p" else s2 in
      (s3, Some pe)
  | None => (s1, None)
  end
else (s, None).

(** [handle_textelem] *)
Definition handle_textelem `{Utils} `{HtmlProcessing} `{Filters} `{Handlers}
    (potential_tags : list string) (dedupbool : bool) (s : store) (element : nat)
  : store * option nat :=
let t := tag_of s element in
if bool_decide (t = "list") then handle_lists s element dedupbool
else if bool_decide (t = "quote") then handle_quotes s element
else if bool_decide (t = "head") then handle_titles s element
else if bool_decide (t = "p") then handle_paragraphs s element potential_tags dedupbool
else if bool_decide (t = "lb") then
  if text_chars_test (tail_of s element) then
    let '(s1, element') := apply_rewrite s element (process_node s element) in
    match element' with
    | Some e' =>
        let '(s2, new_element) := Element s1 "p" in
        (set_text s2 new_element (tail_of s2 e'), Some new_element)
    | None => (s1, None)
    end
  else (s, None)
else if bool_decide (t = "hi") then handle_formatting s element
else if bool_decide (t = "table") && str_in "table" potential_tags then
  let '(s1, r) := Table.handle_table s element in
  match r with
  | Some newtable => let '(s2, k) := build s1 newtable in (s2, Some k)
  | None => (s1, None)
  end
else handle_other_elements s element potential_tags dedupbool.

(** ** core.py: comments *)

(** [process_comments_node] *)
Definition process_comments_node `{HtmlProcessing} (potential_tags : list string)
    (dedupbool : bool) (s : store) (elem : nat) : store * option nat :=
if str_in (tag_of s elem) potential_tags then
  let '(s1, processed_element) :=
    apply_rewrite s elem (handle_textnode s elem true dedupbool) in
  match processed_element with
  | Some pe => (attrib_clear s1 pe, Some pe)
  | None => (s1, None)
  end
else (s, None).

(** One round of the loop of [extract_comments], for a query that
    matched: prune, strip the wrappers, harvest.  The comments tree is
    extended in place. *)
Definition harvest_comments `{Settings} `{HtmlProcessing}
    (s : store) (comments_body subtree : nat) (dedupbool : bool) : store * nat :=
let potential_tags := TAG_CATALOG in
let '(s1, subtree) := discard_unwanted_comments s subtree in
let s2 := strip_tags s1 subtree ["a"; "link"; "span"] in
let '(s3, processed_elems) :=
  map_store (process_comments_node potential_tags dedupbool) s2 (xpath_descendants s2 subtree) in
(extend s3 comments_body (not_none processed_elems), subtree).

(** The loop of [extract_comments] over the candidate queries. *)
Fixpoint comments_loop `{Settings} `{HtmlProcessing} `{XPaths}
    (exprs : list expr) (s : store) (tree comments_body : nat) (dedupbool : bool)
  : result store :=
match exprs with
| [] => Ok s
| e :: rest =>
    match xpath s tree e with
    | [] => comments_loop rest s tree comments_body dedupbool
    | subtree :: _ =>
        let '(s1, subtree) := harvest_comments s comments_body subtree dedupbool in
        if bool_decide (0 < len s1 comments_body)
        then remove_from_parent s1 subtree
        else comments_loop rest s1 tree comments_body dedupbool
    end
end.

(** [extract_comments]: returns the store it leaves behind and the
    tuple [(comments_body, temp_comments, len(temp_comments), tree)]. *)
Definition extract_comments `{Utils} `{Settings} `{HtmlProcessing} `{XPaths}
    (s : store) (tree : nat) (dedupbool : bool)
  : result (store * (nat * string * Z * nat)) :=
let '(s0, comments_body) := Element s "body" in
match comments_loop COMMENTS_XPATH s0 tree comments_body dedupbool with
| Raise x => Raise x
| Ok s1 =>
    let temp_comments := trim (join " " (itertext s1 comments_body)) in
    Ok (s1, (comments_body, temp_comments, py_len temp_comments, tree))
end.

(** ** core.py: main content *)

(** [for elem in subtree.iter(tag): if test(elem) is True:
    elem.getparent().remove(elem)] *)
Definition prune_by (test : store → nat → bool) (tagname : string) (subtree : nat)
    (s : store) : result store :=
for_iter subtree (λ t, bool_decide (t = tagname))
  (λ s elem, if test s elem then remove_from_parent s elem else Ok s) s.

(** The [while] loop that drops trailing titles.  [result_body[-1]]
    raises IndexError on an empty tree; the second component tells
    whether the loop ended without it. *)
Fixpoint drop_trailing_titles (n : nat) (s : store) (result_body : nat)
  : result (store * bool) :=
match last (children_of s result_body) with
| None => Ok (s, false)
| Some l =>
    if bool_decide (tag_of s l = "head") && bool_decide (tail_of s l = None) then
      match n with
      | S n' => match remove_from_parent s l with
                | Ok s' => drop_trailing_titles n' s' result_body
                | Raise x => Raise x
                end
      | 0 => Ok (s, true)
      end
    else Ok (s, true)
end.

(** How one round of the loop over the candidate queries ends. *)
Inductive flow := Continue | Break.

(** One round of the loop of [extract_content]. *)
Definition content_candidate `{Utils} `{Settings} `{HtmlProcessing} `{Filters} `{Handlers}
    `{XPaths} (include_tables deduplicate : bool) (tree result_body : nat)
    (s : store) (e : expr) : result (store * flow) :=
match xpath s tree e with
| [] => Ok (s, Continue)
| subtree :: _ =>
    let '(s1, subtree) := discard_unwanted s subtree in
    match prune_by link_density_test "list" subtree s1 with
    | Raise x => Raise x
    | Ok s2 =>
    match prune_by link_density_test "div" subtree s2 with
    | Raise x => Raise x
    | Ok s3 =>
    let potential_tags := TAG_CATALOG in
    match (if include_tables
           then prune_by link_density_test_tables "table" subtree s3
           else Ok s3) with
    | Raise x => Raise x
    | Ok s4 =>
    let potential_tags :=
      if include_tables then "table" :: potential_tags else potential_tags in
    if bool_decide (len s4 subtree = 0) then Ok (s4, Continue)
    else
      let potential_tags :=
        match xpath_p_text s4 subtree with
        | [] => "div" :: potential_tags
        | _ => potential_tags
        end in
      let s5 := strip_tags s4 subtree ["link"; "span"] in
      let '(s6, handled) :=
        map_store (handle_textelem potential_tags deduplicate) s5
                  (xpath_descendants s5 subtree) in
      let s7 := extend s6 result_body (not_none handled) in
      match drop_trailing_titles (len s7 result_body) s7 result_body with
      | Raise x => Raise x
      | Ok (s8, false) => Ok (s8, Continue)
      | Ok (s8, true) =>
          if bool_decide (0 < len s8 result_body) then Ok (s8, Break)
          else Ok (s8, Continue)
      end
    end end end
end.

(** The loop of [extract_content] over the candidate queries; the
    second component is [sure_thing]. *)
Fixpoint content_loop `{Utils} `{Settings} `{HtmlProcessing} `{Filters} `{Handlers}
    `{XPaths} (include_tables deduplicate : bool) (tree result_body : nat)
    (exprs : list expr) (s : store) : result (store * bool) :=
match exprs with
| [] => Ok (s, false)
| e :: rest =>
    match content_candidate include_tables deduplicate tree result_body s e with
    | Raise x => Raise x
    | Ok (s1, Break) => Ok (s1, true)
    | Ok (s1, Continue) =>
        content_loop include_tables deduplicate tree result_body rest s1
    end
end.

(** [recover_wild_paragraphs] *)
Definition recover_wild_paragraphs `{Settings} `{HtmlProcessing} `{Handlers}
    (s : store) (tree result_body : nat) (deduplicate : bool) : store * nat :=
let potential_tags := TAG_CATALOG in
let '(s1, search_tree) := discard_unwanted s tree in
let s2 := strip_tags s1 search_tree ["a"; "link"; "span"] in
let '(s3, processed_elems) :=
  map_iter search_tree (λ t, str_in t ["blockquote"; "code"; "p"; "pre"; "q"; "quote"])
    (λ s element, handle_paragraphs s element potential_tags deduplicate) s2 in
(extend s3 result_body (not_none processed_elems), result_body).

(** [extract_content]: returns the store it leaves behind and the tuple
    [(result_body, temp_text, len_text, sure_thing)]. *)
Definition extract_content `{Utils} `{Settings} `{HtmlProcessing} `{Filters} `{Handlers}
    `{XPaths} (s : store) (tree : nat) (include_tables deduplicate : bool)
  : result (store * (nat * string * Z * bool)) :=
let '(s0, result_body) := Element s "body" in
match content_loop include_tables deduplicate tree result_body BODY_XPATH s0 with
| Raise x => Raise x
| Ok (s1, sure_thing) =>
    let temp_text := trim (join " " (itertext s1 result_body)) in
    let len_text := py_len temp_text in
    let '(s2, result_body, temp_text, len_text) :=
      if bool_decide (len s1 result_body = 0) || bool_decide (len_text < MIN_EXTRACTED_SIZE)%Z
      then
        let '(s2, result_body) := recover_wild_paragraphs s1 tree result_body deduplicate in
        let temp_text := trim (join " " (itertext s2 result_body)) in
        (s2, result_body, temp_text, py_len temp_text)
      else (s1, result_body, temp_text, len_text) in
    let s3 := strip_elements s2 result_body ["done"] in
    let s4 := strip_tags s3 result_body ["div"] in
    Ok (s4, (result_body, temp_text, len_text, sure_thing))
end.

End Core.

(** ** external.py: the generic fallback algorithms *)

(** A paragraph as the justext classifier returns it. *)
Record paragraph := mk_paragraph {
  p_text : string;
  is_boilerplate : bool
}.

(** readability: [summary] stands for the body of the [try] block of
    [try_readability], the call of [Document.summary] followed by
    [html.fromstring]. *)
Class Readability := {
  summary : Lxml.store → nat → option string → result (Lxml.store * nat)
}.

(** justext: the stop lists and the classifier, run on the serialised
    tree.  The stop-list lookup is taken as total: [JUSTEXT_LANGUAGES]
    maps onto the languages justext ships. *)
Class Justext := {
  stoplist : Type;
  JT_STOPLIST : stoplist;
  get_stoplist : string → stoplist;
  justext : Lxml.store → nat → stoplist → result (list paragraph)
}.

Module External.
Import Lxml Etree.

Definition SANITIZED_TAGS : list string :=
["aside"; "audio"; "button"; "fieldset"; "figure"; "footer"; "iframe"; "img";
 "image"; "input"; "label"; "link"; "nav"; "noindex"; "noscript"; "object";
 "option"; "select"; "source"; "svg"; "time"].

(** The XPath query [SANITIZED_XPATH], a union of [//tag] over
    [SANITIZED_TAGS]. *)
Definition xpath_sanitized (s : store) (e : nat) : list nat :=
iter_tags s (getroot s e) SANITIZED_TAGS.

(** [try_readability]: only [SerialisationError] and [Unparseable] are
    caught. *)
Definition try_readability `{Readability} (s : store) (htmlinput : nat) (url : option string)
  : result (store * nat) :=
match summary s htmlinput url with
| Ok r => Ok r
| Raise SerialisationError | Raise Unparseable => Ok (Element s "div")
| Raise x => Raise x
end.

(** The [else] branch of [try_justext]: one [p] per paragraph that is
    not boilerplate. *)
Definition add_paragraph (result_body : nat) (s : store) (p : paragraph) : store :=
let '(s1, elem) := Element s "p" in
append (set_text s1 elem (Some (p_text p))) result_body elem.

(** [try_justext]: only [ValueError] is caught. *)
Definition try_justext `{Settings} `{Justext} (s : store) (tree : nat)
    (target_language : option string) : result (store * option nat) :=
let '(s1, result_body) := Element s "body" in
let justext_stoplist :=
  match target_language ≫= λ l, JUSTEXT_LANGUAGES !! l with
  | Some langsetting => get_stoplist langsetting
  | None => JT_STOPLIST
  end in
match justext s1 tree justext_stoplist with
| Raise ValueError => Ok (s1, None)
| Raise x => Raise x
| Ok paragraphs =>
    Ok (foldl (add_paragraph result_body) s1
              (filter (λ p, is_boilerplate p = false) paragraphs),
        Some result_body)
end.

(** [justext_rescue] *)
Definition justext_rescue `{Utils} `{Settings} `{Justext} (s : store) (tree : nat)
    (target_language : option string) (postbody : nat) (len_text : Z) (text : string)
  : result (store * (nat * string * Z * bool)) :=
match try_justext s tree target_language with
| Raise x => Raise x
| Ok (s1, None) => Ok (s1, (postbody, text, len_text, false))
| Ok (s1, Some temppost_algo) =>
    let temp_text := trim (join " " (itertext s1 temppost_algo)) in
    let len_algo := py_len temp_text in
    if bool_decide (len_algo > len_text)%Z
    then Ok (s1, (temppost_algo, temp_text, len_algo, true))
    else Ok (s1, (postbody, text, len_text, false))
end.

(** The first loop of [sanitize_tree]. *)
Fixpoint remove_all (s : store) (l : list nat) : result store :=
match l with
| [] => Ok s
| elem :: l' => match remove_from_parent s elem with
                | Ok s' => remove_all s' l'
                | Raise x => Raise x
                end
end.

(** The table conversion of [sanitize_tree]. *)
Definition finish_table (s : store) (elem : nat) : store :=
if bool_decide (tag_of s elem = "tr") then set_tag s elem "row"
else if str_in (tag_of s elem) ["td"; "th"] then
  let s1 := if bool_decide (tag_of s elem = "th") then set s elem "role" "head" else s in
  set_tag s1 elem "cell"
else s.

(** [sanitize_tree] *)
Definition sanitize_tree `{Utils} `{Settings} `{HtmlProcessing} (s : store) (tree : nat)
    (include_formatting : bool) : result (store * (nat * string * Z)) :=
match remove_all s (xpath_sanitized s tree) with
| Raise x => Raise x
| Ok s1 =>
    let s2 := strip_tags s1 tree (MANUALLY_STRIPPED ++ ["a"; "span"]) in
    let '(s3, tree) := prune_html s2 tree in
    let '(s4, cleaned_tree) := convert_tags s3 tree include_formatting false in
    let s5 := foldl finish_table s4 (iter_tags s4 cleaned_tree ["td"; "th"; "tr"]) in
    let sanitization_list :=
      filter (λ tagname, str_in tagname Xml.TEI_VALID_TAGS = false)
             (map (tag_of s5) (iter s5 cleaned_tree)) in
    let s6 := strip_tags s5 cleaned_tree sanitization_list in
    let text := trim (join " " (itertext s6 cleaned_tree)) in
    Ok (s6, (cleaned_tree, text, py_len text))
end.

End External.

(** ** core.py: the arbiter *)

Module Arbiter.
Import Lxml Etree External.

(** The arms of the [if]/[elif] chain of [compare_extraction], in the
    order they are written. *)
Inductive arm := Arm1 | Arm2 | Arm3 | Arm4 | Arm5 | Arm6.

(** The condition chain: [p_text] is the result of
    [body.xpath('//p//text()')]. *)
Definition choose_arm `{Settings} (len_text len_algo : Z) (p_text : list string) : arm :=
if bool_decide (len_algo = 0 ∨ len_algo = len_text)%Z then Arm1
else if bool_decide (len_text = 0)%Z && bool_decide (len_algo > 0)%Z then Arm2
else if bool_decide (len_text > 2 * len_algo)%Z then Arm3
else if bool_decide (len_algo > 2 * len_text)%Z then Arm4
else if bool_decide (p_text = []) && bool_decide (len_algo > MIN_EXTRACTED_SIZE)%Z then Arm5
else Arm6.

(** The value each arm assigns to [algo_flag]. *)
Definition arm_flag (a : arm) : bool :=
match a with
| Arm1 => false
| Arm2 => true
| Arm3 => false
| Arm4 => true
| Arm5 => true
| Arm6 => false
end.

Definition algo_flag `{Settings} (len_text len_algo : Z) (p_text : list string) : bool :=
arm_flag (choose_arm len_text len_algo p_text).

(** [compare_extraction] *)
Definition compare_extraction `{Utils} `{Settings} `{HtmlProcessing} `{Readability} `{Justext}
    (s : store) (tree backup_tree : nat) (url : option string) (body : nat)
    (text : string) (len_text : Z) (target_language : option string)
    (include_formatting : bool) : result (store * (nat * string * Z)) :=
match try_readability s backup_tree url with
| Raise x => Raise x
| Ok (s1, temppost_algo) =>
    let algo_text := trim (join " " (itertext s1 temppost_algo)) in
    let len_algo := py_len algo_text in
    let flag := algo_flag len_text len_algo (xpath_p_text s1 body) in
    let '(body, text, len_text) :=
      if flag then (temppost_algo, algo_text, len_algo) else (body, text, len_text) in
    match xpath_sanitized s1 body with
    | _ :: _ =>
        match justext_rescue s1 tree target_language body 0 "" with
        | Raise x => Raise x
        | Ok (s2, (body2, text2, len_text2, jt_result)) =>
            if jt_result then Ok (s2, (body2, text2, len_text2))
            else sanitize_tree s2 body include_formatting
        end
    | [] =>
        if bool_decide (len_text < MIN_EXTRACTED_SIZE)%Z then
          match justext_rescue s1 tree target_language body len_text text with
          | Raise x => Raise x
          | Ok (s2, (body, text, len_text, jt_result)) =>
              if jt_result then Ok (s2, (body, text, len_text))
              else sanitize_tree s2 body include_formatting
          end
        else if flag then sanitize_tree s1 body include_formatting
        else Ok (s1, (body, text, len_text))
    end
end.

(** What [compare_extraction] does once the decision is applied, from
    "override faulty extraction" to the return, on the body, the text
    and the length that the decision has chosen. *)
Definition second_step `{Utils} `{Settings} `{HtmlProcessing} `{Justext}
    (s1 : store) (tree : nat) (target_language : option string) (include_formatting : bool)
    (algo_flag : bool) (body : nat) (text : string) (len_text : Z)
  : result (store * (nat * string * Z)) :=
match xpath_sanitized s1 body with
| _ :: _ =>
    match justext_rescue s1 tree target_language body 0 "" with
    | Raise x => Raise x
    | Ok (s2, (body2, text2, len_text2, jt_result)) =>
        if jt_result then Ok (s2, (body2, text2, len_text2))
        else sanitize_tree s2 body include_formatting
    end
| [] =>
    if bool_decide (len_text < MIN_EXTRACTED_SIZE)%Z then
      match justext_rescue s1 tree target_language body len_text text with
      | Raise x => Raise x
      | Ok (s2, (body, text, len_text, jt_result)) =>
          if jt_result then Ok (s2, (body, text, len_text))
          else sanitize_tree s2 body include_formatting
      end
    else if algo_flag then sanitize_tree s1 body include_formatting
    else Ok (s1, (body, text, len_text))
end.

End Arbiter.

(** ** Metadata records and the state of a run *)

(** The values a metadata field holds. *)
Inductive pyval :=
| PNone
| PStr (x : string)
| PList (l : list string).

Global Instance pyval_eq_dec : EqDecision pyval.
Proof. solve_decision. Defined.

(** A Python dictionary with string keys.  The order of the keys only
    shows in what [json.dumps] prints. *)
Abbreviation dict := (gmap string pyval).

(** The output formats of the interface. *)
Inductive format := Txt | Csv | Json | XmlFmt | XmlTei.

Global Instance format_eq_dec : EqDecision format.
Proof. solve_decision. Defined.

(** Why a document is discarded: one value per [raise ValueError] of
    [bare_extraction], in the order they are written. *)
Inductive reason :=
| Unparsable | Blacklisted | MissingMetadata | Oversized
| Undersized | Duplicate | WrongLanguage.

(** What a run does that can be observed: the pipeline steps it calls,
    and the discards it signals. *)
Inductive event :=
| Call (name : string)
| Discard (why : reason).

(** The state of a run: the trees, the dictionaries (addressed by
    index, so that two names for one dictionary see the same changes),
    and the events so far. *)
Record world := mk_world {
  trees : Lxml.store;
  dicts : list dict;
  trace : list event
}.

(** A computation that changes the state and returns or raises; the
    state survives an exception. *)
Definition M (A : Type) : Type := world → world * result A.

Global Instance M_ret : MRet M := λ A a w, (w, Ok a).
Global Instance M_bind : MBind M := λ A B f m w,
  match m w with
  | (w1, Ok a) => f a w1
  | (w1, Raise x) => (w1, Raise x)
  end.

Definition raise {A} (x : exn) : M A := λ w, (w, Raise x).

Definition emit (ev : event) : M unit :=
λ w, (mk_world (trees w) (dicts w) (trace w ++ [ev]), Ok ()).

(** [raise ValueError] at one of the discard points. *)
Definition discard {A} (why : reason) : M A :=
λ w, (mk_world (trees w) (dicts w) (trace w ++ [Discard why]), Raise ValueError).

(** [try: m except ValueError: h] *)
Definition except_value_error {A} (m : M A) (h : M A) : M A :=
λ w, match m w with
     | (w1, Raise ValueError) => h w1
     | r => r
     end.

Definition get_world : M world := λ w, (w, Ok w).
Definition get_trees : M Lxml.store := λ w, (w, Ok (trees w)).

Definition on_trees {A} (f : Lxml.store → Lxml.store * A) : M A :=
λ w, let '(s, a) := f (trees w) in (mk_world s (dicts w) (trace w), Ok a).

Definition on_trees_r {A} (f : Lxml.store → result (Lxml.store * A)) : M A :=
λ w, match f (trees w) with
     | Ok (s, a) => (mk_world s (dicts w) (trace w), Ok a)
     | Raise x => (w, Raise x)
     end.

(** A new dictionary. *)
Definition new_dict (d : dict) : M nat :=
λ w, (mk_world (trees w) (dicts w ++ [d]) (trace w), Ok (length (dicts w))).

Definition the_dict (w : world) (r : nat) : dict := default ∅ (dicts w !! r).

(** [d[k]] *)
Definition dict_get (r : nat) (k : string) : M pyval :=
λ w, match the_dict w r !! k with
     | Some v => (w, Ok v)
     | None => (w, Raise KeyError)
     end.

(** [d[k] = v] *)
Definition dict_set (r : nat) (k : string) (v : pyval) : M unit :=
λ w, (mk_world (trees w) (alter (λ d, <[k := v]> d) r (dicts w)) (trace w), Ok ()).

(** [d.pop(k)] *)
Definition dict_pop (r : nat) (k : string) : M pyval :=
λ w, match the_dict w r !! k with
     | Some v => (mk_world (trees w) (alter (λ d, delete k d) r (dicts w)) (trace w), Ok v)
     | None => (w, Raise KeyError)
     end.

(** [sep.join(v)]: a list is joined, a string is joined character by
    character, None is a TypeError. *)
Definition py_join (sep : string) (v : pyval) : M string :=
match v with
| PList l => mret (join sep l)
| PStr x => mret (join sep (map (λ c, String c EmptyString) (String.list_ascii_of_string x)))
| PNone => raise TypeError
end.

(** [metadata] and the language filter. *)
Class Metadata := {
  date_params : Type;
  METADATA_LIST : list string;
  extract_metadata : Lxml.store → nat → option string → option date_params → dict;
  language_filter : string → string → string → dict → bool
}.

(** [utils.load_html], [utils.txttocsv], [copy.deepcopy], [json.dumps]. *)
Class PyLib := {
  load_html : Lxml.store → string → Lxml.store * option nat;
  deepcopy : Lxml.store → nat → Lxml.store * nat;
  txttocsv : string → string → dict → string;
  json_dumps : dict → string
}.

(** The functions that the orchestrator takes through an interface:
    the XML side of the output works through lxml's serialiser and the
    TEI header, the baseline extraction through regular expressions.  No
    statement about the orchestrator depends on what they produce.
    [baseline], [add_xml_meta] and [write_teitree] are embedded from the
    code in the modules [Baseline], [XmlMeta] and [Tei]. *)
Class Outputs := {
  baseline : Lxml.store → string → Lxml.store * (nat * string * Z);
  add_xml_meta : Lxml.store → nat → dict → Lxml.store * nat;
  write_teitree : Lxml.store → nat → option nat → dict → Lxml.store * nat;
  control_xml_output : Lxml.store → nat → format → bool → dict → string
}.

(** ** core.py: the baseline extraction *)

(** [re]: the search of [baseline] for the article body in the text of
    a JSON script, a regular expression that ignores case; the result
    is the first group of the match, None when nothing is found. *)
Class Regex := {
  search_articlebody : string → option string
}.

Module Baseline.
Import Lxml Etree.

Definition quote : Ascii.ascii := Ascii.ascii_of_nat 34.
Definition backslash : Ascii.ascii := Ascii.ascii_of_nat 92.
Definition newline : string := String (Ascii.ascii_of_nat 10) EmptyString.

(** [needle in text] *)
Fixpoint contains (needle text : string) : bool :=
String.prefix needle text
|| match text with
   | String _ rest => contains needle rest
   | EmptyString => false
   end.

(** The replacement of [baseline]: a backslash before a quote is
    dropped. *)
Fixpoint unescape (text : string) : string :=
match text with
| String a rest =>
    match rest with
    | String b rest' =>
        if Ascii.eqb a backslash && Ascii.eqb b quote
        then String quote (unescape rest')
        else String a (unescape rest)
    | EmptyString => text
    end
| EmptyString => text
end.

(** [element.text_content()]: the texts of the element and of what it
    holds, without markup. *)
Definition text_content (s : store) (e : nat) : string := join "" (itertext s e).

(** The first loop, over the texts of the JSON scripts: the first text
    that holds an article body gives it, trimmed. *)
Fixpoint scrape_json `{Utils} `{Regex} (texts : list (option string)) : option string :=
match texts with
| [] => None
| Some text :: rest =>
    if negb (bool_decide (text = "")) && contains (String quote "article") text then
      match search_articlebody text with
      | Some group => Some (trim (unescape group))
      | None => scrape_json rest
      end
    else scrape_json rest
| None :: rest => scrape_json rest
end.

(** The body of the last loop: a new [p] for a text that was not met
    before. *)
Definition add_entry (postbody : nat) (st : store * list string) (element : nat)
  : store * list string :=
let '(s, results) := st in
let entry := text_content s element in
if bool_decide (entry ∈ results) then (s, results)
else
  let '(s1, elem) := Element s "p" in
  (append (set_text s1 elem (Some entry)) postbody elem, entry :: results).

(** [baseline].  The new body comes with the text and its length.  For
    an input that cannot be parsed the code returns the body, the
    integer 0 and the empty string, in this order, where every other
    [return] gives the text before the length: None stands for this
    pair.  [bare_extraction] calls [baseline] on an input that it has
    parsed before. *)
Definition baseline `{Utils} `{PyLib} `{Regex} (s : store) (filecontent : string)
  : store * (nat * option (string * Z)) :=
let '(s0, tree) := load_html s filecontent in
let '(s1, postbody) := Element s0 "body" in
match tree with
| None => (s1, (postbody, None))
| Some tree =>
    let scripts :=
      filter (λ e, tag_of s1 e = "script"
                   ∧ attr_get "type" (attrib_of s1 e) = Some "application/ld+json")
             (xpath_descendants s1 tree) in
    match scrape_json (map (text_of s1) scripts) with
    | Some text =>
        let '(s2, postbody) := Element s1 "body" in
        let '(s3, elem) := Element s2 "p" in
        (append (set_text s3 elem (Some text)) postbody elem,
         (postbody, Some (text, py_len text)))
    | None =>
        let article_elem :=
          head (filter (λ e, tag_of s1 e = "article") (xpath_descendants s1 tree)) in
        let found :=
          article_elem ≫= λ a,
            let temp_text := trim (text_content s1 a) in
            if bool_decide (py_len temp_text > 0)%Z then Some temp_text else None in
        match found with
        | Some temp_text =>
            let '(s2, elem) := Element s1 "p" in
            (append (set_text s2 elem (Some temp_text)) postbody elem,
             (postbody, Some (temp_text, py_len temp_text)))
        | None =>
            let '(s2, _) :=
              foldl (add_entry postbody) (s1, [])
                    (iter_tags s1 tree ["blockquote"; "code"; "p"; "pre"; "q"; "quote"]) in
            let temp_text := trim (join newline (itertext s2 postbody)) in
            (s2, (postbody, Some (temp_text, py_len temp_text)))
        end
    end
end.

End Baseline.

(** ** xml.py and core.py: the output side *)

Module Output.
Import Lxml Etree Xml.

(** [build_json_output]: [outputdict] is another name for [docmeta]. *)
Definition build_json_output `{Utils} `{PyLib} (docmeta postbody : nat)
    (commentsbody : option nat) : M string :=
let outputdict := docmeta in
v ← dict_pop outputdict "url"; _ ← dict_set outputdict "source" v;
v ← dict_pop outputdict "hostname"; _ ← dict_set outputdict "source-hostname" v;
v ← dict_pop outputdict "description"; _ ← dict_set outputdict "excerpt" v;
v ← dict_get outputdict "categories"; j ← py_join ";" v;
_ ← dict_set outputdict "categories" (PStr j);
v ← dict_get outputdict "tags"; j ← py_join ";" v;
_ ← dict_set outputdict "tags" (PStr j);
t ← on_trees (λ s, xmltotxt s postbody);
_ ← dict_set outputdict "text" (PStr t);
t ← match commentsbody with
    | Some c => on_trees (λ s, xmltotxt s c)
    | None => raise AttributeError
    end;
_ ← dict_set outputdict "comments" (PStr t);
w ← get_world;
mret (json_dumps (the_dict w outputdict)).

(** [clean_attributes] *)
Definition clean_attributes (s : store) (tree : nat) : store :=
foldl (λ s elem, if str_in (tag_of s elem) ["del"; "hi"] then s else attrib_clear s elem)
      s (iter s tree).

(** [build_xml_output] *)
Definition build_xml_output (s : store) (postbody : nat) (commentsbody : option nat)
  : store * nat :=
let '(s1, output) := Element s "doc" in
let s2 := append (set_tag s1 postbody "main") output postbody in
let s3 := match commentsbody with
          | Some c => append (set_tag s2 c "comments") output c
          | None => s2
          end in
(clean_attributes s3 output, output).

(** The last cleaning of [determine_returnstring]: empty leaves go. *)
Definition drop_if_empty (s : store) (element : nat) : result store :=
if bool_decide (len s element = 0)
   && bool_decide (text_of s element ∈ [None; Some ""])
   && bool_decide (tail_of s element ∈ [None; Some ""])
then match getparent s element with
     | Some parent => Ok (remove s parent element)
     | None => Ok s
     end
else Ok s.

(** [determine_returnstring] *)
Definition determine_returnstring `{Utils} `{PyLib} `{Outputs} (docmeta postbody : nat)
    (commentsbody : option nat) (output_format : format) (tei_validation : bool)
  : M string :=
match output_format with
| XmlFmt | XmlTei =>
    _ ← on_trees_r (λ s, match for_iter postbody (λ _, true) drop_if_empty s with
                          | Ok s' => Ok (s', ())
                          | Raise x => Raise x
                          end);
    w ← get_world;
    let d := the_dict w docmeta in
    output ← (if bool_decide (output_format = XmlFmt) then
                on_trees (λ s, let '(s1, output) := build_xml_output s postbody commentsbody in
                               add_xml_meta s1 output d)
              else
                on_trees (λ s, let '(s1, output) := write_teitree s postbody commentsbody d in
                               (check_tei s1 output, output)));
    s ← get_trees;
    mret (control_xml_output s output output_format tei_validation d)
| Csv =>
    posttext ← on_trees (λ s, xmltotxt s postbody);
    commentstext ← match commentsbody with
                    | Some c => on_trees (λ s, xmltotxt s c)
                    | None => mret ""
                    end;
    w ← get_world;
    mret (txttocsv posttext commentstext (the_dict w docmeta))
| Json => build_json_output docmeta postbody commentsbody
| Txt =>
    output ← on_trees (λ s, build_xml_output s postbody commentsbody);
    on_trees (λ s, xmltotxt s output)
end.

(** [map_format] *)
Definition map_format (output_format : format)
    (csv_output json_output xml_output tei_output : bool) : format :=
if bool_decide (output_format = Txt)
   && (csv_output || json_output || xml_output || tei_output)
then if csv_output then Csv
     else if json_output then Json
     else if xml_output then XmlFmt
     else if tei_output then XmlTei
     else output_format
else output_format.

End Output.

(** ** core.py: the orchestrator *)

Module Pipeline.
Import Lxml Etree Core Arbiter Output.

(** The keyword arguments [bare_extraction] and [extract] share. *)
Record options `{Metadata} := mk_options {
  url : option string;
  no_fallback : bool;
  include_comments : bool;
  target_language : option string;
  include_tables : bool;
  include_formatting : bool;
  deduplicate : bool;
  date_extraction_params : option date_params;
  with_metadata : bool;
  max_tree_size : option Z;
  url_blacklist : list string
}.

(** [x in url_blacklist] for a metadata value. *)
Definition blacklisted (v : pyval) (url_blacklist : list string) : bool :=
match v with
| PStr u => bool_decide (u ∈ url_blacklist)
| _ => false
end.

(** The metadata step: resolve, then the two checks. *)
Definition metadata_step `{Metadata} (o : options) (output_format : format) (tree : nat)
  : M nat :=
if bool_decide (output_format ≠ Txt) then
  _ ← emit (Call "extract_metadata");
  s ← get_trees;
  docmeta ← new_dict (extract_metadata s tree (url o) (date_extraction_params o));
  u ← dict_get docmeta "url";
  if blacklisted u (url_blacklist o) then discard Blacklisted
  else if with_metadata o then
    d ← dict_get docmeta "date";
    t ← dict_get docmeta "title";
    u ← dict_get docmeta "url";
    if bool_decide (PNone ∈ [d; t; u]) then discard MissingMetadata
    else mret docmeta
  else mret docmeta
else new_dict (list_to_map (map (λ k, (k, PNone)) METADATA_LIST)).

(** The tree size sanity check. *)
Definition tree_size_check (max_tree_size : option Z) (postbody : nat) : M unit :=
match max_tree_size with
| None => mret ()
| Some m =>
    s ← get_trees;
    if bool_decide (Z.of_nat (len s postbody) > m)%Z then
      _ ← emit (Call "strip_tags");
      _ ← on_trees (λ s, (strip_tags s postbody ["hi"], ()));
      s ← get_trees;
      if bool_decide (Z.of_nat (len s postbody) > m)%Z then discard Oversized
      else mret ()
    else mret ()
end.

(** The size check on text and comments. *)
Definition size_check `{Settings} (len_text len_comments : Z) : M unit :=
if bool_decide (len_text < MIN_OUTPUT_SIZE)%Z
   && bool_decide (len_comments < MIN_OUTPUT_COMM_SIZE)%Z
then discard Undersized else mret ().

(** The duplicate check at body level. *)
Definition duplicate_check `{Filters} (deduplicate : bool) (postbody : nat) : M unit :=
if deduplicate then
  _ ← emit (Call "duplicate_test");
  s ← get_trees;
  if duplicate_test s postbody then discard Duplicate else mret ()
else mret ().

(** The sanity check on language. *)
Definition language_check `{Metadata} (target_language : option string)
    (temp_text temp_comments : string) (docmeta : nat) : M unit :=
match target_language with
| Some lang =>
    _ ← emit (Call "language_filter");
    w ← get_world;
    if language_filter temp_text temp_comments lang (the_dict w docmeta)
    then discard WrongLanguage else mret ()
| None => mret ()
end.

(** Loading: an input that cannot be parsed is discarded. *)
Definition load_step `{PyLib} (filecontent : string) : M nat :=
_ ← emit (Call "load_html");
loaded ← on_trees (λ s, load_html s filecontent);
match loaded with
| None => discard Unparsable
| Some tree => mret tree
end.

(** What the extraction proper hands to the checks. *)
Record harvest := mk_harvest {
  h_postbody : nat;
  h_temp_text : string;
  h_len_text : Z;
  h_commentsbody : option nat;
  h_temp_comments : string;
  h_len_comments : Z
}.

(** Cleaning, comments, main content and the fallbacks. *)
Definition harvest_step `{Utils} `{Settings} `{HtmlProcessing} `{XPaths} `{Filters}
    `{Handlers} `{Readability} `{Justext} `{Metadata} `{PyLib} `{Outputs}
    (filecontent : string) (o : options) (tree : nat) (backup_tree : option nat)
  : M harvest :=
_ ← emit (Call "tree_cleaning");
cleaned_tree ← on_trees (λ s, tree_cleaning s tree (include_tables o));
_ ← emit (Call "convert_tags");
cleaned_tree ← on_trees (λ s, convert_tags s cleaned_tree (include_formatting o)
                                            (include_tables o));
'(commentsbody, temp_comments, len_comments, cleaned_tree) ←
  (if include_comments o then
     _ ← emit (Call "extract_comments");
     '(c, t, l, tr) ← on_trees_r (λ s, extract_comments s cleaned_tree (deduplicate o));
     mret (Some c, t, l, tr)
   else mret (None, "", 0%Z, cleaned_tree));
_ ← emit (Call "extract_content");
'(postbody, temp_text, len_text, sure_thing) ←
  on_trees_r (λ s, extract_content s cleaned_tree (include_tables o) (deduplicate o));
'(postbody, temp_text, len_text) ←
  match backup_tree with
  | Some backup_tree =>
      _ ← emit (Call "compare_extraction");
      on_trees_r (λ s, compare_extraction s tree backup_tree (url o) postbody
                                          temp_text len_text (target_language o)
                                          (include_formatting o))
  | None =>
      if negb sure_thing && bool_decide (len_text < MIN_EXTRACTED_SIZE)%Z then
        _ ← emit (Call "baseline");
        on_trees (λ s, baseline s filecontent)
      else mret (postbody, temp_text, len_text)
  end;
mret (mk_harvest postbody temp_text len_text commentsbody temp_comments len_comments).

(** The backup copy: None exactly when [no_fallback] is set. *)
Definition backup_step `{PyLib} (no_fallback : bool) (tree : nat) : M (option nat) :=
if no_fallback then mret None
else _ ← emit (Call "deepcopy");
     b ← on_trees (λ s, deepcopy s tree); mret (Some b).

(** The steps of [bare_extraction] that come before the checks on the
    result: loading, the backup copy, metadata, and the extraction. *)
Definition before_checks `{Utils} `{Settings} `{HtmlProcessing} `{XPaths} `{Filters}
    `{Handlers} `{Readability} `{Justext} `{Metadata} `{PyLib} `{Outputs}
    (filecontent : string) (o : options) (output_format : format)
  : M (nat * harvest) :=
tree ← load_step filecontent;
backup_tree ← backup_step (no_fallback o) tree;
docmeta ← metadata_step o output_format tree;
h ← harvest_step filecontent o tree backup_tree;
mret (docmeta, h).

(** The checks that follow the tree size check. *)
Definition after_cap `{Settings} `{Filters} `{Metadata}
    (o : options) (docmeta : nat) (h : harvest) : M (nat * string * nat * option nat) :=
_ ← size_check (h_len_text h) (h_len_comments h);
_ ← duplicate_check (deduplicate o) (h_postbody h);
_ ← language_check (target_language o) (h_temp_text h) (h_temp_comments h) docmeta;
mret (docmeta, h_temp_text h, h_postbody h, h_commentsbody h).

(** The body of the [try] block of [bare_extraction]. *)
Definition extraction_steps `{Utils} `{Settings} `{HtmlProcessing} `{XPaths} `{Filters}
    `{Handlers} `{Readability} `{Justext} `{Metadata} `{PyLib} `{Outputs}
    (filecontent : string) (o : options) (output_format : format)
  : M (nat * string * nat * option nat) :=
'(docmeta, h) ← before_checks filecontent o output_format;
_ ← tree_size_check (max_tree_size o) (h_postbody h);
after_cap o docmeta h.

(** What [bare_extraction] returns: four values, all None for a
    discarded document. *)
Definition outcome : Type := option nat * option string * option nat * option nat.

Definition nothing : outcome := (None, None, None, None).

(** The end of [bare_extraction]: the values are returned, unless a
    ValueError was raised. *)
Definition conclude (m : M (nat * string * nat * option nat)) : M outcome :=
except_value_error
  ('(docmeta, temp_text, postbody, commentsbody) ← m;
   mret (Some docmeta, Some temp_text, Some postbody, commentsbody))
  (mret nothing).

(** [bare_extraction] *)
Definition bare_extraction `{Utils} `{Settings} `{HtmlProcessing} `{XPaths} `{Filters}
    `{Handlers} `{Readability} `{Justext} `{Metadata} `{PyLib} `{Outputs}
    (filecontent : string) (o : options) (output_format : format) : M outcome :=
conclude (extraction_steps filecontent o output_format).

(** [extract]: the returned string, or None. *)
Definition extract `{Utils} `{Settings} `{HtmlProcessing} `{XPaths} `{Filters}
    `{Handlers} `{Readability} `{Justext} `{Metadata} `{PyLib} `{Outputs}
    (filecontent : string) (o : options) (record_id : pyval) (output_format : format)
    (csv_output json_output xml_output tei_output tei_validation : bool)
  : M (option string) :=
let output_format := map_format output_format csv_output json_output xml_output tei_output in
r ← bare_extraction filecontent o output_format;
match r with
| (Some docmeta, Some temp_text, Some postbody, commentsbody) =>
    _ ← (if bool_decide (output_format ≠ Txt) then
           _ ← dict_set docmeta "id" record_id;
           _ ← emit (Call "content_fingerprint");
           dict_set docmeta "fingerprint" (PStr (content_fingerprint temp_text))
         else mret ());
    _ ← emit (Call "determine_returnstring");
    x ← determine_returnstring docmeta postbody commentsbody output_format tei_validation;
    mret (Some x)
| _ => mret None
end.

End Pipeline.

(** ** Sample collaborators and documents

    Concrete implementations of the interfaces and small documents, on
    which the statements below are run. *)

Module Sample.
Import Lxml.

(** The thresholds of the upstream package. *)
Definition settings : Settings := {|
  MIN_EXTRACTED_SIZE := 200;
  MIN_EXTRACTED_COMM_SIZE := 10;
  MIN_OUTPUT_SIZE := 10;
  MIN_OUTPUT_COMM_SIZE := 10;
  TAG_CATALOG := ["blockquote"; "code"; "del"; "fw"; "head"; "hi"; "lb"; "list"; "p";
                  "pre"; "quote"];
  MANUALLY_STRIPPED := ["abbr"; "acronym"; "address"; "bdi"; "bdo"; "big"; "cite";
                        "data"; "dfn"; "font"; "hgroup"; "img"; "ins"; "mark"; "meta";
                        "ruby"; "small"; "tbody"; "tfoot"; "thead"];
  JUSTEXT_LANGUAGES := ∅
|}.

(** Leading and trailing blanks removed. *)
Fixpoint lstrip (t : string) : string :=
match t with
| String c r => if Ascii.eqb c (Ascii.ascii_of_nat 32) then lstrip r else t
| EmptyString => t
end.
Definition strip (t : string) : string :=
let back x := String.string_of_list_ascii (rev (String.list_ascii_of_string x)) in
back (lstrip (back (lstrip t))).

Definition utils : Utils := {| trim := strip; sanitize := λ t, t |}.

Definition has_text (o : option string) : bool :=
match o with
| Some t => bool_decide (strip t ≠ "")
| None => false
end.

(** A text helper that trims the element and keeps it when text is left. *)
Definition trim_node (s : store) (e : nat) : rewrite :=
mk_rewrite (tag_of s e) (strip <$> text_of s e) (strip <$> tail_of s e)
           (has_text (text_of s e) || has_text (tail_of s e)).

(** Passes that leave the tree as it is. *)
Definition htmlprocessing : HtmlProcessing := {|
  process_node := trim_node;
  handle_textnode := λ s e _ _, trim_node s e;
  discard_unwanted := λ s e, (s, e);
  discard_unwanted_comments := λ s e, (s, e);
  link_density_test := λ _ _, false;
  link_density_test_tables := λ _ _, false;
  convert_tags := λ s e _ _, (s, e);
  prune_html := λ s e, (s, e);
  tree_cleaning := λ s e _, (s, e)
|}.

(** Queries of the form [//tag]. *)
Definition xpaths : XPaths := {|
  expr := string;
  BODY_XPATH := ["article"; "main"];
  COMMENTS_XPATH := ["section"];
  xpath := λ s tree e, iter_tags s (getroot s tree) [e]
|}.

Definition filters : Filters := {|
  text_chars_test := has_text;
  search_word := λ t, bool_decide (t ≠ "");
  duplicate_test := λ _ _, false;
  content_fingerprint := λ t, t
|}.

(** Handlers that return the element they are given. *)
Definition handlers : Handlers := {|
  handle_lists := λ s e _, (s, Some e);
  handle_quotes := λ s e, (s, Some e);
  handle_paragraphs := λ s e _ _, (s, Some e)
|}.

(** A readability that gives up, a justext that finds nothing. *)
Definition readability_unparseable : Readability := {|
  summary := λ _ _ _, Raise Unparseable
|}.
Definition justext_value_error : Justext := {|
  stoplist := unit;
  JT_STOPLIST := ();
  get_stoplist := λ _, ();
  justext := λ _ _ _, Raise ValueError
|}.

(** A generic text of forty characters and a custom text of fifty. *)
Definition forty : string := "Forty characters of generic text, no dot".
Definition fifty : string := "Fifty characters of custom text kept by the rules.".

(** A readability that returns one [div] with the text of forty
    characters. *)
Definition readability_forty : Readability := {|
  summary := λ s _ _, let '(s1, d) := Element s "div" in Ok (set_text s1 d (Some forty), d)
|}.

Definition metadata : Metadata := {|
  date_params := unit;
  METADATA_LIST := ["title"; "author"; "url"; "hostname"; "description"; "sitename";
                    "date"; "categories"; "tags"; "id"; "fingerprint"];
  extract_metadata := λ _ _ u _,
    list_to_map [("title", PStr "T"); ("author", PNone);
                 ("url", from_option PStr PNone u); ("hostname", PNone);
                 ("description", PNone); ("sitename", PNone); ("date", PNone);
                 ("categories", PList []); ("tags", PList []);
                 ("id", PNone); ("fingerprint", PNone)];
  language_filter := λ _ _ _ _, false
|}.

(** The page
    [<html><body><div><hi>alpha</hi><hi>beta</hi><hi>gamma</hi></div></body></html>]:
    no candidate query of the sample matches it. *)
Definition page : store :=
[ mk_node "html" [] None None None [1];
  mk_node "body" [] None None (Some 0) [2];
  mk_node "div" [] None None (Some 1) [3; 4; 5];
  mk_node "hi" [] (Some "alpha") None (Some 2) [];
  mk_node "hi" [] (Some "beta") None (Some 2) [];
  mk_node "hi" [] (Some "gamma") None (Some 2) [] ].

(** The page
    [<html><body><article><p>Some words of an article.</p></article></body></html>]. *)
Definition article_page : store :=
[ mk_node "html" [] None None None [1];
  mk_node "body" [] None None (Some 0) [2];
  mk_node "article" [] None None (Some 1) [3];
  mk_node "p" [] (Some "Some words of an article.") None (Some 2) [] ].

(** A copy of every node of the store, placed after the store. *)
Definition shift (k : nat) (n : node) : node :=
mk_node (n_tag n) (n_attrib n) (n_text n) (n_tail n)
        ((λ p, p + k) <$> n_parent n) (map (λ c, c + k) (n_children n)).

(** The empty input cannot be parsed; the input ["article"] is the
    article page, any other input the page without an article.  The
    baseline of the sample takes the [div] of the page as it is. *)
Definition pylib : PyLib := {|
  load_html := λ s content,
    if bool_decide (content = "") then (s, None)
    else if bool_decide (content = "article")
    then (s ++ map (shift (length s)) article_page, Some (length s))
    else (s ++ map (shift (length s)) page, Some (length s));
  deepcopy := λ s t, (s ++ map (shift (length s)) s, t + length s);
  txttocsv := λ post comments _, post +:+ "," +:+ comments;
  json_dumps := λ d, from_option (λ v, match v with PStr x => x | _ => "" end) "" (d !! "text")
|}.

(** A search that finds no article body: no page of the samples holds
    JSON. *)
Definition no_article_body : Regex := {| search_articlebody := λ _, None |}.

(** [baseline] is the function of the code, on pages that parse. *)
Definition outputs : Outputs := {|
  baseline := λ s filecontent,
    let '(s1, (postbody, r)) := @Baseline.baseline utils pylib no_article_body s filecontent in
    (s1, (postbody, from_option fst "" r, from_option snd 0%Z r));
  add_xml_meta := λ s e _, (s, e);
  write_teitree := λ s e _ _, (s, e);
  control_xml_output := λ _ _ _ _ _, ""
|}.

(** A run starts with no tree, no dictionary and no event. *)
Definition start : world := mk_world [] [] [].





(** The same, with a cap that no content tree respects. *)
Definition strict : @Pipeline.options metadata :=
@Pipeline.mk_options metadata None true false None true false false None false (Some 0%Z) [].

Definition strict_before : world * result (nat * Pipeline.harvest) :=
Eval vm_compute in
  @Pipeline.before_checks utils settings htmlprocessing xpaths filters handlers
    readability_unparseable justext_value_error metadata pylib outputs "article" strict Txt start.

Definition strict_harvest : Pipeline.harvest :=
Pipeline.mk_harvest 4 "Some words of an article." 25 None "" 0.

(** The content tree [<body><p>a<hi>b</hi>c<link>d</link></p></body>]. *)
Definition formatted : store :=
[ mk_node "body" [] None None None [1];
  mk_node "p" [] (Some "a") None (Some 0) [2; 3];
  mk_node "hi" [] (Some "b") (Some "c") (Some 1) [];
  mk_node "link" [] (Some "d") None (Some 1) [] ].

(** A TEI document whose entry holds a [span] around a paragraph:
    [<TEI><teiHeader/><text><body><div type="entry">
       <span>kept<p>lost</p></span></div></body></text></TEI>]. *)
Definition tei_nested : store :=
[ mk_node "TEI" [] None None None [1; 2];
  mk_node "teiHeader" [] None None (Some 0) [];
  mk_node "text" [] None None (Some 0) [3];
  mk_node "body" [] None None (Some 2) [4];
  mk_node "div" [("type", "entry")] None None (Some 3) [5];
  mk_node "span" [] (Some "kept") None (Some 4) [6];
  mk_node "p" [] (Some "lost") None (Some 5) [] ].

(** A TEI document whose entry holds a paragraph with a leaf [span]:
    [<TEI><teiHeader/><text><body><div type="entry">
       <p class="x" rend="y">one<span>two</span>three</p></div></body></text></TEI>]. *)
Definition tei_flat : store :=
[ mk_node "TEI" [] None None None [1; 2];
  mk_node "teiHeader" [] None None (Some 0) [];
  mk_node "text" [] None None (Some 0) [3];
  mk_node "body" [] None None (Some 2) [4];
  mk_node "div" [("type", "entry")] None None (Some 3) [5];
  mk_node "p" [("class", "x"); ("rend", "y")] (Some "one") None (Some 4) [6];
  mk_node "span" [] (Some "two") (Some "three") (Some 5) [] ].

(** A page whose comment section holds no comment, only a wrapper:
    [<html><body><section><span>x</span></section></body></html>]. *)
Definition idle_section : store :=
[ mk_node "html" [] None None None [1];
  mk_node "body" [] None None (Some 0) [2];
  mk_node "section" [] None None (Some 1) [3];
  mk_node "span" [] (Some "x") None (Some 2) [] ].

(** A page with a comment:
    [<html><body><section><p>nice</p></section></body></html>]. *)
Definition commented : store :=
[ mk_node "html" [] None None None [1];
  mk_node "body" [] None None (Some 0) [2];
  mk_node "section" [] None None (Some 1) [3];
  mk_node "p" [] (Some "nice") None (Some 2) [] ].

(** The extraction of the article page, and the store it leaves. *)
Definition article_extracted : result (store * (nat * string * Z * bool)) :=
Eval vm_compute in
  @Core.extract_content utils settings htmlprocessing filters handlers xpaths
    article_page 0 true false.

Definition article_store : store :=
match article_extracted with
| Ok (s', _) => s'
| Raise _ => []
end.


(** A table that begins with a nested table:
    [<table><table><tr><td>x</td></tr></table><tr><td>a</td></tr></table>]. *)
Definition nested_first : store :=
[ mk_node "table" [] None None None [1; 4];
  mk_node "table" [] None None (Some 0) [2];
  mk_node "tr" [] None None (Some 1) [3];
  mk_node "td" [] (Some "x") None (Some 2) [];
  mk_node "tr" [] None None (Some 0) [5];
  mk_node "td" [] (Some "a") None (Some 4) [] ].

(** A table with a nested table between two rows:
    [<table><tr><td>a</td></tr><table><tr><td>x</td></tr></table>
            <tr><td>b</td></tr></table>]. *)
Definition nested_later : store :=
[ mk_node "table" [] None None None [1; 3; 6];
  mk_node "tr" [] None None (Some 0) [2];
  mk_node "td" [] (Some "a") None (Some 1) [];
  mk_node "table" [] None None (Some 0) [4];
  mk_node "tr" [] None None (Some 3) [5];
  mk_node "td" [] (Some "x") None (Some 4) [];
  mk_node "tr" [] None None (Some 0) [7];
  mk_node "td" [] (Some "b") None (Some 6) [] ].

(** A custom body with one paragraph: [<body><p>text</p></body>]. *)
Definition body_with_p : store :=
[ mk_node "body" [] None None None [1];
  mk_node "p" [] (Some "text") None (Some 0) [] ].

End Sample.

(** * More of the code

    The functions below are those the orchestrator reaches through its
    interfaces, embedded from [xml.py] itself. *)

(** ** Python values and exceptions in pure code *)

Global Instance result_ret : MRet result := λ A a, Ok a.
Global Instance result_bind : MBind result := λ A B f r,
  match r with
  | Ok a => f a
  | Raise x => Raise x
  end.

(** lxml takes a string as a text or as the value of an attribute only
    when it is XML compatible, without NULL bytes or control characters,
    and raises ValueError when it is not.  The test is lxml's own, and
    lxml is not among the files. *)
Class XmlStrings := {
  xml_compatible : string → bool
}.

Module Py.

(** [d[key]] *)
Definition item (d : dict) (key : string) : result pyval :=
match d !! key with
| Some v => Ok v
| None => Raise KeyError
end.

(** The truth value of an object: None, the empty string and the empty
    list are false. *)
Definition truthy (v : pyval) : bool :=
match v with
| PNone => false
| PStr x => negb (bool_decide (x = ""))
| PList l => negb (bool_decide (l = []))
end.

(** [a + b]: strings with strings, lists with lists. *)
Definition add (a b : pyval) : result pyval :=
match a, b with
| PStr x, PStr y => Ok (PStr (x +:+ y))
| PList x, PList y => Ok (PList (x ++ y))
| _, _ => Raise TypeError
end.

(** [len(v)] *)
Definition len (v : pyval) : result nat :=
match v with
| PNone => Raise TypeError
| PStr x => Ok (String.length x)
| PList l => Ok (length l)
end.

(** [sep.join(v)] *)
Definition join_value (sep : string) (v : pyval) : result string :=
match v with
| PList l => Ok (join sep l)
| PStr x => Ok (join sep (map (λ c, String c EmptyString) (String.list_ascii_of_string x)))
| PNone => Raise TypeError
end.

(** A string on its way into the tree. *)
Definition checked `{XmlStrings} (x : string) : result string :=
if xml_compatible x then Ok x else Raise ValueError.

(** What lxml accepts as a text, a tail or an attribute value: a string
    that is XML compatible, and None for a text. *)
Definition as_text `{XmlStrings} (v : pyval) : result (option string) :=
match v with
| PNone => Ok None
| PStr x => x ← checked x; Ok (Some x)
| PList _ => Raise TypeError
end.

Definition as_value `{XmlStrings} (v : pyval) : result string :=
match v with
| PStr x => checked x
| _ => Raise TypeError
end.

End Py.

(** ** xml.py: the metadata of the XML output *)

Module XmlMeta.
Import Lxml Py.

(** [if docmeta[key] is not None: output.set(attr, docmeta[key])] *)
Definition copy_item `{XmlStrings} (d : dict) (key attr : string) (output : nat) (s : store)
  : result store :=
v ← item d key;
match v with
| PNone => Ok s
| _ => x ← as_value v; Ok (set s output attr x)
end.

(** [if docmeta[key] is not None: output.set(attr, ';'.join(docmeta[key]))] *)
Definition copy_joined `{XmlStrings} (d : dict) (key attr : string) (output : nat)
    (s : store) : result store :=
v ← item d key;
match v with
| PNone => Ok s
| _ => x ← join_value ";" v; x ← checked x; Ok (set s output attr x)
end.

(** [add_xml_meta]: an empty dictionary is skipped. *)
Definition add_xml_meta `{XmlStrings} (s : store) (output : nat) (docmeta : dict)
  : result store :=
if bool_decide (docmeta = ∅) then Ok s
else
  s ← copy_item docmeta "sitename" "sitename" output s;
  s ← copy_item docmeta "title" "title" output s;
  s ← copy_item docmeta "author" "author" output s;
  s ← copy_item docmeta "date" "date" output s;
  s ← copy_item docmeta "url" "source" output s;
  s ← copy_item docmeta "hostname" "hostname" output s;
  s ← copy_item docmeta "description" "excerpt" output s;
  s ← copy_joined docmeta "categories" "categories" output s;
  s ← copy_joined docmeta "tags" "tags" output s;
  s ← copy_item docmeta "id" "id" output s;
  copy_item docmeta "fingerprint" "fingerprint" output s.

End XmlMeta.

(** ** xml.py: the TEI tree *)

Module Tei.
Import Lxml Py.

(** A new element of a tree under construction. *)
Definition el (tag : string) (attrib : list (string * string)) (text : option string)
    (children : list Fresh.element) : Fresh.element :=
Fresh.El tag attrib text children None.

(** [titleStmt]: the main title and, when there is one, the author. *)
Definition title_stmt `{XmlStrings} (docmeta : dict) : result Fresh.element :=
title ← item docmeta "title";
title_text ← as_text title;
author ← item docmeta "author";
authors ← (if truthy author
           then author_text ← as_text author; Ok [el "author" [] author_text []]
           else Ok []);
Ok (el "titleStmt" [] None (el "title" [("type", "main")] title_text [] :: authors)).

(** [notesStmt]: the identifier, when there is one, and the fingerprint. *)
Definition notes_stmt `{XmlStrings} (docmeta : dict) : result Fresh.element :=
id ← item docmeta "id";
idno ← (match id with
        | PNone => Ok []
        | _ => id_text ← as_text id; Ok [el "note" [("type", "id")] id_text []]
        end);
fingerprint ← item docmeta "fingerprint";
fingerprint_text ← as_text fingerprint;
Ok (el "notesStmt" [] None
       (idno ++ [el "note" [("type", "fingerprint")] fingerprint_text []])).

(** The sigle: site name and date, as far as they are there. *)
Definition sigle_of (docmeta : dict) : result pyval :=
sitename ← item docmeta "sitename";
date ← item docmeta "date";
if truthy sitename && truthy date then
  x ← add sitename (PStr ", "); add x date
else if negb (truthy sitename) && truthy date then Ok date
else if truthy sitename && negb (truthy date) then Ok sitename
else Ok (PStr "").

(** The text of the first [bibl]. *)
Definition bibl_text `{XmlStrings} (docmeta : dict) (sigle : pyval)
  : result (option string) :=
title ← item docmeta "title";
v ← (if truthy title
     then x ← add title (PStr ". "); add x sigle
     else add (PStr ". ") sigle);
as_text v.

(** The [publicationStmt] of [biblFull]. *)
Definition publication_stmt `{XmlStrings} (docmeta : dict) : result Fresh.element :=
hostname ← item docmeta "hostname";
sitename ← item docmeta "sitename";
publisherstring ← (match hostname with
                   | PNone => Ok sitename
                   | _ => x ← add sitename (PStr "(");
                          y ← add x hostname;
                          add y (PStr ")")
                   end);
publisher_text ← as_text publisherstring;
url ← item docmeta "url";
ptr ← (match url with
       | PNone => Ok []
       | _ => target ← as_value url;
              Ok [el "ptr" [("type", "URL"); ("target", target)] None []]
       end);
date ← item docmeta "date";
date_text ← as_text date;
Ok (el "publicationStmt" [] None
       ([el "publisher" [] publisher_text []] ++ ptr ++ [el "date" [] date_text []])).

(** [sourceDesc] *)
Definition source_desc `{XmlStrings} (docmeta : dict) : result Fresh.element :=
sigle ← sigle_of docmeta;
source_bibl ← bibl_text docmeta sigle;
sigle_text ← as_text sigle;
titles ← title_stmt docmeta;
publication ← publication_stmt docmeta;
Ok (el "sourceDesc" [] None
       [ el "bibl" [] source_bibl [];
         el "bibl" [("type", "sigle")] sigle_text [];
         el "biblFull" [] None [titles; publication] ]).

(** The [term] elements of the keywords. *)
Definition terms `{XmlStrings} (docmeta : dict) (with_categories : bool)
  : result (list Fresh.element) :=
cat_list ← (if with_categories
            then categories ← item docmeta "categories";
                 t ← join_value "," categories;
                 t ← checked t;
                 Ok [el "term" [("type", "categories")] (Some t) []]
            else Ok []);
tags ← item docmeta "tags";
n ← len tags;
tags_list ← (if bool_decide (0 < n)
             then t ← join_value "," tags;
                  t ← checked t;
                  Ok [el "term" [("type", "tags")] (Some t) []]
             else Ok []);
Ok (cat_list ++ tags_list).

(** [profileDesc]: the abstract and, when there are categories or
    tags, the keywords. *)
Definition profile_desc `{XmlStrings} (docmeta : dict) : result Fresh.element :=
description ← item docmeta "description";
abstract_text ← as_text description;
categories ← item docmeta "categories";
n ← len categories;
textclass ← (if bool_decide (0 < n) then
               ts ← terms docmeta true;
               Ok [el "textClass" [] None [el "keywords" [] None ts]]
             else
               tags ← item docmeta "tags";
               m ← len tags;
               if bool_decide (0 < m) then
                 ts ← terms docmeta false;
                 Ok [el "textClass" [] None [el "keywords" [] None ts]]
               else Ok []);
Ok (el "profileDesc" [] None
       (el "abstract" [] None [el "p" [] abstract_text []] :: textclass)).

(** [encodingDesc]; [version] is the version of the installed
    distribution. *)
Definition encoding_desc (version : string) : Fresh.element :=
el "encodingDesc" [] None
  [ el "appInfo" [] None
      [ el "application" [("version", version); ("ident", "Trafilatura")] None
          [ el "label" [] (Some "Trafilatura") [];
            el "ptr" [("target", "https://github.com/adbar/trafilatura")] None [] ] ] ].

(** [write_fullheader]: the children of the header, in the order the
    statements create them. *)
Definition write_fullheader `{XmlStrings} (version : string) (docmeta : dict)
  : result Fresh.element :=
titles ← title_stmt docmeta;
notes ← notes_stmt docmeta;
source ← source_desc docmeta;
profile ← profile_desc docmeta;
version ← checked version;
Ok (el "teiHeader" [] None
       [ el "fileDesc" [] None
           [ titles;
             el "publicationStmt" [] None [el "p" [] None []];
             notes;
             source ];
         profile;
         encoding_desc version ]).

(** [clean_attributes], the new tag and the new type of a body that
    becomes a division of the TEI body. *)
Definition as_division (s : store) (body : nat) (type : string) : store :=
let s1 := Output.clean_attributes s body in
set (set_tag s1 body "div") body "type" type.

(** [write_teitree] *)
Definition write_teitree `{XmlStrings} (version : string) (s : store) (postbody : nat)
    (commentsbody : option nat) (docmeta : dict) : result (store * nat) :=
header ← write_fullheader version docmeta;
let '(s1, tei) := Element s "TEI" in
let s1 := set s1 tei "xmlns" "http://www.tei-c.org/ns/1.0" in
let '(s2, h) := Core.build s1 header in
let s2 := append s2 tei h in
let '(s3, textelem) := SubElement s2 tei "text" in
let '(s4, textbody) := SubElement s3 textelem "body" in
let s5 := append (as_division s4 postbody "entry") textbody postbody in
Ok (match commentsbody with
    | Some c =>
        if bool_decide (0 < Lxml.len s5 c)
        then append (as_division s5 c "comments") textbody c
        else s5
    | None => s5
    end, tei).


End Tei.

(** ** Documents and records to run the code on *)

Module Cases.
Import Lxml.

(** An extracted post and the comments found beside it:
    [<body class="post"><head rend="h1">Title</head>
       <p id="x">one<hi rend="#b">two</hi>three</p></body>]
    and [<body><p>nice</p></body>]. *)
Definition extracted : store :=
[ mk_node "body" [("class", "post")] None None None [1; 2];
  mk_node "head" [("rend", "h1")] (Some "Title") None (Some 0) [];
  mk_node "p" [("id", "x")] (Some "one") None (Some 0) [3];
  mk_node "hi" [("rend", "#b")] (Some "two") (Some "three") (Some 2) [];
  mk_node "body" [] None None None [5];
  mk_node "p" [] (Some "nice") None (Some 4) [] ].

(** The same post beside a comments tree without a comment. *)
Definition uncommented : store :=
[ mk_node "body" [("class", "post")] None None None [1];
  mk_node "p" [("id", "x")] (Some "one") None (Some 0) [];
  mk_node "body" [] None None None [] ].

(** A TEI document with a title and a paragraph that holds a [span]:
    [<TEI><teiHeader/><text><body><div type="entry"><head>Title</head>
       <p class="x" rend="y">one<span>two</span>three</p></div></body></text></TEI>]. *)
Definition tei_headed : store :=
[ mk_node "TEI" [] None None None [1; 2];
  mk_node "teiHeader" [] None None (Some 0) [];
  mk_node "text" [] None None (Some 0) [3];
  mk_node "body" [] None None (Some 2) [4];
  mk_node "div" [("type", "entry")] None None (Some 3) [5; 6];
  mk_node "head" [] (Some "Title") None (Some 4) [];
  mk_node "p" [("class", "x"); ("rend", "y")] (Some "one") None (Some 4) [7];
  mk_node "span" [] (Some "two") (Some "three") (Some 6) [] ].

(** A [div] with a text and a class. *)
Definition lone_div : store :=
[ mk_node "div" [("class", "c")] (Some " text ") None None [] ].

(** A justext that finds two paragraphs and an advertisement between
    them. *)
Definition justext_three : Justext := {|
  stoplist := unit;
  JT_STOPLIST := ();
  get_stoplist := λ _, ();
  justext := λ _ _ _, Ok [ mk_paragraph "A first paragraph of the article." false;
                           mk_paragraph "Buy now" true;
                           mk_paragraph "A second paragraph." false ]
|}.

(** The strings that lxml takes, for the documents below: no character
    under the blank but the tab, the line feed and the carriage
    return. *)
Definition xml_chars : XmlStrings := {|
  xml_compatible := λ x,
    forallb (λ c, let n := Ascii.nat_of_ascii c in
                  bool_decide ((32 ≤ n)%nat ∨ n ∈ [9; 10; 13]%nat))
            (String.list_ascii_of_string x)
|}.


(** A record as the metadata extraction fills it. *)
Definition record : dict :=
list_to_map [("title", PStr "T"); ("author", PNone); ("url", PStr "http://a.b/c");
             ("hostname", PStr "a.b"); ("description", PStr "About.");
             ("sitename", PStr "Site"); ("date", PStr "2020-01-01");
             ("categories", PList ["x"; "y"]); ("tags", PList []);
             ("id", PNone); ("fingerprint", PStr "f")].

(** JSON output without comments and without a cap on the tree. *)
Definition json_options : @Pipeline.options Sample.metadata :=
@Pipeline.mk_options Sample.metadata None true false None true false false None false None [].

End Cases.

(** * Properties *)

(** ** Facts about the tree store *)

Section StoreFacts.
Import Lxml.

Lemma get_out (s : store) (e : nat) : (length s ≤ e)%nat → get s e = blank.
Proof. intros Hle. unfold get. rewrite lookup_ge_None_2 by exact Hle. reflexivity. Qed.

Lemma get_alter_ne (f : node → node) (s : store) (e x : nat) :
  x ≠ e → get (alter f e s) x = get s x.
Proof. intros Hne. unfold get. rewrite list_lookup_alter_ne by congruence. reflexivity. Qed.

Lemma get_alter_eq (f : node → node) (s : store) (e : nat) :
  e < length s → get (alter f e s) e = f (get s e).
Proof.
  intros Hlt. unfold get. rewrite list_lookup_alter.
  destruct (lookup_lt_is_Some_2 s e Hlt) as [n Hn]. rewrite Hn.
  destruct (decide (e = e)); [reflexivity | congruence].
Qed.

(** A field that the update leaves alone reads the same everywhere. *)
Lemma field_alter {A} (P : node → A) (f : node → node) (s : store) (e x : nat) :
  (∀ n, P (f n) = P n) → P (get (alter f e s) x) = P (get s x).
Proof.
  intros Hf. destruct (decide (x = e)) as [-> | Hne].
  - destruct (decide (e < length s)) as [Hlt | Hge].
    + rewrite get_alter_eq by exact Hlt. apply Hf.
    + unfold get. rewrite list_lookup_alter.
      rewrite lookup_ge_None_2 by lia. destruct (decide (e = e)); reflexivity.
  - rewrite get_alter_ne by exact Hne. reflexivity.
Qed.

Lemma wf_b_wf (s : store) : wf_b s = true → wf s.
Proof.
  intros Hb. unfold wf_b in Hb. rewrite forallb_forall in Hb.
  assert (Hnode : ∀ p, wf_node s p = true).
  { intros p. destruct (decide (p < length s)) as [Hlt | Hge].
    - apply Hb. apply in_seq. lia.
    - unfold wf_node, children_of, getparent. rewrite get_out by lia. reflexivity. }
  split_and!.
  - intros p. specialize (Hnode p). unfold wf_node in Hnode.
    apply andb_prop in Hnode as [Hnode _]. apply andb_prop in Hnode as [Hnd _].
    apply bool_decide_eq_true in Hnd. exact Hnd.
  - intros p e Hin. specialize (Hnode p). unfold wf_node in Hnode.
    apply andb_prop in Hnode as [Hnode _]. apply andb_prop in Hnode as [_ Hall].
    rewrite forallb_forall in Hall. apply list_elem_of_In in Hin.
    specialize (Hall e Hin). apply andb_prop in Hall as [Hp Hl].
    apply bool_decide_eq_true in Hp. apply bool_decide_eq_true in Hl. split; assumption.
  - intros e p Hp. specialize (Hnode e). unfold wf_node in Hnode.
    apply andb_prop in Hnode as [_ Hpar]. rewrite Hp in Hpar.
    apply bool_decide_eq_true in Hpar. exact Hpar.
Qed.

Lemma remove_first_subseteq (e : nat) (l : list nat) : remove_first e l ⊆ l.
Proof.
  induction l as [|a l IH]; simpl; [done |].
  case_bool_decide; [apply list_subseteq_cons; done |].
  intros x Hx. apply elem_of_cons in Hx as [-> | Hx]; [left | right; apply IH, Hx].
Qed.

Lemma remove_first_NoDup (e : nat) (l : list nat) : NoDup l → NoDup (remove_first e l).
Proof.
  induction 1 as [|a l Hnin Hnd IH]; simpl; [constructor |].
  case_bool_decide; [exact Hnd |].
  constructor; [| exact IH]. intros Hin. apply Hnin. eapply remove_first_subseteq, Hin.
Qed.

Lemma remove_first_gone (e : nat) (l : list nat) : NoDup l → e ∉ remove_first e l.
Proof.
  induction 1 as [|a l Hnin Hnd IH]; simpl; [apply not_elem_of_nil |].
  case_bool_decide as Hae; [subst; exact Hnin |].
  intros Hin. apply elem_of_cons in Hin as [-> | Hin]; [congruence | exact (IH Hin)].
Qed.

Lemma remove_first_other (e x : nat) (l : list nat) :
  x ≠ e → x ∈ l → x ∈ remove_first e l.
Proof.
  intros Hne. induction l as [|a l IH]; simpl; [done |].
  intros Hin. case_bool_decide as Hae.
  - apply elem_of_cons in Hin as [-> | Hin]; [congruence | exact Hin].
  - apply elem_of_cons in Hin as [-> | Hin]; [left | right; exact (IH Hin)].
Qed.

Lemma children_remove (s : store) (p e q : nat) :
  children_of (remove s p e) q =
  if decide (q = p) then remove_first e (children_of s p) else children_of s q.
Proof.
  unfold remove, set_parent, set_children, children_of.
  rewrite (field_alter n_children) by reflexivity.
  destruct (decide (q = p)) as [-> | Hne].
  - destruct (decide (p < length s)) as [Hlt | Hge].
    + rewrite get_alter_eq by exact Hlt. reflexivity.
    + unfold get. rewrite list_lookup_alter. rewrite lookup_ge_None_2 by lia.
      destruct (decide (p = p)); reflexivity.
  - rewrite get_alter_ne by exact Hne. reflexivity.
Qed.

Lemma parent_remove (s : store) (p e x : nat) :
  getparent (remove s p e) x =
  if decide (x = e) then (if decide (e < length s) then None else getparent s e)
  else getparent s x.
Proof.
  unfold remove, set_parent, set_children, getparent.
  destruct (decide (x = e)) as [-> | Hne].
  - destruct (decide (e < length s)) as [Hlt | Hge].
    + rewrite get_alter_eq by (rewrite length_alter; exact Hlt). reflexivity.
    + unfold get at 1. rewrite list_lookup_alter.
      rewrite lookup_ge_None_2 by (rewrite length_alter; lia).
      rewrite get_out by lia. destruct (decide (e = e)); reflexivity.
  - rewrite get_alter_ne by exact Hne.
    rewrite (field_alter n_parent) by reflexivity. reflexivity.
Qed.

Lemma parent_in_range (s : store) (e p : nat) : getparent s e = Some p → e < length s.
Proof.
  intros Hp. destruct (decide (e < length s)) as [Hlt | Hge]; [exact Hlt |].
  unfold getparent in Hp. rewrite get_out in Hp by lia. discriminate.
Qed.

Lemma wf_remove (s : store) (p e : nat) :
  wf s → getparent s e = Some p → wf (remove s p e).
Proof.
  intros (Hnd & Hch & Hpar) Hp.
  pose proof (parent_in_range _ _ _ Hp) as Hlt.
  split_and!.
  - intros q. rewrite children_remove. case_decide; [| apply Hnd].
    apply remove_first_NoDup, Hnd.
  - intros q x Hin. rewrite children_remove in Hin.
    assert (Hlen : length (remove s p e) = length s)
      by (unfold remove, set_parent, set_children; rewrite !length_alter; reflexivity).
    rewrite Hlen, parent_remove.
    destruct (decide (q = p)) as [-> | Hqp].
    + assert (x ≠ e) by (intros ->; exact (remove_first_gone e _ (Hnd p) Hin)).
      rewrite decide_False by assumption.
      apply Hch. eapply remove_first_subseteq, Hin.
    + destruct (Hch q x Hin) as [Hx Hxl].
      assert (x ≠ e) by (intros ->; rewrite Hp in Hx; congruence).
      rewrite decide_False by assumption. split; assumption.
  - intros x q Hx. rewrite parent_remove in Hx. rewrite children_remove.
    destruct (decide (x = e)) as [-> | Hne].
    + rewrite decide_True in Hx by exact Hlt. discriminate.
    + pose proof (Hpar x q Hx) as Hin.
      case_decide; [subst; apply remove_first_other; assumption | exact Hin].
Qed.

(** Updates of tag, attributes, text or tail keep the links. *)
Lemma wf_alter (f : node → node) (s : store) (e : nat) :
  (∀ n, n_parent (f n) = n_parent n) → (∀ n, n_children (f n) = n_children n) →
  wf s → wf (alter f e s).
Proof.
  intros Hfp Hfc (Hnd & Hch & Hpar).
  assert (Hc : ∀ q, children_of (alter f e s) q = children_of s q)
    by (intros q; apply (field_alter n_children); exact Hfc).
  assert (Hp : ∀ q, getparent (alter f e s) q = getparent s q)
    by (intros q; apply (field_alter n_parent); exact Hfp).
  split_and!.
  - intros q. rewrite Hc. apply Hnd.
  - intros q x. rewrite Hc, Hp, length_alter. apply Hch.
  - intros x q. rewrite Hc, Hp. apply Hpar.
Qed.

End StoreFacts.

(** ** The arbiter's decision table *)

Section ArbiterDecision.
Context `{Utils} `{Settings} `{HtmlProcessing} `{Readability} `{Justext}.
Import Lxml Etree External Arbiter.

Lemma choose_arm_cases (len_text len_algo : Z) (p_text : list string) :
  match choose_arm len_text len_algo p_text with
  | Arm1 => len_algo = 0 ∨ len_algo = len_text
  | Arm2 => ¬ (len_algo = 0 ∨ len_algo = len_text) ∧ len_text = 0 ∧ len_algo > 0
  | Arm3 => ¬ (len_algo = 0 ∨ len_algo = len_text) ∧ ¬ (len_text = 0 ∧ len_algo > 0)
            ∧ len_text > 2 * len_algo
  | Arm4 => ¬ (len_algo = 0 ∨ len_algo = len_text) ∧ ¬ (len_text = 0 ∧ len_algo > 0)
            ∧ ¬ len_text > 2 * len_algo ∧ len_algo > 2 * len_text
  | Arm5 => ¬ (len_algo = 0 ∨ len_algo = len_text) ∧ ¬ (len_text = 0 ∧ len_algo > 0)
            ∧ ¬ len_text > 2 * len_algo ∧ ¬ len_algo > 2 * len_text
            ∧ p_text = [] ∧ len_algo > MIN_EXTRACTED_SIZE
  | Arm6 => ¬ (len_algo = 0 ∨ len_algo = len_text) ∧ ¬ (len_text = 0 ∧ len_algo > 0)
            ∧ ¬ len_text > 2 * len_algo ∧ ¬ len_algo > 2 * len_text
            ∧ ¬ (p_text = [] ∧ len_algo > MIN_EXTRACTED_SIZE)
  end%Z.
Proof.
  unfold choose_arm.
  repeat (case_bool_decide; simpl); try tauto; try lia.
  all: destruct p_text; simpl in *; intuition (try congruence; try lia).
Qed.

(** [compare_extraction] is its first step followed by the second, run
    on what the flag chooses. *)
Lemma compare_extraction_steps (s : store) (tree backup_tree : nat) (url : option string)
    (body : nat) (text : string) (len_text : Z) (target_language : option string)
    (include_formatting : bool) (s1 : store) (temppost_algo : nat) :
  try_readability s backup_tree url = Ok (s1, temppost_algo) →
  let algo_text := trim (join " " (itertext s1 temppost_algo)) in
  let len_algo := py_len algo_text in
  compare_extraction s tree backup_tree url body text len_text target_language
                     include_formatting =
  if algo_flag len_text len_algo (xpath_p_text s1 body)
  then second_step s1 tree target_language include_formatting true
                   temppost_algo algo_text len_algo
  else second_step s1 tree target_language include_formatting false body text len_text.
Proof.
  intros Hread algo_text len_algo. unfold compare_extraction. rewrite Hread.
  fold algo_text. fold len_algo.
  destruct (algo_flag len_text len_algo (xpath_p_text s1 body)); reflexivity.
Qed.

(** C1. Step 1 of [compare_extraction] evaluates its conditions in the
    order of the specification and exactly one arm applies: arm [k] is
    taken if and only if its condition holds and the conditions of all
    earlier arms fail.  Under arms 1, 3 and 6 the custom extraction is
    kept: the rest of [compare_extraction] runs on the body, the text
    and the length it was given.  Under arms 2, 4 and 5 the generic one
    is used: the rest runs on the tree of readability, its text and its
    length.  When nothing more is to be done (no unwanted element, a
    text of the minimum size) a custom extraction is returned as it is
    and a generic one is returned sanitised.  For a custom text of 50
    characters and a generic text of 40 the default arm keeps the custom
    extraction, for every body, as soon as the minimum extracted size is
    at least 40. *)
Theorem step1_decision (s : store) (tree backup_tree : nat) (url : option string)
    (body : nat) (text : string) (len_text : Z) (target_language : option string)
    (include_formatting : bool) (s1 : store) (temppost_algo : nat) :
  try_readability s backup_tree url = Ok (s1, temppost_algo) →
  let algo_text := trim (join " " (itertext s1 temppost_algo)) in
  let len_algo := py_len algo_text in
  let p_text := xpath_p_text s1 body in
  let a := choose_arm len_text len_algo p_text in
  let c1 := (len_algo = 0 ∨ len_algo = len_text)%Z in
  let c2 := (len_text = 0 ∧ len_algo > 0)%Z in
  let c3 := (len_text > 2 * len_algo)%Z in
  let c4 := (len_algo > 2 * len_text)%Z in
  let c5 := (p_text = [] ∧ len_algo > MIN_EXTRACTED_SIZE)%Z in
  let run := compare_extraction s tree backup_tree url body text len_text target_language
                                include_formatting in
  let custom := second_step s1 tree target_language include_formatting false
                            body text len_text in
  let generic := second_step s1 tree target_language include_formatting true
                             temppost_algo algo_text len_algo in
  (a = Arm1 ↔ c1) ∧
  (a = Arm2 ↔ ¬ c1 ∧ c2) ∧
  (a = Arm3 ↔ ¬ c1 ∧ ¬ c2 ∧ c3) ∧
  (a = Arm4 ↔ ¬ c1 ∧ ¬ c2 ∧ ¬ c3 ∧ c4) ∧
  (a = Arm5 ↔ ¬ c1 ∧ ¬ c2 ∧ ¬ c3 ∧ ¬ c4 ∧ c5) ∧
  (a = Arm6 ↔ ¬ c1 ∧ ¬ c2 ∧ ¬ c3 ∧ ¬ c4 ∧ ¬ c5) ∧
  (algo_flag len_text len_algo p_text = false ↔ a = Arm1 ∨ a = Arm3 ∨ a = Arm6) ∧
  (algo_flag len_text len_algo p_text = true ↔ a = Arm2 ∨ a = Arm4 ∨ a = Arm5) ∧
  (a = Arm1 ∨ a = Arm3 ∨ a = Arm6 → run = custom) ∧
  (a = Arm2 ∨ a = Arm4 ∨ a = Arm5 → run = generic) ∧
  (xpath_sanitized s1 body = [] → (MIN_EXTRACTED_SIZE ≤ len_text)%Z →
   custom = Ok (s1, (body, text, len_text))) ∧
  (xpath_sanitized s1 temppost_algo = [] → (MIN_EXTRACTED_SIZE ≤ len_algo)%Z →
   generic = sanitize_tree s1 temppost_algo include_formatting) ∧
  (len_text = 50%Z → len_algo = 40%Z → (40 ≤ MIN_EXTRACTED_SIZE)%Z →
   a = Arm6 ∧ run = custom).
Proof.
  intros Hread algo_text len_algo p_text a c1 c2 c3 c4 c5 run custom generic.
  pose proof (choose_arm_cases len_text len_algo p_text) as Hc.
  pose proof (compare_extraction_steps s tree backup_tree url body text len_text
                target_language include_formatting s1 temppost_algo Hread) as Hrun.
  cbv zeta in Hrun. fold algo_text len_algo p_text run custom generic in Hrun.
  unfold algo_flag in *. fold a in Hc, Hrun |- *. subst c1 c2 c3 c4 c5.
  assert (Hkeep : a = Arm1 ∨ a = Arm3 ∨ a = Arm6 → run = custom).
  { intros [Ha | [Ha | Ha]]; rewrite Ha in Hrun; exact Hrun. }
  split_and!.
  1-6: split; [intros Ha; rewrite Ha in Hc; exact Hc |
               intros Hk; destruct a; try reflexivity; exfalso; tauto].
  - destruct a; simpl; intuition discriminate.
  - destruct a; simpl; intuition discriminate.
  - exact Hkeep.
  - intros [Ha | [Ha | Ha]]; rewrite Ha in Hrun; exact Hrun.
  - intros Hclean Hlen. unfold custom, second_step. rewrite Hclean.
    rewrite bool_decide_eq_false_2 by lia. reflexivity.
  - intros Hclean Hlen. unfold generic, second_step. rewrite Hclean.
    rewrite bool_decide_eq_false_2 by lia. reflexivity.
  - intros H50 H40 Hmin.
    assert (Ha : a = Arm6).
    { destruct a; try reflexivity; exfalso; lia. }
    split; [exact Ha |]. apply Hkeep. right. right. exact Ha.
Qed.

End ArbiterDecision.

(** The scenario of C1 at the thresholds of the upstream package: a
    custom body with a text of 50 characters, a readability that returns
    40.  The default arm is taken and the rest of the function runs on
    the custom body, which it returns with its own text. *)
Lemma step1_decision_witness :
  let run := @Arbiter.compare_extraction Sample.utils Sample.settings Sample.htmlprocessing
               Sample.readability_forty Sample.justext_value_error
               Sample.body_with_p 0 0 None 0 Sample.fifty 50 None false in
  @External.try_readability Sample.readability_forty Sample.body_with_p 0 None
    = Ok (Lxml.set_text (Lxml.Element Sample.body_with_p "div").1 2 (Some Sample.forty), 2) ∧
  py_len Sample.fifty = 50%Z ∧ py_len Sample.forty = 40%Z ∧
  (40 ≤ @MIN_EXTRACTED_SIZE Sample.settings)%Z ∧
  run = @Arbiter.second_step Sample.utils Sample.settings Sample.htmlprocessing
          Sample.justext_value_error
          (Lxml.set_text (Lxml.Element Sample.body_with_p "div").1 2 (Some Sample.forty))
          0 None false false 0 Sample.fifty 50 ∧
  ∃ s', run = Ok (s', (0, "text", 4%Z)).
Proof.
  assert (Hread : @External.try_readability Sample.readability_forty Sample.body_with_p 0 None
                  = Ok (Lxml.set_text (Lxml.Element Sample.body_with_p "div").1 2
                                      (Some Sample.forty), 2)) by reflexivity.
  assert (Hmin : (40 ≤ @MIN_EXTRACTED_SIZE Sample.settings)%Z) by (simpl; lia).
  pose proof (@step1_decision Sample.utils Sample.settings Sample.htmlprocessing
                Sample.readability_forty Sample.justext_value_error
                Sample.body_with_p 0 0 None 0 Sample.fifty 50 None false _ _ Hread) as Hd.
  cbv zeta in Hd.
  destruct Hd as (_ & _ & _ & _ & _ & _ & _ & _ & _ & _ & _ & _ & Hs).
  destruct (Hs eq_refl ltac:(vm_compute; reflexivity) Hmin) as [_ Hrun].
  split; [exact Hread |]. split; [reflexivity |]. split; [reflexivity |].
  split; [exact Hmin |]. split; [exact Hrun |].
  eexists. vm_compute. reflexivity.
Defined.


(** ** Events of a run *)

(** A computation that signals nothing. *)
Definition quiet {A} (m : M A) : Prop := ∀ w, trace (m w).1 = trace w.

(** A computation whose events are appended to the trace, and in which
    a discard is the last event and comes with a ValueError. *)
Definition orderly {A} (m : M A) : Prop :=
  ∀ w, ∃ evs, trace (m w).1 = trace w ++ evs ∧
    ∀ why, Discard why ∈ evs → (m w).2 = Raise ValueError ∧ last evs = Some (Discard why).

Section Events.

Lemma quiet_orderly {A} (m : M A) : quiet m → orderly m.
Proof.
  intros Hq w. exists []. rewrite app_nil_r. split; [apply Hq |].
  intros why Hin. inversion Hin.
Qed.

Lemma quiet_ret {A} (a : A) : quiet (mret a).
Proof. intros w. reflexivity. Qed.

Lemma quiet_raise {A} (x : exn) : quiet (@raise A x).
Proof. intros w. reflexivity. Qed.

Lemma quiet_get_trees : quiet get_trees.
Proof. intros w. reflexivity. Qed.

Lemma quiet_get_world : quiet get_world.
Proof. intros w. reflexivity. Qed.

Lemma quiet_on_trees {A} (f : Lxml.store → Lxml.store * A) : quiet (on_trees f).
Proof. intros w. unfold on_trees. destruct (f (trees w)). reflexivity. Qed.

Lemma quiet_on_trees_r {A} (f : Lxml.store → result (Lxml.store * A)) :
  quiet (on_trees_r f).
Proof. intros w. unfold on_trees_r. destruct (f (trees w)) as [[? ?]|]; reflexivity. Qed.

Lemma quiet_new_dict (d : dict) : quiet (new_dict d).
Proof. intros w. reflexivity. Qed.

Lemma quiet_dict_get (r : nat) (k : string) : quiet (dict_get r k).
Proof. intros w. unfold dict_get. destruct (the_dict w r !! k); reflexivity. Qed.

Lemma quiet_dict_set (r : nat) (k : string) (v : pyval) : quiet (dict_set r k v).
Proof. intros w. reflexivity. Qed.

Lemma quiet_dict_pop (r : nat) (k : string) : quiet (dict_pop r k).
Proof. intros w. unfold dict_pop. destruct (the_dict w r !! k); reflexivity. Qed.

Lemma quiet_py_join (sep : string) (v : pyval) : quiet (py_join sep v).
Proof. intros w. destruct v; reflexivity. Qed.

Lemma quiet_bind {A B} (m : M A) (f : A → M B) :
  quiet m → (∀ a, quiet (f a)) → quiet (m ≫= f).
Proof.
  intros Hm Hf w. unfold mbind, M_bind. specialize (Hm w).
  destruct (m w) as [w1 [a|x]]; simpl in *; [| exact Hm].
  rewrite Hf. exact Hm.
Qed.

Lemma orderly_emit_call (name : string) : orderly (emit (Call name)).
Proof.
  intros w. exists [Call name]. split; [reflexivity |].
  intros why Hin. apply list_elem_of_singleton in Hin. discriminate.
Qed.

Lemma orderly_discard {A} (why : reason) : orderly (@discard A why).
Proof.
  intros w. exists [Discard why]. split; [reflexivity |].
  intros why' Hin. apply list_elem_of_singleton in Hin. inversion Hin. subst.
  split; reflexivity.
Qed.

Lemma orderly_bind {A B} (m : M A) (f : A → M B) :
  orderly m → (∀ a, orderly (f a)) → orderly (m ≫= f).
Proof.
  intros Hm Hf w. unfold mbind, M_bind.
  destruct (Hm w) as (e1 & Ht1 & Hd1).
  destruct (m w) as [w1 [a|x]] eqn:Hmw; simpl in *.
  - destruct (Hf a w1) as (e2 & Ht2 & Hd2).
    exists (e1 ++ e2). rewrite Ht2, Ht1, app_assoc. split; [reflexivity |].
    intros why Hin. apply elem_of_app in Hin as [Hin | Hin].
    + destruct (Hd1 why Hin) as [Hr _]. discriminate.
    + destruct (Hd2 why Hin) as [Hr Hl]. split; [exact Hr |].
      destruct e2 as [|ev e2']; [inversion Hin |].
      rewrite last_app. rewrite Hl. reflexivity.
  - exists e1. split; [exact Ht1 |].
    intros why Hin. destruct (Hd1 why Hin) as [Hr Hl].
    inversion Hr. subst. split; [reflexivity | exact Hl].
Qed.

(** A computation that signals no discard. *)
Definition discard_free {A} (m : M A) : Prop :=
  ∀ w, ∃ evs, trace (m w).1 = trace w ++ evs ∧ ∀ why, Discard why ∉ evs.

Lemma quiet_discard_free {A} (m : M A) : quiet m → discard_free m.
Proof.
  intros Hq w. exists []. rewrite app_nil_r. split; [apply Hq |].
  intros why Hin. inversion Hin.
Qed.

Lemma discard_free_emit_call (name : string) : discard_free (emit (Call name)).
Proof.
  intros w. exists [Call name]. split; [reflexivity |].
  intros why Hin. apply list_elem_of_singleton in Hin. discriminate.
Qed.

Lemma discard_free_bind {A B} (m : M A) (f : A → M B) :
  discard_free m → (∀ a, discard_free (f a)) → discard_free (m ≫= f).
Proof.
  intros Hm Hf w. unfold mbind, M_bind.
  destruct (Hm w) as (e1 & Ht1 & Hd1).
  destruct (m w) as [w1 [a|x]]; simpl in *.
  - destruct (Hf a w1) as (e2 & Ht2 & Hd2).
    exists (e1 ++ e2). rewrite Ht2, Ht1, app_assoc. split; [reflexivity |].
    intros why Hin. apply elem_of_app in Hin as [Hin | Hin]; [eapply Hd1 | eapply Hd2]; eauto.
  - exists e1. split; [exact Ht1 | exact Hd1].
Qed.

End Events.

(** Splits a computation into its steps, for the three disciplines. *)
Ltac quiet_tac :=
  repeat first
    [ apply quiet_ret | apply quiet_raise | apply quiet_get_trees | apply quiet_get_world
    | apply quiet_on_trees | apply quiet_on_trees_r | apply quiet_new_dict
    | apply quiet_dict_get | apply quiet_dict_set | apply quiet_dict_pop
    | apply quiet_py_join
    | apply quiet_bind; [| intros ?]
    | match goal with
      | |- quiet (match ?x with _ => _ end) => destruct x
      | |- quiet (if ?b then _ else _) => destruct b
      end ].

Ltac orderly_tac :=
  repeat first
    [ apply orderly_emit_call | apply orderly_discard
    | apply orderly_bind; [| intros ?]
    | match goal with
      | |- orderly (match ?x with _ => _ end) => destruct x
      | |- orderly (if ?b then _ else _) => destruct b
      end
    | (apply quiet_orderly; solve [quiet_tac]) ].

Ltac discard_free_tac :=
  repeat first
    [ apply discard_free_emit_call
    | apply discard_free_bind; [| intros ?]
    | match goal with
      | |- discard_free (match ?x with _ => _ end) => destruct x
      | |- discard_free (if ?b then _ else _) => destruct b
      end
    | (apply quiet_discard_free; solve [quiet_tac]) ].

(** ** The orchestrator *)

Section Orchestrator.
Context `{Utils} `{Settings} `{HtmlProcessing} `{XPaths} `{Filters} `{Handlers}
        `{Readability} `{Justext} `{Metadata} `{PyLib} `{Outputs}.
Import Lxml Etree Pipeline.

(** Unfolds the plumbing of the state and exception monad. *)
Ltac run :=
  unfold conclude, except_value_error, discard, emit, raise, get_trees, get_world,
         on_trees, on_trees_r, new_dict, dict_get, dict_set, dict_pop,
         mbind, M_bind, mret, M_ret in *;
  simpl in *.

Lemma tree_size_check_run (m : option Z) (postbody : nat) (w : world) :
  tree_size_check m postbody w =
  match m with
  | None => (w, Ok ())
  | Some k =>
      if bool_decide (Z.of_nat (len (trees w) postbody) > k)%Z then
        let stripped := strip_tags (trees w) postbody ["hi"] in
        if bool_decide (Z.of_nat (len stripped postbody) > k)%Z
        then (mk_world stripped (dicts w)
                       ((trace w ++ [Call "strip_tags"]) ++ [Discard Oversized]),
              Raise ValueError)
        else (mk_world stripped (dicts w) (trace w ++ [Call "strip_tags"]), Ok ())
      else (w, Ok ())
  end.
Proof.
  unfold tree_size_check. destruct m as [k|]; [| reflexivity].
  run. case_bool_decide; [| reflexivity].
  simpl. case_bool_decide; reflexivity.
Qed.


Lemma orderly_extraction_steps (filecontent : string) (o : options) (fmt : format) :
  orderly (extraction_steps filecontent o fmt).
Proof.
  unfold extraction_steps, before_checks, load_step, backup_step, metadata_step,
         harvest_step, tree_size_check, after_cap, size_check, duplicate_check,
         language_check.
  orderly_tac.
Qed.

Lemma quiet_determine_returnstring (docmeta postbody : nat) (commentsbody : option nat)
    (fmt : format) (tei_validation : bool) :
  quiet (Output.determine_returnstring docmeta postbody commentsbody fmt tei_validation).
Proof.
  unfold Output.determine_returnstring, Output.build_json_output. quiet_tac.
Qed.


Lemma the_dict_new (s : store) (ds : list dict) (d : dict) (tr : list event) :
  the_dict (mk_world s (ds ++ [d]) tr) (length ds) = d.
Proof.
  unfold the_dict. simpl. rewrite lookup_app_r by lia.
  rewrite Nat.sub_diag. reflexivity.
Qed.

(** What [conclude] makes of the result of the [try] block. *)
Lemma conclude_run (m : M (nat * string * nat * option nat)) (w : world) :
  conclude m w =
  match m w with
  | (w1, Ok (docmeta, temp_text, postbody, commentsbody)) =>
      (w1, Ok (Some docmeta, Some temp_text, Some postbody, commentsbody))
  | (w1, Raise ValueError) => (w1, Ok nothing)
  | (w1, Raise x) => (w1, Raise x)
  end.
Proof.
  unfold conclude, except_value_error, mbind, M_bind.
  destruct (m w) as [w1 [[[[? ?] ?] ?]|x]]; [reflexivity |].
  destruct x; reflexivity.
Qed.

(** A step that raises ends the [try] block. *)
Lemma bind_raise {A B} (m : M A) (f : A → M B) (w w1 : world) (x : exn) :
  m w = (w1, Raise x) → (m ≫= f) w = (w1, Raise x).
Proof. intros Hm. unfold mbind, M_bind. rewrite Hm. reflexivity. Qed.

Lemma bind_ok {A B} (m : M A) (f : A → M B) (w w1 : world) (a : A) :
  m w = (w1, Ok a) → (m ≫= f) w = f a w1.
Proof. intros Hm. unfold mbind, M_bind. rewrite Hm. reflexivity. Qed.

Lemma bare_extraction_events (filecontent : string) (o : options) (fmt : format) (w : world) :
  ∃ evs, trace (bare_extraction filecontent o fmt w).1 = trace w ++ evs ∧
    ∀ why, Discard why ∈ evs →
      (bare_extraction filecontent o fmt w).2 = Ok nothing ∧
      last evs = Some (Discard why).
Proof.
  destruct (orderly_extraction_steps filecontent o fmt w) as (evs & Ht & Hd).
  exists evs. unfold bare_extraction. rewrite conclude_run.
  destruct (extraction_steps filecontent o fmt w) as [w1 [[[[? ?] ?] ?]|x]]; simpl in *.
  - split; [exact Ht |]. intros why Hin. destruct (Hd why Hin). discriminate.
  - split; [destruct x; exact Ht |]. intros why Hin. destruct (Hd why Hin) as [Hr Hl].
    inversion Hr. subst. split; [reflexivity | exact Hl].
Qed.

(** C2. Every discard of [bare_extraction] has one outcome.  Whenever a
    discard is signalled, [bare_extraction] returns four times None,
    [extract] returns None, and the discard is the last event of the
    run: no later step, and no serialisation, takes place.  Each of the
    seven conditions signals its discard at its step, once the steps
    before it have run: unparsable input; blacklisted extracted URL;
    date, title or url missing under [with_metadata]; a tree over the
    cap before and after stripping; text and comments both under their
    minimum sizes; a detected duplicate; a rejection by the language
    filter. *)
Theorem discard_uniform (filecontent : string) (o : options) (fmt : format) (w : world)
    (record_id : pyval) (csv_output json_output xml_output tei_output tei_validation : bool) :
  let run_extract fmt0 :=
    extract filecontent o record_id fmt0 csv_output json_output xml_output tei_output
            tei_validation w in
  (∃ evs, trace (bare_extraction filecontent o fmt w).1 = trace w ++ evs ∧
     ∀ why, Discard why ∈ evs →
       (bare_extraction filecontent o fmt w).2 = Ok nothing ∧
       last evs = Some (Discard why)) ∧
  (∃ evs, trace (run_extract fmt).1 = trace w ++ evs ∧
     ∀ why, Discard why ∈ evs →
       (run_extract fmt).2 = Ok None ∧ last evs = Some (Discard why)) ∧
  (∀ w1, bare_extraction filecontent o fmt w = (w1, Ok nothing) →
     ∀ fmt0, Output.map_format fmt0 csv_output json_output xml_output tei_output = fmt →
     run_extract fmt0 = (w1, Ok None)) ∧
  (* unparsable input *)
  ((load_html (trees w) filecontent).2 = None →
   bare_extraction filecontent o fmt w =
     (mk_world (load_html (trees w) filecontent).1 (dicts w)
               ((trace w ++ [Call "load_html"]) ++ [Discard Unparsable]),
      Ok nothing)) ∧
  (∀ w1 w2 tree backup_tree,
     load_step filecontent w = (w1, Ok tree) →
     backup_step (no_fallback o) tree w1 = (w2, Ok backup_tree) →
     fmt ≠ Txt →
     let d := extract_metadata (trees w2) tree (url o) (date_extraction_params o) in
     let w3 why := mk_world (trees w2) (dicts w2 ++ [d])
                     ((trace w2 ++ [Call "extract_metadata"]) ++ [Discard why]) in
     (* blacklisted extracted URL *)
     (∀ u, d !! "url" = Some (PStr u) → u ∈ url_blacklist o →
        bare_extraction filecontent o fmt w = (w3 Blacklisted, Ok nothing)) ∧
     (* missing metadata in strict mode *)
     (∀ vd vt vu, d !! "date" = Some vd → d !! "title" = Some vt → d !! "url" = Some vu →
        blacklisted vu (url_blacklist o) = false → with_metadata o = true →
        PNone ∈ [vd; vt; vu] →
        bare_extraction filecontent o fmt w = (w3 MissingMetadata, Ok nothing))) ∧
  (∀ w0 docmeta h,
     before_checks filecontent o fmt w = (w0, Ok (docmeta, h)) →
     let postbody := h_postbody h in
     (* over the cap, before and after stripping *)
     (∀ k, max_tree_size o = Some k →
        (Z.of_nat (len (trees w0) postbody) > k)%Z →
        (Z.of_nat (len (strip_tags (trees w0) postbody ["hi"]) postbody) > k)%Z →
        bare_extraction filecontent o fmt w =
          (mk_world (strip_tags (trees w0) postbody ["hi"]) (dicts w0)
                    ((trace w0 ++ [Call "strip_tags"]) ++ [Discard Oversized]),
           Ok nothing)) ∧
     (∀ w1, tree_size_check (max_tree_size o) postbody w0 = (w1, Ok ()) →
        (* text and comments both too short *)
        ((h_len_text h < MIN_OUTPUT_SIZE)%Z → (h_len_comments h < MIN_OUTPUT_COMM_SIZE)%Z →
         bare_extraction filecontent o fmt w =
           (mk_world (trees w1) (dicts w1) (trace w1 ++ [Discard Undersized]), Ok nothing)) ∧
        (¬ ((h_len_text h < MIN_OUTPUT_SIZE)%Z ∧ (h_len_comments h < MIN_OUTPUT_COMM_SIZE)%Z) →
         (* duplicate *)
         (deduplicate o = true → duplicate_test (trees w1) postbody = true →
          bare_extraction filecontent o fmt w =
            (mk_world (trees w1) (dicts w1)
                      ((trace w1 ++ [Call "duplicate_test"]) ++ [Discard Duplicate]),
             Ok nothing)) ∧
         (* language *)
         (∀ w2 lang, duplicate_check (deduplicate o) postbody w1 = (w2, Ok ()) →
            target_language o = Some lang →
            language_filter (h_temp_text h) (h_temp_comments h) lang (the_dict w2 docmeta)
              = true →
            bare_extraction filecontent o fmt w =
              (mk_world (trees w2) (dicts w2)
                        ((trace w2 ++ [Call "language_filter"]) ++ [Discard WrongLanguage]),
               Ok nothing))))).
Proof.
  intros run_extract. split_and!.
  - apply bare_extraction_events.
  - subst run_extract. simpl. unfold extract.
    set (fmt' := Output.map_format fmt csv_output json_output xml_output tei_output).
    destruct (bare_extraction_events filecontent o fmt' w) as (e1 & Ht1 & Hd1).
    destruct (bare_extraction filecontent o fmt' w) as [w1 [r|x]] eqn:Hb;
      [rewrite (bind_ok _ _ _ _ _ Hb) | rewrite (bind_raise _ _ _ _ _ Hb)]; simpl in *.
    + destruct r as [[[[docmeta|] [temp_text|]] [postbody|]] commentsbody];
        try (exists e1; split; [exact Ht1 |]; intros why Hin;
             destruct (Hd1 why Hin) as [Hr Hl];
             first [discriminate Hr | split; [reflexivity | exact Hl]]).
      match goal with
      | |- context [?m w1] =>
          assert (Hfree : discard_free m)
            by (discard_free_tac; apply quiet_discard_free, quiet_determine_returnstring);
          destruct (Hfree w1) as (e2 & Ht2 & Hd2)
      end.
      exists (e1 ++ e2). rewrite Ht2, Ht1, app_assoc. split; [reflexivity |].
      intros why Hin. apply elem_of_app in Hin as [Hin | Hin].
      * destruct (Hd1 why Hin) as [Hr _]. inversion Hr.
      * destruct (Hd2 why Hin).
    + exists e1. split; [exact Ht1 |]. intros why Hin.
      destruct (Hd1 why Hin) as [Hr _]. inversion Hr.
  - intros w1 Hb fmt0 Hfmt. subst run_extract. simpl. unfold extract.
    rewrite Hfmt. erewrite bind_ok by exact Hb. reflexivity.
  - intros Hnone. unfold bare_extraction. rewrite conclude_run.
    unfold extraction_steps, before_checks, load_step.
    unfold mbind, M_bind, emit, on_trees, discard. simpl.
    destruct (load_html (trees w) filecontent) as [s1 [tree|]]; simpl in *; [discriminate |].
    reflexivity.
  - intros w1 w2 tree backup_tree Hload Hbackup Hfmt d w3. split.
    + intros u Hurl Hin. unfold bare_extraction. rewrite conclude_run.
      unfold extraction_steps, before_checks.
      erewrite (bind_raise _ _ _ _ ValueError); [reflexivity |].
      erewrite bind_ok by exact Hload. erewrite bind_ok by exact Hbackup.
      apply bind_raise. unfold metadata_step.
      rewrite bool_decide_eq_true_2 by exact Hfmt.
      unfold mbind, M_bind, emit, get_trees, new_dict, dict_get, discard. simpl.
      fold d. rewrite !the_dict_new. rewrite Hurl. simpl.
      rewrite bool_decide_eq_true_2 by exact Hin. reflexivity.
    + intros vd vt vu Hd Ht Hu Hblack Hwith Hmissing.
      unfold bare_extraction. rewrite conclude_run.
      unfold extraction_steps, before_checks.
      erewrite (bind_raise _ _ _ _ ValueError); [reflexivity |].
      erewrite bind_ok by exact Hload. erewrite bind_ok by exact Hbackup.
      apply bind_raise. unfold metadata_step.
      rewrite bool_decide_eq_true_2 by exact Hfmt.
      unfold mbind, M_bind, emit, get_trees, new_dict, dict_get, discard. simpl.
      fold d. rewrite !the_dict_new. rewrite Hu. simpl. rewrite Hblack, Hwith.
      rewrite !the_dict_new. rewrite Hd. rewrite !the_dict_new. rewrite Ht.
      rewrite !the_dict_new. rewrite Hu.
      rewrite bool_decide_eq_true_2 by exact Hmissing. reflexivity.
  - intros w0 docmeta h Hbefore postbody. split.
    + intros k Hk Hgt Hgt'. unfold bare_extraction. rewrite conclude_run.
      unfold extraction_steps. erewrite bind_ok by exact Hbefore. cbv beta iota.
      erewrite (bind_raise _ _ _ _ ValueError); [reflexivity |].
      rewrite tree_size_check_run. rewrite Hk.
      rewrite bool_decide_eq_true_2 by exact Hgt. simpl.
      rewrite bool_decide_eq_true_2 by exact Hgt'. reflexivity.
    + intros w1 Hcap. split.
      * intros Htext Hcomm. unfold bare_extraction. rewrite conclude_run.
        unfold extraction_steps. erewrite bind_ok by exact Hbefore. cbv beta iota.
        erewrite bind_ok by exact Hcap.
        unfold after_cap. erewrite (bind_raise _ _ _ _ ValueError); [reflexivity |].
        unfold size_check.
        rewrite !bool_decide_eq_true_2 by assumption. reflexivity.
      * intros Hsize. assert (Hsz : size_check (h_len_text h) (h_len_comments h) w1 = (w1, Ok ())).
        { unfold size_check. case_bool_decide; case_bool_decide; simpl; try reflexivity.
          exfalso. apply Hsize. split; assumption. }
        split.
        -- intros Hdedup Hdup. unfold bare_extraction. rewrite conclude_run.
           unfold extraction_steps. erewrite bind_ok by exact Hbefore. cbv beta iota.
           erewrite bind_ok by exact Hcap.
           unfold after_cap. erewrite bind_ok by exact Hsz.
           erewrite (bind_raise _ _ _ _ ValueError); [reflexivity |].
           unfold duplicate_check. rewrite Hdedup.
           unfold mbind, M_bind, emit, get_trees, discard. simpl.
           fold postbody. rewrite Hdup. reflexivity.
        -- intros w2 lang Hdupcheck Hlang Hfilter. unfold bare_extraction. rewrite conclude_run.
           unfold extraction_steps. erewrite bind_ok by exact Hbefore. cbv beta iota.
           erewrite bind_ok by exact Hcap.
           unfold after_cap. erewrite bind_ok by exact Hsz.
           erewrite bind_ok by exact Hdupcheck.
           erewrite (bind_raise _ _ _ _ ValueError); [reflexivity |].
           unfold language_check. rewrite Hlang.
           unfold mbind, M_bind, emit, get_world, discard, the_dict in *. simpl.
           rewrite Hfilter. reflexivity.
Qed.

End Orchestrator.

(** C2 on the samples: the empty input is unparsable, and the article
    page is over a cap of zero; both runs return four times None, and
    [extract] returns None. *)
Lemma discard_uniform_witness :
  (@load_html Sample.pylib (trees Sample.start) "").2 = None ∧
  (@Pipeline.bare_extraction Sample.utils Sample.settings Sample.htmlprocessing Sample.xpaths
     Sample.filters Sample.handlers Sample.readability_unparseable Sample.justext_value_error
     Sample.metadata Sample.pylib Sample.outputs "" Sample.strict Txt Sample.start).2
  = Ok Pipeline.nothing ∧
  (@Pipeline.extract Sample.utils Sample.settings Sample.htmlprocessing Sample.xpaths
     Sample.filters Sample.handlers Sample.readability_unparseable Sample.justext_value_error
     Sample.metadata Sample.pylib Sample.outputs "" Sample.strict PNone Txt
     false false false false false Sample.start).2
  = Ok None ∧
  (@Pipeline.bare_extraction Sample.utils Sample.settings Sample.htmlprocessing Sample.xpaths
     Sample.filters Sample.handlers Sample.readability_unparseable Sample.justext_value_error
     Sample.metadata Sample.pylib Sample.outputs "article" Sample.strict Txt Sample.start).2
  = Ok Pipeline.nothing.
Proof.
  assert (Hn : (@load_html Sample.pylib (trees Sample.start) "").2 = None) by reflexivity.
  destruct (@discard_uniform Sample.utils Sample.settings Sample.htmlprocessing Sample.xpaths
              Sample.filters Sample.handlers Sample.readability_unparseable
              Sample.justext_value_error Sample.metadata Sample.pylib Sample.outputs
              "" Sample.strict Txt Sample.start PNone false false false false false)
    as (_ & _ & Hext & Hload & _).
  specialize (Hload Hn).
  destruct (@discard_uniform Sample.utils Sample.settings Sample.htmlprocessing Sample.xpaths
              Sample.filters Sample.handlers Sample.readability_unparseable
              Sample.justext_value_error Sample.metadata Sample.pylib Sample.outputs
              "article" Sample.strict Txt Sample.start PNone false false false false false)
    as (_ & _ & _ & _ & _ & Hchecks).
  assert (Hb : @Pipeline.before_checks Sample.utils Sample.settings Sample.htmlprocessing
                 Sample.xpaths Sample.filters Sample.handlers Sample.readability_unparseable
                 Sample.justext_value_error Sample.metadata Sample.pylib Sample.outputs
                 "article" Sample.strict Txt Sample.start
               = (Sample.strict_before.1, Ok (0, Sample.strict_harvest)))
    by (vm_compute; reflexivity).
  destruct (Hchecks _ _ _ Hb) as [Hcap _].
  split_and!.
  - exact Hn.
  - rewrite Hload. reflexivity.
  - rewrite (Hext _ Hload Txt eq_refl). reflexivity.
  - rewrite (Hcap 0%Z); [reflexivity | reflexivity | vm_compute; reflexivity
                        | vm_compute; reflexivity].
Defined.


(** ** Merging an element with its parent *)

Section Merge.
Import Lxml Xml.

(** A merge is a change of one text or tail, followed by a removal. *)
Lemma merge_shape (s : store) (a p : nat) :
  getparent s a = Some p →
  ∃ (f : node → node) (q : nat),
    (∀ n, n_parent (f n) = n_parent n) ∧ (∀ n, n_children (f n) = n_children n) ∧
    (∀ n, n_tag (f n) = n_tag n) ∧ (∀ n, n_attrib (f n) = n_attrib n) ∧
    merge_with_parent s a = remove (alter f q s) p a.
Proof.
  intros Hp. unfold merge_with_parent. rewrite Hp.
  destruct (getprevious s a) as [previous|].
  - destruct (tail_of s previous); eexists _, previous;
      (split_and!; [| | | | reflexivity]; reflexivity).
  - destruct (text_of s p); eexists _, p;
      (split_and!; [| | | | reflexivity]; reflexivity).
Qed.

Lemma merge_no_parent (s : store) (a : nat) :
  getparent s a = None → merge_with_parent s a = s.
Proof. intros Hp. unfold merge_with_parent. rewrite Hp. reflexivity. Qed.

Lemma merge_length (s : store) (a : nat) : length (merge_with_parent s a) = length s.
Proof.
  destruct (getparent s a) as [p|] eqn:Hp; [| rewrite merge_no_parent; done].
  destruct (merge_shape s a p Hp) as (f & q & _ & _ & _ & _ & ->).
  unfold remove, set_parent, set_children. rewrite !length_alter. reflexivity.
Qed.

Lemma merge_tag (s : store) (a x : nat) : tag_of (merge_with_parent s a) x = tag_of s x.
Proof.
  destruct (getparent s a) as [p|] eqn:Hp; [| rewrite merge_no_parent; done].
  destruct (merge_shape s a p Hp) as (f & q & _ & _ & Hft & _ & ->).
  unfold remove, set_parent, set_children, tag_of.
  rewrite !(field_alter n_tag) by (reflexivity || exact Hft). reflexivity.
Qed.

Lemma merge_attrib (s : store) (a x : nat) :
  attrib_of (merge_with_parent s a) x = attrib_of s x.
Proof.
  destruct (getparent s a) as [p|] eqn:Hp; [| rewrite merge_no_parent; done].
  destruct (merge_shape s a p Hp) as (f & q & _ & _ & _ & Hfa & ->).
  unfold remove, set_parent, set_children, attrib_of.
  rewrite !(field_alter n_attrib) by (reflexivity || exact Hfa). reflexivity.
Qed.

Lemma merge_children (s : store) (a q : nat) :
  children_of (merge_with_parent s a) q =
  if decide (getparent s a = Some q) then remove_first a (children_of s q)
  else children_of s q.
Proof.
  destruct (getparent s a) as [p|] eqn:Hp.
  - destruct (merge_shape s a p Hp) as (f & k & _ & Hfc & _ & _ & ->).
    rewrite children_remove.
    assert (Hc : ∀ x, children_of (alter f k s) x = children_of s x)
      by (intros x; apply (field_alter n_children); exact Hfc).
    rewrite !Hc. destruct (decide (q = p)) as [-> | Hne].
    + rewrite decide_True by reflexivity. reflexivity.
    + rewrite decide_False by congruence. reflexivity.
  - rewrite merge_no_parent by exact Hp. rewrite decide_False by discriminate. reflexivity.
Qed.

Lemma merge_children_subseteq (s : store) (a q : nat) :
  children_of (merge_with_parent s a) q ⊆ children_of s q.
Proof. rewrite merge_children. case_decide; [apply remove_first_subseteq | done]. Qed.

Lemma merge_parent (s : store) (a x : nat) :
  getparent (merge_with_parent s a) x = if decide (x = a) then None else getparent s x.
Proof.
  destruct (getparent s a) as [p|] eqn:Hp.
  - destruct (merge_shape s a p Hp) as (f & k & Hfp & _ & _ & _ & ->).
    rewrite parent_remove. rewrite length_alter.
    assert (Hpa : ∀ y, getparent (alter f k s) y = getparent s y)
      by (intros y; apply (field_alter n_parent); exact Hfp).
    rewrite !Hpa. case_decide; [| reflexivity].
    rewrite decide_True by (eapply parent_in_range, Hp). reflexivity.
  - rewrite merge_no_parent by exact Hp. case_decide; [subst; exact Hp | reflexivity].
Qed.

Lemma merge_wf (s : store) (a : nat) : wf s → wf (merge_with_parent s a).
Proof.
  intros Hwf. destruct (getparent s a) as [p|] eqn:Hp; [| rewrite merge_no_parent; done].
  destruct (merge_shape s a p Hp) as (f & k & Hfp & Hfc & _ & _ & ->).
  apply wf_remove; [apply wf_alter; assumption |].
  rewrite <- Hp. apply (field_alter n_parent). exact Hfp.
Qed.

(** The same facts for a run of merges. *)
Lemma merges_length (l : list nat) (s : store) :
  length (foldl merge_with_parent s l) = length s.
Proof.
  revert s. induction l as [|a l IH]; intros s; simpl; [reflexivity |].
  rewrite IH. apply merge_length.
Qed.

Lemma merges_tag (l : list nat) (s : store) (x : nat) :
  tag_of (foldl merge_with_parent s l) x = tag_of s x.
Proof.
  revert s. induction l as [|a l IH]; intros s; simpl; [reflexivity |].
  rewrite IH. apply merge_tag.
Qed.

Lemma merges_children_subseteq (l : list nat) (s : store) (q : nat) :
  children_of (foldl merge_with_parent s l) q ⊆ children_of s q.
Proof.
  revert s. induction l as [|a l IH]; intros s; simpl; [done |].
  etrans; [apply IH | apply merge_children_subseteq].
Qed.

Lemma merges_wf (l : list nat) (s : store) : wf s → wf (foldl merge_with_parent s l).
Proof.
  revert s. induction l as [|a l IH]; intros s Hwf; simpl; [exact Hwf |].
  apply IH, merge_wf, Hwf.
Qed.

Lemma merges_parent_none (l : list nat) (s : store) (x : nat) :
  getparent s x = None → getparent (foldl merge_with_parent s l) x = None.
Proof.
  revert s. induction l as [|a l IH]; intros s Hx; simpl; [exact Hx |].
  apply IH. rewrite merge_parent. case_decide; [reflexivity | exact Hx].
Qed.

(** Every element of the run ends without a parent. *)
Lemma merges_detach (l : list nat) (s : store) (x : nat) :
  x ∈ l → getparent (foldl merge_with_parent s l) x = None.
Proof.
  revert s. induction l as [|a l IH]; intros s Hin; simpl; [inversion Hin |].
  apply elem_of_cons in Hin as [-> | Hin]; [| apply IH, Hin].
  apply merges_parent_none. rewrite merge_parent. rewrite decide_True; reflexivity.
Qed.

End Merge.

(** ** Flattening to text changes the tree *)

Section Flatten.
Context `{Utils} `{PyLib} `{Outputs}.
Import Lxml Etree Xml Output.

Lemma iter_fuel_child (n : nat) (s : store) (r x : nat) :
  x ∈ iter_fuel n s r → x = r ∨ ∃ q, x ∈ children_of s q.
Proof.
  revert r. induction n as [|n IH]; intros r Hin; simpl in Hin; [inversion Hin |].
  apply elem_of_cons in Hin as [-> | Hin]; [left; reflexivity |].
  apply list_elem_of_bind in Hin as (c & Hx & Hc).
  destruct (IH c Hx) as [-> | Hq]; [right; exists r; exact Hc | right; exact Hq].
Qed.

Lemma iter_fuel_mono (n : nat) (s s' : store) (r x : nat) :
  (∀ q, children_of s' q ⊆ children_of s q) →
  x ∈ iter_fuel n s' r → x ∈ iter_fuel n s r.
Proof.
  intros Hsub. revert r. induction n as [|n IH]; intros r Hin; simpl in *; [exact Hin |].
  apply elem_of_cons in Hin as [-> | Hin]; [left |].
  right. apply list_elem_of_bind in Hin as (c & Hx & Hc).
  apply list_elem_of_bind. exists c. split; [apply IH, Hx | apply Hsub, Hc].
Qed.

Lemma in_xpath_hi_link (s : store) (xmloutput e : nat) :
  e ∈ xpath_hi_link s xmloutput ↔
  e ∈ iter s (getroot s xmloutput) ∧ str_in (tag_of s e) ["hi"; "link"] = true.
Proof.
  unfold xpath_hi_link, iter_tags. rewrite list_elem_of_filter. tauto.
Qed.

(** What one merge does to the text next to the element. *)
Lemma merge_folds_text (t : store) (e p : nat) :
  wf t → getparent t e = Some p →
  let full_text := replace_element_text t e in
  match getprevious t e with
  | Some previous =>
      tail_of (merge_with_parent t e) previous =
      Some (match tail_of t previous with
            | Some x => join " " [x; full_text]
            | None => full_text
            end)
  | None =>
      text_of (merge_with_parent t e) p =
      Some (match text_of t p with
            | Some x => join " " [x; full_text]
            | None => full_text
            end)
  end.
Proof.
  intros (Hnd & Hch & Hpar) Hp full_text.
  assert (Hbefore : ∀ l q, before e l = Some q → q ∈ l).
  { induction l as [|a [|b l] IH]; intros q Hq; simpl in Hq; try discriminate.
    case_bool_decide; [inversion Hq; subst; left | right; apply IH, Hq]. }
  assert (Hplt : p < length t).
  { pose proof (Hpar e p Hp) as Hin. destruct (decide (p < length t)); [assumption |].
    unfold children_of in Hin. rewrite get_out in Hin by lia. inversion Hin. }
  unfold merge_with_parent. rewrite Hp. fold full_text.
  unfold getprevious. rewrite Hp.
  destruct (before e (children_of t p)) as [previous|] eqn:Hprev.
  - assert (Hqlt : previous < length t) by (apply (Hch p), Hbefore, Hprev).
    unfold remove, set_parent, set_children, set_tail, tail_of.
    rewrite !(field_alter n_tail) by reflexivity.
    destruct (n_tail (get t previous)); rewrite get_alter_eq by exact Hqlt; reflexivity.
  - unfold remove, set_parent, set_children, set_text, text_of.
    rewrite !(field_alter n_text) by reflexivity.
    destruct (n_text (get t p)); rewrite get_alter_eq by exact Hplt; reflexivity.
Qed.

(** C10. [xmltotxt] changes the tree it serialises.  Before the
    flattening every [hi] and [link] element of the tree, other than its
    root, is merged with its parent: it loses its parent and is no
    longer part of the tree, so that no [hi] or [link] is left below the
    root, and the tree differs from the one that was passed in as soon
    as it held such an element.  Each merge folds the text and tail of
    the element into the tail of the sibling before it or, without one,
    into the text of the parent.  The csv and txt serialisations, and
    the json serialisation when it succeeds, leave the trees in that
    state. *)
Theorem xmltotxt_mutates (s : store) (xmloutput : nat) :
  wf s →
  let root := getroot s xmloutput in
  let s' := (xmltotxt s xmloutput).1 in
  (∀ e, e ∈ xpath_hi_link s xmloutput → e ≠ root →
     getparent s' e = None ∧ e ∉ iter s' root) ∧
  (∀ e, e ∈ iter s' root → e ≠ root → str_in (tag_of s' e) ["hi"; "link"] = false) ∧
  ((∃ e, e ∈ xpath_hi_link s xmloutput ∧ e ≠ root) → s' ≠ s) ∧
  (∀ t e p, wf t → getparent t e = Some p →
     let full_text := replace_element_text t e in
     match getprevious t e with
     | Some previous =>
         tail_of (merge_with_parent t e) previous =
         Some (match tail_of t previous with
               | Some x => join " " [x; full_text]
               | None => full_text
               end)
     | None =>
         text_of (merge_with_parent t e) p =
         Some (match text_of t p with
               | Some x => join " " [x; full_text]
               | None => full_text
               end)
     end) ∧
  (∀ w docmeta postbody commentsbody tei_validation,
     trees (determine_returnstring docmeta postbody commentsbody Csv tei_validation w).1 =
     match commentsbody with
     | Some c => xmltotxt_merge (xmltotxt_merge (trees w) postbody) c
     | None => xmltotxt_merge (trees w) postbody
     end) ∧
  (∀ w docmeta postbody commentsbody tei_validation,
     trees (determine_returnstring docmeta postbody commentsbody Txt tei_validation w).1 =
     let '(s1, output) := build_xml_output (trees w) postbody commentsbody in
     xmltotxt_merge s1 output) ∧
  (∀ w docmeta postbody commentsbody tei_validation x,
     (determine_returnstring docmeta postbody commentsbody Json tei_validation w).2 = Ok x →
     ∃ c, commentsbody = Some c ∧
     trees (determine_returnstring docmeta postbody commentsbody Json tei_validation w).1 =
     xmltotxt_merge (xmltotxt_merge (trees w) postbody) c).
Proof.
  intros Hwf root s'.
  assert (Hs' : s' = foldl merge_with_parent s (xpath_hi_link s xmloutput)) by reflexivity.
  assert (Hwf' : wf s') by (rewrite Hs'; apply merges_wf, Hwf).
  assert (Hlen : length s' = length s) by (rewrite Hs'; apply merges_length).
  assert (Hgone : ∀ e, e ∈ xpath_hi_link s xmloutput → e ≠ root →
                       getparent s' e = None ∧ e ∉ iter s' root).
  { intros e Hin Hne.
    assert (Hnone : getparent s' e = None) by (rewrite Hs'; apply merges_detach, Hin).
    split; [exact Hnone |]. intros Hit.
    destruct (iter_fuel_child _ _ _ _ Hit) as [Hroot | (q & Hq)]; [exact (Hne Hroot) |].
    destruct Hwf' as (_ & Hch & _). destruct (Hch q e Hq) as [Hp _]. congruence. }
  split_and!.
  - exact Hgone.
  - intros e Hit Hne. destruct (str_in (tag_of s' e) ["hi"; "link"]) eqn:Htag; [| reflexivity].
    exfalso. assert (Hin : e ∈ xpath_hi_link s xmloutput).
    { apply in_xpath_hi_link. split.
      - unfold iter in *. rewrite Hlen in Hit. eapply iter_fuel_mono; [| exact Hit].
        intros q. rewrite Hs'. apply merges_children_subseteq.
      - rewrite Hs', merges_tag in Htag. exact Htag. }
    destruct (Hgone e Hin Hne) as [_ Hnot]. exact (Hnot Hit).
  - intros (e & Hin & Hne) Heq.
    destruct (Hgone e Hin Hne) as [Hnone _]. rewrite Heq in Hnone.
    apply in_xpath_hi_link in Hin as [Hit _].
    destruct (iter_fuel_child _ _ _ _ Hit) as [Hroot | (q & Hq)]; [exact (Hne Hroot) |].
    destruct Hwf as (_ & Hch & _). destruct (Hch q e Hq) as [Hp _]. congruence.
  - intros t e p. apply merge_folds_text.
  - intros w docmeta postbody commentsbody tei_validation.
    unfold determine_returnstring, xmltotxt, on_trees, get_world, mbind, M_bind, mret, M_ret.
    simpl. destruct commentsbody; reflexivity.
  - intros w docmeta postbody commentsbody tei_validation.
    unfold determine_returnstring, xmltotxt, on_trees, mbind, M_bind. simpl.
    destruct (build_xml_output (trees w) postbody commentsbody). reflexivity.
  - intros w docmeta postbody commentsbody tei_validation x.
    unfold determine_returnstring, build_json_output, xmltotxt.
    unfold on_trees, get_world, dict_pop, dict_set, dict_get, py_join, raise,
           mbind, M_bind, mret, M_ret.
    repeat (match goal with
            | |- context [match ?o !! ?k with Some _ => _ | None => _ end] =>
                destruct (o !! k); simpl; try discriminate
            | |- context [match ?v with PNone => _ | PStr _ => _ | PList _ => _ end] =>
                destruct v; simpl; try discriminate
            end).
    all: destruct commentsbody as [c|]; simpl; try discriminate.
    all: intros _; exists c; split; reflexivity.
Qed.

End Flatten.

(** C10 on a paragraph with a [hi] and a [link]: the serialisation
    leaves the paragraph without children, its text extended. *)
Lemma xmltotxt_mutates_witness :
  Lxml.wf Sample.formatted ∧
  (@Xml.xmltotxt Sample.utils Sample.formatted 0).1 ≠ Sample.formatted ∧
  Lxml.children_of (@Xml.xmltotxt Sample.utils Sample.formatted 0).1 1 = [] ∧
  Lxml.text_of (@Xml.xmltotxt Sample.utils Sample.formatted 0).1 1 = Some "a b c d".
Proof.
  assert (Hwf : Lxml.wf Sample.formatted) by (apply wf_b_wf; vm_compute; reflexivity).
  split; [exact Hwf |].
  destruct (@xmltotxt_mutates Sample.utils Sample.pylib Sample.outputs Sample.formatted 0 Hwf)
    as (_ & _ & Hdiff & _).
  split; [| split; vm_compute; reflexivity].
  apply Hdiff. exists 2. split.
  - assert (Hx : Xml.xpath_hi_link Sample.formatted 0 = [2; 3]) by (vm_compute; reflexivity).
    rewrite Hx. left.
  - vm_compute. discriminate.
Defined.

(** ** The text of a tree across a merge *)

Section TextOfTree.
Import Lxml Xml.

Lemma list_ascii_app (a b : string) :
  String.list_ascii_of_string (a +:+ b) =
  String.list_ascii_of_string a ++ String.list_ascii_of_string b.
Proof. induction a as [|c a IH]; simpl; [reflexivity | rewrite IH; reflexivity]. Qed.

Lemma squeeze_app (a b : string) : squeeze (a +:+ b) = squeeze a ++ squeeze b.
Proof. unfold squeeze. rewrite list_ascii_app, filter_app. reflexivity. Qed.

Lemma squeeze_sep (x y : string) : squeeze (x +:+ " " +:+ y) = squeeze x ++ squeeze y.
Proof. rewrite !squeeze_app. reflexivity. Qed.

Lemma squeeze_join (x y : string) : squeeze (join " " [x; y]) = squeeze x ++ squeeze y.
Proof. apply squeeze_sep. Qed.

Lemma squeeze_full_text (t : store) (e : nat) :
  squeeze (replace_element_text t e) =
  (otext (text_of t e) ++ otext (tail_of t e)) ≫= squeeze.
Proof.
  unfold replace_element_text.
  destruct (text_of t e) as [x|], (tail_of t e) as [y|].
  - rewrite squeeze_join. csimpl. rewrite app_nil_r. reflexivity.
  - csimpl. rewrite app_nil_r. reflexivity.
  - csimpl. rewrite app_nil_r. reflexivity.
  - reflexivity.
Qed.

(** Two stores with the same texts and links. *)
Definition same_links (s s' : store) : Prop :=
  length s' = length s ∧
  ∀ y, text_of s' y = text_of s y ∧ tail_of s' y = tail_of s y ∧
       getparent s' y = getparent s y ∧ children_of s' y = children_of s y.

Lemma same_links_refl (s : store) : same_links s s.
Proof. split; [reflexivity | intros y; split_and!; reflexivity]. Qed.

Lemma same_links_trans (s s' s'' : store) :
  same_links s s' → same_links s' s'' → same_links s s''.
Proof.
  intros [Hl H1] [Hl' H2]. split; [congruence |].
  intros y. destruct (H1 y) as (? & ? & ? & ?), (H2 y) as (? & ? & ? & ?).
  split_and!; congruence.
Qed.

Lemma same_links_alter (f : node → node) (s : store) (e : nat) :
  (∀ n, n_text (f n) = n_text n) → (∀ n, n_tail (f n) = n_tail n) →
  (∀ n, n_parent (f n) = n_parent n) → (∀ n, n_children (f n) = n_children n) →
  same_links s (alter f e s).
Proof.
  intros Hx Ht Hp Hc. split; [apply length_alter |].
  intros y. unfold text_of, tail_of, getparent, children_of.
  split_and!; [apply (field_alter n_text) | apply (field_alter n_tail)
              | apply (field_alter n_parent) | apply (field_alter n_children)]; assumption.
Qed.

Lemma same_links_wf (s s' : store) : same_links s s' → wf s → wf s'.
Proof.
  intros [Hl Hs] (Hnd & Hch & Hpar).
  assert (Hc : ∀ y, children_of s' y = children_of s y) by (intros y; apply Hs).
  assert (Hp : ∀ y, getparent s' y = getparent s y) by (intros y; apply Hs).
  split_and!.
  - intros q. rewrite Hc. apply Hnd.
  - intros q x. rewrite Hc, Hp, Hl. apply Hch.
  - intros x q. rewrite Hc, Hp. apply Hpar.
Qed.

Lemma same_links_itertext (n : nat) (s s' : store) (r : nat) :
  same_links s s' → itertext_fuel n s' r = itertext_fuel n s r.
Proof.
  intros [_ Hs]. revert r. induction n as [|n IH]; intros r; simpl; [reflexivity |].
  destruct (Hs r) as (-> & _ & _ & ->). f_equal.
  induction (children_of s r) as [|c l IHl]; [reflexivity |].
  csimpl. rewrite IHl, IH. destruct (Hs c) as (_ & -> & _). reflexivity.
Qed.

Lemma same_links_depth (n : nat) (s s' : store) (r : nat) :
  same_links s s' → depth_ok n s' r = depth_ok n s r.
Proof.
  intros [_ Hs]. revert r. induction n as [|n IH]; intros r; simpl; [reflexivity |].
  destruct (Hs r) as (_ & _ & _ & ->).
  induction (children_of s r) as [|c l IHl]; [reflexivity |].
  simpl. rewrite IHl, IH. reflexivity.
Qed.

(** The sibling before an element, in a list without repetition. *)
Lemma before_none (e : nat) (l : list nat) (a : nat) : e ∉ l → before e (a :: l) = None.
Proof.
  revert a. induction l as [|b l IH]; intros a Hnin; simpl; [reflexivity |].
  rewrite bool_decide_eq_false_2 by (intros ->; apply Hnin; left).
  apply IH. intros Hin. apply Hnin. right. exact Hin.
Qed.

Lemma children_split (e : nat) (l : list nat) :
  NoDup l → e ∈ l →
  ∃ A B, l = A ++ e :: B ∧ (e ∉ A) ∧ (e ∉ B) ∧
         before e l = last A ∧ remove_first e l = A ++ B.
Proof.
  induction 1 as [|a l Hnin Hnd IH]; intros Hin; [inversion Hin |].
  destruct (decide (a = e)) as [-> | Hne].
  - exists [], l. split_and!; [reflexivity | apply not_elem_of_nil | exact Hnin | |].
    + apply before_none, Hnin.
    + simpl. rewrite bool_decide_eq_true_2 by reflexivity. reflexivity.
  - apply elem_of_cons in Hin as [-> | Hin]; [congruence |].
    destruct (IH Hin) as (A & B & -> & HA & HB & Hbef & Hrem).
    exists (a :: A), B. split_and!.
    + reflexivity.
    + intros Hx. apply elem_of_cons in Hx as [-> | Hx]; [congruence | exact (HA Hx)].
    + exact HB.
    + destruct A as [|a' A].
      * simpl. rewrite bool_decide_eq_true_2 by reflexivity. reflexivity.
      * change (before e (a :: (a' :: A) ++ e :: B)) with
          (if bool_decide (a' = e) then Some a else before e ((a' :: A) ++ e :: B)).
        rewrite bool_decide_eq_false_2 by (intros ->; apply HA; left).
        rewrite Hbef. reflexivity.
    + simpl. rewrite bool_decide_eq_false_2 by exact Hne. rewrite Hrem. reflexivity.
Qed.

Lemma bind_ext_in {A B} (f g : A → list B) (l : list A) :
  (∀ x, x ∈ l → f x = g x) → l ≫= f = l ≫= g.
Proof.
  induction l as [|a l IH]; intros Hfg; [reflexivity |].
  csimpl. rewrite Hfg by left. rewrite IH; [reflexivity |].
  intros x Hx. apply Hfg. right. exact Hx.
Qed.

Lemma bind_bind {A B C} (f : A → list B) (g : B → list C) (l : list A) :
  (l ≫= f) ≫= g = l ≫= (λ x, f x ≫= g).
Proof.
  induction l as [|a l IH]; [reflexivity |].
  csimpl. rewrite bind_app, IH. reflexivity.
Qed.

(** What an element and its tail contribute to the text of its parent. *)
Definition chars_with_tail (n : nat) (s : store) (c : nat) : list Ascii.ascii :=
text_chars_fuel n s c ++ (otext (tail_of s c) ≫= squeeze).

Lemma chars_step (n : nat) (s : store) (r : nat) :
  text_chars_fuel (S n) s r =
  (otext (text_of s r) ≫= squeeze) ++ (children_of s r ≫= chars_with_tail n s).
Proof.
  unfold text_chars_fuel at 1. simpl. rewrite bind_app, bind_bind. f_equal.
  apply bind_ext_in. intros c _. rewrite bind_app. reflexivity.
Qed.

Lemma chars_leaf (n : nat) (s : store) (e : nat) :
  children_of s e = [] → depth_ok n s e = true →
  chars_with_tail n s e = (otext (text_of s e) ++ otext (tail_of s e)) ≫= squeeze.
Proof.
  intros Hleaf Hd. destruct n as [|n]; [discriminate |].
  unfold chars_with_tail. rewrite chars_step, Hleaf. csimpl.
  rewrite app_nil_r, bind_app. reflexivity.
Qed.

Lemma before_elem (e q : nat) (l : list nat) : before e l = Some q → q ∈ l.
Proof.
  induction l as [|a [|b l] IH]; intros Hq; simpl in Hq; try discriminate.
  case_bool_decide; [inversion Hq; subst; left | right; apply IH, Hq].
Qed.

Lemma parent_valid (t : store) (e p : nat) :
  wf t → getparent t e = Some p → p < length t.
Proof.
  intros (_ & _ & Hpar) Hp. pose proof (Hpar e p Hp) as Hin.
  destruct (decide (p < length t)); [assumption |].
  unfold children_of in Hin. rewrite get_out in Hin by lia. inversion Hin.
Qed.

Lemma merge_text (t : store) (e p x : nat) :
  wf t → getparent t e = Some p →
  text_of (merge_with_parent t e) x =
  match getprevious t e with
  | None => if decide (x = p)
            then Some (match text_of t p with
                       | Some y => join " " [y; replace_element_text t e]
                       | None => replace_element_text t e
                       end)
            else text_of t x
  | Some _ => text_of t x
  end.
Proof.
  intros Hwf Hp. pose proof (parent_valid _ _ _ Hwf Hp) as Hplt.
  unfold merge_with_parent. rewrite Hp.
  destruct (getprevious t e) as [previous|].
  - unfold remove, set_parent, set_children, set_tail, text_of.
    destruct (tail_of t previous); rewrite !(field_alter n_text) by reflexivity; reflexivity.
  - unfold remove, set_parent, set_children, set_text, text_of.
    rewrite !(field_alter n_text) by reflexivity.
    destruct (decide (x = p)) as [-> | Hne].
    + destruct (n_text (get t p)); rewrite get_alter_eq by exact Hplt; reflexivity.
    + destruct (n_text (get t p)); rewrite get_alter_ne by exact Hne; reflexivity.
Qed.

Lemma merge_tail (t : store) (e p x : nat) :
  wf t → getparent t e = Some p →
  tail_of (merge_with_parent t e) x =
  match getprevious t e with
  | Some previous =>
      if decide (x = previous)
      then Some (match tail_of t previous with
                 | Some y => join " " [y; replace_element_text t e]
                 | None => replace_element_text t e
                 end)
      else tail_of t x
  | None => tail_of t x
  end.
Proof.
  intros Hwf Hp. unfold merge_with_parent. rewrite Hp.
  destruct (getprevious t e) as [previous|] eqn:Hprev.
  - assert (Hqlt : previous < length t).
    { destruct Hwf as (_ & Hch & _). apply (Hch p).
      unfold getprevious in Hprev. rewrite Hp in Hprev. eapply before_elem, Hprev. }
    unfold remove, set_parent, set_children, set_tail, tail_of.
    rewrite !(field_alter n_tail) by reflexivity.
    destruct (decide (x = previous)) as [-> | Hne].
    + destruct (n_tail (get t previous)); rewrite get_alter_eq by exact Hqlt; reflexivity.
    + destruct (n_tail (get t previous)); rewrite get_alter_ne by exact Hne; reflexivity.
  - unfold remove, set_parent, set_children, set_text, tail_of.
    destruct (text_of t p); rewrite !(field_alter n_tail) by reflexivity; reflexivity.
Qed.

(** Merging a leaf with its parent moves its text and nothing else:
    the text of every tree of the store stays the same, up to blanks. *)
Lemma merge_keeps_text (t : store) (e p : nat) :
  wf t → getparent t e = Some p → children_of t e = [] →
  ∀ n r, depth_ok n t r = true →
    text_chars_fuel n (merge_with_parent t e) r = text_chars_fuel n t r.
Proof.
  intros Hwf Hp Hleaf.
  pose proof Hwf as (Hnd & Hch & Hpar).
  pose proof (Hpar e p Hp) as Hein.
  destruct (children_split e _ (Hnd p) Hein) as (A & B & Hsplit & HA & HB & Hbef & Hrem).
  assert (Hprev : getprevious t e = last A) by (unfold getprevious; rewrite Hp; exact Hbef).
  assert (Hndp : NoDup (A ++ e :: B)) by (rewrite <- Hsplit; apply Hnd).
  induction n as [|n IH]; intros r Hd; [discriminate |].
  simpl in Hd. rewrite forallb_forall in Hd.
  assert (Hchild : ∀ c, depth_ok n t c = true → (∀ q, last A = Some q → c ≠ q) →
            chars_with_tail n (merge_with_parent t e) c = chars_with_tail n t c).
  { intros c Hdc Hnq. unfold chars_with_tail. rewrite IH by exact Hdc. f_equal.
    rewrite (merge_tail t e p c Hwf Hp). rewrite Hprev.
    destruct (last A) as [q|]; [| reflexivity].
    rewrite decide_False by (apply Hnq; reflexivity). reflexivity. }
  rewrite !chars_step.
  rewrite (merge_children t e r), (merge_text t e p r Hwf Hp), Hprev.
  destruct (decide (r = p)) as [-> | Hrp].
  - rewrite decide_True by exact Hp. rewrite Hrem. rewrite Hsplit in Hd |- *.
    assert (Hde : depth_ok n t e = true)
      by (apply Hd, list_elem_of_In, elem_of_app; right; left).
    assert (HdA : ∀ c, c ∈ A → depth_ok n t c = true)
      by (intros c Hc; apply Hd, list_elem_of_In, elem_of_app; left; exact Hc).
    assert (HdB : ∀ c, c ∈ B → depth_ok n t c = true)
      by (intros c Hc; apply Hd, list_elem_of_In, elem_of_app; right; right; exact Hc).
    rewrite !bind_app. csimpl.
    rewrite (chars_leaf n t e Hleaf Hde), <- squeeze_full_text.
    assert (HBeq : B ≫= chars_with_tail n (merge_with_parent t e) = B ≫= chars_with_tail n t).
    { apply bind_ext_in. intros c Hc. apply Hchild; [apply HdB, Hc |].
      intros q Hq ->. apply last_Some in Hq as [A' ->].
      apply NoDup_app in Hndp as (_ & Hdisj & _).
      apply (Hdisj q); [apply elem_of_app; right; left | right; exact Hc]. }
    rewrite HBeq.
    destruct (last A) as [q|] eqn:Hlast.
    + apply last_Some in Hlast as [A' ->].
      rewrite !bind_app. csimpl. rewrite !app_nil_r.
      assert (HA'eq : A' ≫= chars_with_tail n (merge_with_parent t e)
                      = A' ≫= chars_with_tail n t).
      { apply bind_ext_in. intros c Hc. apply Hchild; [apply HdA, elem_of_app; left; exact Hc |].
        intros q' Hq' ->. rewrite ?last_snoc in Hq'. inversion Hq'. subst q'.
        apply NoDup_app in Hndp as (HndA & _ & _).
        apply NoDup_app in HndA as (_ & Hdisj & _).
        apply (Hdisj q Hc). left. }
      rewrite HA'eq.
      unfold chars_with_tail at 2.
      rewrite IH by (apply HdA, elem_of_app; right; left).
      rewrite (merge_tail t e p q Hwf Hp), Hprev, ?last_snoc.
      rewrite decide_True by reflexivity.
      unfold chars_with_tail.
      destruct (tail_of t q) as [y|]; csimpl;
        rewrite ?squeeze_join, ?squeeze_sep, ?app_nil_r, <- ?app_assoc; reflexivity.
    + apply last_None in Hlast. subst A. csimpl.
      destruct (text_of t p) as [y|]; csimpl;
        rewrite ?squeeze_join, ?squeeze_sep, ?app_nil_r, <- ?app_assoc; reflexivity.
  - rewrite (decide_False (P := getparent t e = Some r)) by congruence.
    assert (Htext : match last A with
                    | Some _ => text_of t r
                    | None => text_of t r
                    end = text_of t r) by (destruct (last A); reflexivity).
    rewrite Htext. f_equal.
    apply bind_ext_in. intros c Hc. apply Hchild; [apply Hd, list_elem_of_In, Hc |].
    intros q Hq ->. apply last_Some in Hq as [A' ->].
    destruct (Hch r q Hc) as [Hqr _].
    assert (Hqp : getparent t q = Some p).
    { apply (Hch p). rewrite Hsplit. apply elem_of_app. left.
      apply elem_of_app. right. left. }
    congruence.
Qed.

End TextOfTree.

(** ** The TEI check *)

Section TeiCheck.
Import Lxml Xml.

Lemma depth_ok_mono (n : nat) (s s' : store) (r : nat) :
  (∀ q, children_of s' q ⊆ children_of s q) →
  depth_ok n s r = true → depth_ok n s' r = true.
Proof.
  intros Hsub. revert r. induction n as [|n IH]; intros r Hd; simpl in *; [exact Hd |].
  rewrite forallb_forall in *. intros c Hc. apply IH, Hd.
  apply list_elem_of_In, Hsub, list_elem_of_In, Hc.
Qed.

(** The attribute loop touches the attributes of its element only. *)
Lemma check_attributes_shape (s : store) (x : nat) :
  same_links s (check_attributes s x) ∧
  (∀ y, tag_of (check_attributes s x) y = tag_of s y) ∧
  (∀ y k v, (k, v) ∈ attrib_of s y → k ∈ TEI_VALID_ATTRS →
            (k, v) ∈ attrib_of (check_attributes s x) y).
Proof.
  unfold check_attributes. generalize (map fst (attrib_of s x)) as keys.
  intros keys. revert s. induction keys as [|k' keys IH]; intros s; simpl.
  - split_and!; [apply same_links_refl | reflexivity | tauto].
  - destruct (str_in k' TEI_VALID_ATTRS) eqn:Hk'; [apply IH |].
    set (s2 := set_attrib s x (attr_pop k' (attrib_of s x))).
    destruct (IH s2) as (Hl & Ht & Ha).
    assert (Hl2 : same_links s s2) by (apply same_links_alter; reflexivity).
    split_and!.
    + eapply same_links_trans; eassumption.
    + intros y. rewrite Ht. apply (field_alter n_tag). reflexivity.
    + intros y k v Hin Hk. apply Ha; [| exact Hk].
      unfold s2, set_attrib, attrib_of.
      destruct (decide (y = x)) as [-> | Hne]; [| rewrite get_alter_ne by exact Hne; exact Hin].
      destruct (decide (x < length s)) as [Hlt | Hge].
      * rewrite get_alter_eq by exact Hlt. simpl. unfold attr_pop.
        apply list_elem_of_filter. split; [| exact Hin].
        simpl. intros ->. unfold str_in in Hk'.
        apply bool_decide_eq_false in Hk'. exact (Hk' Hk).
      * unfold attrib_of in Hin. rewrite get_out in Hin by lia. inversion Hin.
Qed.

Lemma convert_head_links (s : store) (x : nat) : same_links s (convert_head s x).
Proof.
  unfold convert_head, set, set_attrib, set_tag.
  eapply same_links_trans; apply same_links_alter; reflexivity.
Qed.

Lemma convert_heads_links (l : list nat) (s : store) :
  same_links s (foldl convert_head s l).
Proof.
  revert s. induction l as [|a l IH]; intros s; simpl; [apply same_links_refl |].
  eapply same_links_trans; [apply convert_head_links | apply IH].
Qed.

Lemma check_element_tag (s : store) (a y : nat) :
  tag_of (check_element s a) y = tag_of s y.
Proof.
  unfold check_element. destruct (str_in (tag_of s a) TEI_VALID_TAGS).
  - apply check_attributes_shape.
  - apply merge_tag.
Qed.

Lemma check_element_wf (s : store) (a : nat) : wf s → wf (check_element s a).
Proof.
  intros Hwf. unfold check_element. destruct (str_in (tag_of s a) TEI_VALID_TAGS).
  - eapply same_links_wf; [apply check_attributes_shape | exact Hwf].
  - apply merge_wf, Hwf.
Qed.

Lemma check_element_children (s : store) (a q : nat) :
  children_of (check_element s a) q ⊆ children_of s q.
Proof.
  unfold check_element. destruct (str_in (tag_of s a) TEI_VALID_TAGS).
  - destruct (check_attributes_shape s a) as ((_ & Hl) & _ & _).
    destruct (Hl q) as (_ & _ & _ & ->). done.
  - apply merge_children_subseteq.
Qed.

Lemma check_element_parent_none (s : store) (a x : nat) :
  getparent s x = None → getparent (check_element s a) x = None.
Proof.
  intros Hx. unfold check_element. destruct (str_in (tag_of s a) TEI_VALID_TAGS).
  - destruct (check_attributes_shape s a) as ((_ & Hl) & _ & _).
    destruct (Hl x) as (_ & _ & -> & _). exact Hx.
  - rewrite merge_parent. case_decide; [reflexivity | exact Hx].
Qed.

Lemma check_element_attrib (s : store) (a y : nat) (k v : string) :
  (k, v) ∈ attrib_of s y → k ∈ TEI_VALID_ATTRS → (k, v) ∈ attrib_of (check_element s a) y.
Proof.
  intros Hin Hk. unfold check_element. destruct (str_in (tag_of s a) TEI_VALID_TAGS).
  - apply check_attributes_shape; assumption.
  - rewrite merge_attrib. exact Hin.
Qed.

Lemma check_element_text (s : store) (a : nat) :
  wf s → (str_in (tag_of s a) TEI_VALID_TAGS = false → children_of s a = []) →
  ∀ n r, depth_ok n s r = true →
    text_chars_fuel n (check_element s a) r = text_chars_fuel n s r.
Proof.
  intros Hwf Hleaf n r Hd. unfold check_element.
  destruct (str_in (tag_of s a) TEI_VALID_TAGS).
  - unfold text_chars_fuel. erewrite same_links_itertext; [reflexivity |].
    apply check_attributes_shape.
  - destruct (getparent s a) as [p|] eqn:Hp.
    + apply (merge_keeps_text s a p); auto.
    + rewrite merge_no_parent by exact Hp. reflexivity.
Qed.

(** The loop of [check_tei] over the elements of the body. *)
Lemma check_elements_run (l : list nat) (s : store) :
  wf s →
  let s' := foldl check_element s l in
  wf s' ∧ length s' = length s ∧
  (∀ y, tag_of s' y = tag_of s y) ∧
  (∀ q, children_of s' q ⊆ children_of s q) ∧
  (∀ x, getparent s x = None → getparent s' x = None) ∧
  (∀ e, e ∈ l → str_in (tag_of s e) TEI_VALID_TAGS = false → getparent s' e = None) ∧
  (∀ y k v, (k, v) ∈ attrib_of s y → k ∈ TEI_VALID_ATTRS → (k, v) ∈ attrib_of s' y) ∧
  ((∀ e, e ∈ l → str_in (tag_of s e) TEI_VALID_TAGS = false → children_of s e = []) →
   ∀ n r, depth_ok n s r = true → text_chars_fuel n s' r = text_chars_fuel n s r).
Proof.
  revert s. induction l as [|a l IH]; intros s Hwf; simpl.
  - split_and!; try done. intros e He. inversion He.
  - set (s2 := check_element s a).
    destruct (IH s2 (check_element_wf s a Hwf)) as (Hwf' & Hlen & Htag & Hsub & Hnone & Hdet & Hattr & Htext).
    split_and!.
    + exact Hwf'.
    + rewrite Hlen. unfold s2, check_element.
      destruct (str_in (tag_of s a) TEI_VALID_TAGS);
        [apply check_attributes_shape | apply merge_length].
    + intros y. rewrite Htag. apply check_element_tag.
    + intros q. etrans; [apply Hsub | apply check_element_children].
    + intros x Hx. apply Hnone, check_element_parent_none, Hx.
    + intros e He Hbad. apply elem_of_cons in He as [-> | He].
      * apply Hnone. unfold s2, check_element. rewrite Hbad.
        rewrite merge_parent. rewrite decide_True; reflexivity.
      * apply Hdet; [exact He |]. unfold s2. rewrite check_element_tag. exact Hbad.
    + intros y k v Hin Hk. apply Hattr; [| exact Hk]. apply check_element_attrib; assumption.
    + intros Hleaf n r Hd. rewrite Htext.
      * apply check_element_text; [exact Hwf | | exact Hd].
        intros Hbad. apply Hleaf; [left | exact Hbad].
      * intros e He Hbad. unfold s2 in Hbad. rewrite check_element_tag in Hbad.
        pose proof (Hleaf e (list_elem_of_further _ _ _ He) Hbad) as Hnil.
        pose proof (check_element_children s a e) as Hc. fold s2 in Hc.
        rewrite Hnil in Hc. destruct (children_of s2 e) as [|c cs]; [reflexivity |].
        exfalso. specialize (Hc c). rewrite elem_of_nil in Hc. apply Hc. left.
      * eapply depth_ok_mono; [| exact Hd]. intros q. apply check_element_children.
Qed.

(** C3, as amended. [check_tei] removes every element of the body whose
    tag is outside the TEI set: the element loses its parent and is no
    child of any element, and nothing is attached anywhere, so its
    descendants leave the tree with it.  Before the removal its own text
    and tail are appended, after a blank, to the tail of the sibling
    before it or, without one, to the text of its parent.  When every
    element that is removed is a leaf, the text of the tree is the same
    before and after, up to blanks.  An attribute inside the allowed set
    is never removed. *)
Theorem check_tei_merges (s : store) (tei : nat) :
  wf s →
  let s1 := foldl convert_head s (iter_tags s tei ["head"]) in
  let targets := xpath_text_body s1 tei in
  let s' := check_tei s tei in
  (∀ e, e ∈ targets → str_in (tag_of s1 e) TEI_VALID_TAGS = false →
     getparent s' e = None ∧ ∀ q, e ∉ children_of s' q) ∧
  (∀ q, children_of s' q ⊆ children_of s q) ∧
  (∀ t e p, wf t → getparent t e = Some p →
     let full_text := replace_element_text t e in
     match getprevious t e with
     | Some previous =>
         tail_of (merge_with_parent t e) previous =
         Some (match tail_of t previous with
               | Some x => join " " [x; full_text]
               | None => full_text
               end)
     | None =>
         text_of (merge_with_parent t e) p =
         Some (match text_of t p with
               | Some x => join " " [x; full_text]
               | None => full_text
               end)
     end) ∧
  (depth_ok (length s) s tei = true →
   (∀ e, e ∈ targets → str_in (tag_of s1 e) TEI_VALID_TAGS = false → children_of s e = []) →
   text_chars s' tei = text_chars s tei) ∧
  (∀ y k v, (k, v) ∈ attrib_of s1 y → k ∈ TEI_VALID_ATTRS → (k, v) ∈ attrib_of s' y).
Proof.
  intros Hwf s1 targets s'.
  pose proof (convert_heads_links (iter_tags s tei ["head"]) s) as Hl1. fold s1 in Hl1.
  assert (Hwf1 : wf s1) by (eapply same_links_wf; eassumption).
  destruct (check_elements_run targets s1 Hwf1)
    as (Hwf' & Hlen & Htag & Hsub & Hnone & Hdet & Hattr & Htext).
  change (foldl check_element s1 targets) with s' in *.
  destruct Hl1 as [Hlen1 Hf1].
  split_and!.
  - intros e He Hbad. pose proof (Hdet e He Hbad) as Hp. split; [exact Hp |].
    intros q Hq. destruct Hwf' as (_ & Hch & _). destruct (Hch q e Hq). congruence.
  - intros q. etrans; [apply Hsub |]. destruct (Hf1 q) as (_ & _ & _ & ->). done.
  - intros t e p. apply merge_folds_text.
  - intros Hd Hleaf. unfold text_chars, itertext. rewrite Hlen, Hlen1.
    change (text_chars_fuel (length s) s' tei = text_chars_fuel (length s) s tei).
    rewrite Htext.
    + unfold text_chars_fuel. erewrite same_links_itertext; [reflexivity |].
      split; assumption.
    + intros e He Hbad. destruct (Hf1 e) as (_ & _ & _ & ->). apply Hleaf; assumption.
    + erewrite same_links_depth; [exact Hd | split; assumption].
  - exact Hattr.
Qed.

End TeiCheck.

(** C3 as stated fails: the [span] of the sample entry holds a
    paragraph, and the text of the paragraph is gone after the check;
    the paragraph is still attached to the [span] that was removed. *)
Lemma check_tei_drops_text :
  Lxml.wf Sample.tei_nested ∧
  Lxml.itertext Sample.tei_nested 0 = ["kept"; "lost"] ∧
  Lxml.itertext (Xml.check_tei Sample.tei_nested 0) 0 = ["kept"] ∧
  Lxml.text_chars (Xml.check_tei Sample.tei_nested 0) 0 ≠ Lxml.text_chars Sample.tei_nested 0 ∧
  Lxml.getparent (Xml.check_tei Sample.tei_nested 0) 6 = Some 5 ∧
  Lxml.getparent (Xml.check_tei Sample.tei_nested 0) 5 = None.
Proof.
  split_and!; try (vm_compute; reflexivity).
  - apply wf_b_wf. vm_compute. reflexivity.
  - vm_compute. discriminate.
Qed.

(** C3, amended, on an entry whose only disallowed element is a leaf
    [span]: the text is kept. *)
Lemma check_tei_merges_witness :
  Lxml.wf Sample.tei_flat ∧
  Lxml.text_chars (Xml.check_tei Sample.tei_flat 0) 0 = Lxml.text_chars Sample.tei_flat 0 ∧
  Lxml.getparent (Xml.check_tei Sample.tei_flat 0) 6 = None.
Proof.
  assert (Hwf : Lxml.wf Sample.tei_flat) by (apply wf_b_wf; vm_compute; reflexivity).
  destruct (check_tei_merges Sample.tei_flat 0 Hwf) as (Hgone & _ & _ & Htext & _).
  assert (Ht : Xml.xpath_text_body
                 (foldl Xml.convert_head Sample.tei_flat
                        (Lxml.iter_tags Sample.tei_flat 0 ["head"])) 0 = [4; 5; 6])
    by (vm_compute; reflexivity).
  split_and!.
  - exact Hwf.
  - apply Htext; [vm_compute; reflexivity |].
    intros e He Hbad. rewrite Ht in He.
    repeat (apply elem_of_cons in He as [-> | He]);
      [vm_compute in Hbad; discriminate | vm_compute in Hbad; discriminate
      | vm_compute; reflexivity | inversion He].
  - apply Hgone; [rewrite Ht; do 2 right; left | vm_compute; reflexivity].
Defined.

(** ** The comments extractor and the document *)

Section Comments.
Context `{Utils} `{Settings} `{HtmlProcessing} `{XPaths}.
Import Lxml Etree Core.

Lemma get_new (s : store) (n : node) : get (s ++ [n]) (length s) = n.
Proof.
  unfold get. rewrite lookup_app_r by lia. rewrite Nat.sub_diag. reflexivity.
Qed.

Lemma comments_loop_no_match (exprs : list expr) (s : store) (tree cb : nat) (d : bool) :
  (∀ e, e ∈ exprs → xpath s tree e = []) → comments_loop exprs s tree cb d = Ok s.
Proof.
  induction exprs as [|e rest IH]; intros Hno; simpl; [reflexivity |].
  rewrite (Hno e) by left. apply IH. intros e' He'. apply Hno. right. exact He'.
Qed.

(** C4, as amended.  When no candidate query matches an element,
    [extract_comments] returns a new, empty comments tree and the
    document is what it was.  A query that matches nothing is skipped.
    A query that matches but leaves the comments tree empty is followed
    by the next query, run on the document as the pruning, the stripping
    of wrappers and the text helpers left it; the matched subtree is not
    detached.  The first query that leaves the comments tree non-empty
    ends the loop: the matched subtree is removed from its parent, and
    the result does not depend on the queries that follow. *)
Theorem extract_comments_frame (s : store) (tree cb : nat) (dedupbool : bool)
    (e : expr) (rest : list expr) :
  let body := mk_node "body" [] None None None [] in
  ((∀ x, x ∈ COMMENTS_XPATH → xpath (s ++ [body]) tree x = []) →
   extract_comments s tree dedupbool =
     Ok (s ++ [body], (length s, trim (join " " []), py_len (trim (join " " [])), tree))) ∧
  (xpath s tree e = [] →
   comments_loop (e :: rest) s tree cb dedupbool = comments_loop rest s tree cb dedupbool) ∧
  (∀ subtree more, xpath s tree e = subtree :: more →
   let s1 := (harvest_comments s cb subtree dedupbool).1 in
   let sub1 := (harvest_comments s cb subtree dedupbool).2 in
   (len s1 cb = 0 →
    comments_loop (e :: rest) s tree cb dedupbool = comments_loop rest s1 tree cb dedupbool) ∧
   (0 < len s1 cb →
    comments_loop (e :: rest) s tree cb dedupbool = remove_from_parent s1 sub1 ∧
    ∀ p, getparent s1 sub1 = Some p →
      remove_from_parent s1 sub1 = Ok (remove s1 p sub1) ∧
      getparent (remove s1 p sub1) sub1 = None ∧
      children_of (remove s1 p sub1) p = remove_first sub1 (children_of s1 p) ∧
      (wf s1 → ∀ q, sub1 ∉ children_of (remove s1 p sub1) q))).
Proof.
  intros body. split_and!.
  - intros Hno. unfold extract_comments, Element. fold body.
    rewrite comments_loop_no_match by exact Hno.
    assert (Hit : itertext (s ++ [body]) (length s) = []).
    { unfold itertext. rewrite length_app. simpl. rewrite Nat.add_1_r. simpl.
      unfold text_of, children_of. rewrite get_new. reflexivity. }
    rewrite Hit. reflexivity.
  - intros Hno. simpl. rewrite Hno. reflexivity.
  - intros subtree more Hm s1 sub1. split.
    + intros Hlen. simpl. rewrite Hm.
      destruct (harvest_comments s cb subtree dedupbool) as [s1' sub1'] eqn:Hh.
      subst s1 sub1. simpl in *.
      rewrite bool_decide_eq_false_2 by lia. reflexivity.
    + intros Hlen.
      assert (Hrun : comments_loop (e :: rest) s tree cb dedupbool
                     = remove_from_parent s1 sub1).
      { simpl. rewrite Hm.
        destruct (harvest_comments s cb subtree dedupbool) as [s1' sub1'] eqn:Hh.
        subst s1 sub1. simpl in *.
        rewrite bool_decide_eq_true_2 by lia. reflexivity. }
      split; [exact Hrun |].
      intros p Hp. split_and!.
      * unfold remove_from_parent. rewrite Hp. reflexivity.
      * rewrite parent_remove. rewrite decide_True by reflexivity.
        rewrite decide_True by (eapply parent_in_range, Hp). reflexivity.
      * rewrite children_remove. rewrite decide_True by reflexivity. reflexivity.
      * intros Hwf q Hq.
        pose proof (wf_remove s1 p sub1 Hwf Hp) as (_ & Hch & _).
        destruct (Hch q sub1 Hq) as [Hpar _].
        rewrite parent_remove in Hpar. rewrite decide_True in Hpar by reflexivity.
        rewrite decide_True in Hpar by (eapply parent_in_range, Hp). discriminate.
Qed.

End Comments.

(** C4 as stated fails: the only candidate query matches the section of
    the sample page and finds no comment in it; the comments tree is
    empty, and yet the wrapper inside the section is gone from the
    document and its text sits in the section. *)
Lemma extract_comments_changes_document :
  ∃ s', @Core.extract_comments Sample.utils Sample.settings Sample.htmlprocessing
          Sample.xpaths Sample.idle_section 0 false = Ok (s', (4, "", 0%Z, 0)) ∧
        Lxml.children_of s' 4 = [] ∧
        Lxml.children_of Sample.idle_section 2 = [3] ∧
        Lxml.children_of s' 2 = [] ∧
        Lxml.text_of Sample.idle_section 2 = None ∧
        Lxml.text_of s' 2 = Some "x".
Proof. eexists. vm_compute. split_and!; reflexivity. Qed.

(** C4, amended, on the samples: the article page has no comment
    section and is left as it is; the section of the commented page is
    removed from its body. *)
Lemma extract_comments_frame_witness :
  @Core.extract_comments Sample.utils Sample.settings Sample.htmlprocessing Sample.xpaths
    Sample.article_page 0 false
  = Ok (Sample.article_page ++ [Lxml.mk_node "body" [] None None None []],
        (4, "", 0%Z, 0)) ∧
  (∃ s2, @Core.comments_loop Sample.settings Sample.htmlprocessing Sample.xpaths
           ["section"] (Sample.commented ++ [Lxml.mk_node "body" [] None None None []])
           0 4 false = Ok s2 ∧
         Lxml.getparent s2 2 = None ∧ Lxml.children_of s2 1 = []).
Proof.
  split.
  - destruct (@extract_comments_frame Sample.utils Sample.settings Sample.htmlprocessing
                Sample.xpaths Sample.article_page 0 0 false "section" []) as (Hnone & _).
    rewrite Hnone; [reflexivity |].
    intros x Hx. apply list_elem_of_singleton in Hx. subst x. vm_compute. reflexivity.
  - destruct (@extract_comments_frame Sample.utils Sample.settings Sample.htmlprocessing
                Sample.xpaths
                (Sample.commented ++ [Lxml.mk_node "body" [] None None None []])
                0 4 false "section" []) as (_ & _ & Hhit).
    destruct (Hhit 2 [] ltac:(vm_compute; reflexivity)) as [_ Hfound].
    destruct Hfound as [Hrun Hdetach]; [vm_compute; lia |].
    destruct (Hdetach 1 ltac:(vm_compute; reflexivity)) as (Hok & Hpar & Hch & _).
    eexists. split; [exact (eq_trans Hrun Hok) |].
    split; [exact Hpar |]. rewrite Hch. vm_compute. reflexivity.
Defined.

(** ** The confidence flag of the main content extractor *)

Section Confidence.
Context `{Utils} `{Settings} `{HtmlProcessing} `{Filters} `{Handlers} `{XPaths}.
Import Lxml Etree Core.

(** A round that ends the loop leaves a content tree with children. *)
Lemma content_candidate_break (it dd : bool) (tree rb : nat) (s s1 : store) (e : expr) :
  content_candidate it dd tree rb s e = Ok (s1, Break) → 0 < len s1 rb.
Proof.
  unfold content_candidate. intros Hc.
  repeat (match type of Hc with
          | context [match ?x with _ => _ end] => destruct x eqn:?; try discriminate
          | context [if ?b then _ else _] => destruct b eqn:?; try discriminate
          end).
  all: inversion Hc; subst;
    match goal with
    | Hb : bool_decide (0 < _) = true |- _ => apply bool_decide_eq_true in Hb; exact Hb
    end.
Qed.

(** The loop sets the flag exactly when one of its rounds ends it. *)
Lemma content_loop_flag (it dd : bool) (tree rb : nat) (exprs : list expr) (s s1 : store) :
  content_loop it dd tree rb exprs s = Ok (s1, true) ↔
  ∃ pre e post sa, exprs = pre ++ e :: post ∧
    content_loop it dd tree rb pre s = Ok (sa, false) ∧
    content_candidate it dd tree rb sa e = Ok (s1, Break).
Proof.
  revert s. induction exprs as [|e rest IH]; intros s; simpl.
  - split; [discriminate |]. intros (pre & e & post & sa & Heq & _).
    destruct pre; discriminate.
  - destruct (content_candidate it dd tree rb s e) as [[s2 [|]]|x] eqn:Hc.
    + rewrite IH. split.
      * intros (pre & e' & post & sa & -> & Hpre & Hhit).
        exists (e :: pre), e', post, sa. split; [reflexivity |].
        split; [simpl; rewrite Hc; exact Hpre | exact Hhit].
      * intros (pre & e' & post & sa & Heq & Hpre & Hhit).
        destruct pre as [|e0 pre]; simpl in *.
        -- inversion Heq; subst. inversion Hpre; subst. rewrite Hc in Hhit. discriminate.
        -- inversion Heq; subst. rewrite Hc in Hpre.
           exists pre, e', post, sa. split; [reflexivity | split; assumption].
    + split.
      * intros Heq. inversion Heq; subst.
        exists [], e, rest, s. split; [reflexivity |]. split; [reflexivity | exact Hc].
      * intros (pre & e' & post & sa & Heq & Hpre & Hhit).
        destruct pre as [|e0 pre]; simpl in *.
        -- inversion Heq; subst. inversion Hpre; subst. rewrite Hc in Hhit.
           inversion Hhit. reflexivity.
        -- inversion Heq; subst. rewrite Hc in Hpre. discriminate.
    + split; [discriminate |].
      intros (pre & e' & post & sa & Heq & Hpre & Hhit).
      destruct pre as [|e0 pre]; simpl in *.
      * inversion Heq; subst. inversion Hpre; subst. rewrite Hc in Hhit. discriminate.
      * inversion Heq; subst. rewrite Hc in Hpre. discriminate.
Qed.

(** C5. The confidence flag that [extract_content] returns is the flag
    of the loop over the candidate queries, which runs before the
    recovery of wild paragraphs.  It is true exactly when some candidate
    query, tried after all earlier ones had left the content tree empty,
    produced a content tree with children; so a content tree that is
    empty when the recovery starts comes with a false flag. *)
Theorem sure_thing_meaning (s s' : store) (tree : nat) (it dd : bool)
    (r : nat) (text : string) (n : Z) (flag : bool) :
  extract_content s tree it dd = Ok (s', (r, text, n, flag)) →
  let s0 := s ++ [mk_node "body" [] None None None []] in
  let result_body := length s in
  r = result_body ∧
  ∃ s1, content_loop it dd tree result_body BODY_XPATH s0 = Ok (s1, flag) ∧
    (flag = true ↔
     ∃ pre e post sa, BODY_XPATH = pre ++ e :: post ∧
       content_loop it dd tree result_body pre s0 = Ok (sa, false) ∧
       content_candidate it dd tree result_body sa e = Ok (s1, Break) ∧
       0 < len s1 result_body) ∧
    (len s1 result_body = 0 → flag = false).
Proof.
  intros Hx s0 result_body. unfold extract_content, Element in Hx.
  fold s0 result_body in Hx.
  destruct (content_loop it dd tree result_body BODY_XPATH s0) as [[s1 f]|x] eqn:Hloop;
    [| discriminate].
  assert (Hflag : f = flag ∧ r = result_body).
  { destruct (bool_decide (len s1 result_body = 0)
              || bool_decide (py_len (trim (join " " (itertext s1 result_body)))
                              < MIN_EXTRACTED_SIZE)%Z);
      [destruct (recover_wild_paragraphs s1 tree result_body dd) eqn:Hr;
       unfold recover_wild_paragraphs in Hr;
       repeat (match type of Hr with
               | context [let '(_, _) := ?x in _] => destruct x
               end);
       inversion Hr; subst |];
      inversion Hx; subst; split; reflexivity. }
  destruct Hflag as [-> ->]. split; [reflexivity |].
  exists s1. split; [reflexivity |].
  assert (Hiff : flag = true ↔
            ∃ pre e post sa, BODY_XPATH = pre ++ e :: post ∧
              content_loop it dd tree result_body pre s0 = Ok (sa, false) ∧
              content_candidate it dd tree result_body sa e = Ok (s1, Break) ∧
              0 < len s1 result_body).
  { split.
    - intros ->. apply content_loop_flag in Hloop as (pre & e & post & sa & Heq & Hpre & Hhit).
      exists pre, e, post, sa. split_and!; try assumption.
      eapply content_candidate_break, Hhit.
    - intros (pre & e & post & sa & Heq & Hpre & Hhit & _).
      assert (Ht : content_loop it dd tree result_body BODY_XPATH s0 = Ok (s1, true))
        by (apply content_loop_flag; exists pre, e, post, sa; split_and!; assumption).
      rewrite Hloop in Ht. inversion Ht. reflexivity. }
  split; [exact Hiff |].
  intros Hempty. destruct flag; [| reflexivity].
  destruct (proj1 Hiff eq_refl) as (_ & _ & _ & _ & _ & _ & _ & Hpos). lia.
Qed.

End Confidence.

(** C5 on the article page: the query for the article produces the
    content tree, and the flag is true. *)
Lemma sure_thing_meaning_witness :
  @Core.extract_content Sample.utils Sample.settings Sample.htmlprocessing Sample.filters
    Sample.handlers Sample.xpaths Sample.article_page 0 true false
  = Ok (Sample.article_store, (4, "Some words of an article.", 25%Z, true)) ∧
  ∃ s1, @Core.content_loop Sample.utils Sample.settings Sample.htmlprocessing Sample.filters
          Sample.handlers Sample.xpaths true false 0 4 ["article"; "main"]
          (Sample.article_page ++ [Lxml.mk_node "body" [] None None None []])
        = Ok (s1, true).
Proof.
  assert (Hx : @Core.extract_content Sample.utils Sample.settings Sample.htmlprocessing
                 Sample.filters Sample.handlers Sample.xpaths Sample.article_page 0 true false
               = Ok (Sample.article_store, (4, "Some words of an article.", 25%Z, true)))
    by (vm_compute; reflexivity).
  split; [exact Hx |].
  destruct (sure_thing_meaning _ _ _ _ _ _ _ _ _ Hx) as (_ & s1 & Hloop & _).
  exists s1. exact Hloop.
Defined.

(** ** Tables *)

Section Tables.
Context `{HtmlProcessing}.
Import Lxml Etree Table TableSpec TableAmended.







Local Opaque apply_rewrite.






End Tables.


(** C6 as it was worded fails on two tables.  A nested table that comes
    before the first row boundary ends the walk, and the table is
    discarded although a row behind it holds a cell.  A nested table
    that comes behind the first row ends the walk as well: the row that
    follows it in the outer table is lost, where the description only
    leaves the nested table out. *)
Lemma handle_table_stops_early :
  (@Table.handle_table Sample.htmlprocessing Sample.nested_first 0).2 = None ∧
  (@TableSpec.handle_table Sample.htmlprocessing Sample.nested_first 0).2 =
    Some (Fresh.El "table" [] None
            [Fresh.El "row" [] None [Fresh.El "cell" [] (Some "x") [] None] None;
             Fresh.El "row" [] None [Fresh.El "cell" [] (Some "a") [] None] None] None) ∧
  (@Table.handle_table Sample.htmlprocessing Sample.nested_later 0).2 =
    Some (Fresh.El "table" [] None
            [Fresh.El "row" [] None [Fresh.El "cell" [] (Some "a") [] None] None] None) ∧
  (@TableSpec.handle_table Sample.htmlprocessing Sample.nested_later 0).2 =
    Some (Fresh.El "table" [] None
            [Fresh.El "row" [] None [Fresh.El "cell" [] (Some "a") [] None] None;
             Fresh.El "row" [] None [Fresh.El "cell" [] (Some "b") [] None] None] None).
Proof. split_and!; vm_compute; reflexivity. Qed.

(** ** Failures of the fallback algorithms *)

Section Fallbacks.
Context `{Utils} `{Settings} `{HtmlProcessing} `{Readability} `{Justext}.
Import Lxml Etree External Arbiter.

(** The errors that [try_readability] catches. *)
Definition caught_by_readability (x : exn) : bool :=
match x with
| SerialisationError | Unparseable => true
| _ => false
end.

(** The stop list [try_justext] passes to justext. *)
Definition chosen_stoplist (target_language : option string) : stoplist :=
match target_language ≫= λ l, JUSTEXT_LANGUAGES !! l with
| Some langsetting => get_stoplist langsetting
| None => JT_STOPLIST
end.

(** A fresh element has no child and no text. *)
Lemma fresh_element_empty (s : store) (t : string) :
  len (Element s t).1 (Element s t).2 = 0 ∧ itertext (Element s t).1 (Element s t).2 = [].
Proof.
  unfold Element, len, itertext. simpl. rewrite length_app. simpl.
  rewrite Nat.add_1_r. simpl. unfold text_of, children_of. rewrite get_new.
  split; reflexivity.
Qed.

Lemma remove_all_raises (l : list nat) (s : store) (x : exn) :
  remove_all s l = Raise x → x = AttributeError.
Proof.
  revert s. induction l as [|e l IH]; intros s; simpl; [discriminate |].
  unfold remove_from_parent. destruct (getparent s e) as [p|].
  - apply IH.
  - intros Hr. inversion Hr. reflexivity.
Qed.

Lemma sanitize_tree_raises (s : store) (tree : nat) (fmt : bool) (x : exn) :
  sanitize_tree s tree fmt = Raise x → x = AttributeError.
Proof.
  unfold sanitize_tree. destruct (remove_all s (xpath_sanitized s tree)) as [s1|y] eqn:Hrm.
  - destruct (prune_html _ _) as [s3 t3]. destruct (convert_tags _ _ _ _) as [s4 t4].
    discriminate.
  - intros Hr. inversion Hr. subst y. eapply remove_all_raises. exact Hrm.
Qed.

Lemma try_readability_raises (s : store) (htmlinput : nat) (url : option string) (x : exn) :
  try_readability s htmlinput url = Raise x →
  summary s htmlinput url = Raise x ∧ caught_by_readability x = false.
Proof.
  unfold try_readability. destruct (summary s htmlinput url) as [r|y]; [discriminate |].
  destruct y; intros Hr; inversion Hr; subst; split; reflexivity.
Qed.

Lemma try_justext_raises (s : store) (tree : nat) (lang : option string) (x : exn) :
  try_justext s tree lang = Raise x →
  justext (Element s "body").1 tree (chosen_stoplist lang) = Raise x ∧ x ≠ ValueError.
Proof.
  unfold try_justext, chosen_stoplist. simpl.
  destruct (justext _ tree _) as [ps|y]; [discriminate |].
  destruct y; intros Hr; inversion Hr; subst; split; (reflexivity || discriminate).
Qed.

Lemma justext_rescue_raises (s : store) (tree : nat) (lang : option string)
    (postbody : nat) (len_text : Z) (text : string) (x : exn) :
  justext_rescue s tree lang postbody len_text text = Raise x →
  justext (Element s "body").1 tree (chosen_stoplist lang) = Raise x ∧ x ≠ ValueError.
Proof.
  unfold justext_rescue. destruct (try_justext s tree lang) as [[s1 [t|]]|y] eqn:Htry.
  - case_bool_decide; discriminate.
  - discriminate.
  - intros Hr. inversion Hr. subst y. apply try_justext_raises. exact Htry.
Qed.

Lemma justext_rescue_caught (s : store) (tree : nat) (lang : option string)
    (postbody : nat) (len_text : Z) (text : string) :
  justext (Element s "body").1 tree (chosen_stoplist lang) = Raise ValueError →
  justext_rescue s tree lang postbody len_text text =
    Ok ((Element s "body").1, (postbody, text, len_text, false)).
Proof.
  intros Hjt. unfold justext_rescue, try_justext. simpl.
  unfold chosen_stoplist in Hjt. simpl in Hjt. rewrite Hjt. reflexivity.
Qed.

Lemma try_readability_caught (s : store) (htmlinput : nat) (url : option string) (x : exn) :
  summary s htmlinput url = Raise x → caught_by_readability x = true →
  try_readability s htmlinput url = Ok (Element s "div").
Proof.
  intros Hsum Hx. unfold try_readability. rewrite Hsum.
  destruct x; try discriminate Hx; reflexivity.
Qed.

(** C8. A failure of a fallback algorithm that the helpers name is
    caught there.  When readability raises a serialisation error or
    finds the document unparseable, [try_readability] returns a fresh
    [div] with no child and no text.  When justext raises [ValueError],
    [justext_rescue] hands back the body, the text and the length it was
    given, with a false flag.  When both fail in this way and the empty
    [div] has a text of length zero, [compare_extraction] keeps the body
    it was given: it returns it as it is, or through [sanitize_tree].
    An exception that reaches the caller of [compare_extraction] is the
    [AttributeError] of [sanitize_tree], an exception of readability
    other than the two that are caught, or an exception of justext other
    than [ValueError]. *)
Theorem fallback_failures_caught (s : store) (tree backup_tree : nat) (url : option string)
    (body : nat) (text : string) (len_text : Z) (target_language : option string)
    (include_formatting : bool) :
  (∀ x, summary s backup_tree url = Raise x → caught_by_readability x = true →
     try_readability s backup_tree url = Ok (Element s "div") ∧
     len (Element s "div").1 (Element s "div").2 = 0 ∧
     itertext (Element s "div").1 (Element s "div").2 = []) ∧
  (justext (Element s "body").1 tree (chosen_stoplist target_language) = Raise ValueError →
     justext_rescue s tree target_language body len_text text =
       Ok ((Element s "body").1, (body, text, len_text, false))) ∧
  (∀ x, summary s backup_tree url = Raise x → caught_by_readability x = true →
     let s1 := (Element s "div").1 in
     let s2 := (Element s1 "body").1 in
     justext s2 tree (chosen_stoplist target_language) = Raise ValueError →
     py_len (trim (join " " [])) = 0%Z →
     compare_extraction s tree backup_tree url body text len_text target_language
       include_formatting =
     match xpath_sanitized s1 body with
     | _ :: _ => sanitize_tree s2 body include_formatting
     | [] => if bool_decide (len_text < MIN_EXTRACTED_SIZE)%Z
             then sanitize_tree s2 body include_formatting
             else Ok (s1, (body, text, len_text))
     end) ∧
  (∀ x, compare_extraction s tree backup_tree url body text len_text target_language
          include_formatting = Raise x →
     x = AttributeError ∨
     (summary s backup_tree url = Raise x ∧ caught_by_readability x = false) ∨
     (∃ s1, justext s1 tree (chosen_stoplist target_language) = Raise x ∧ x ≠ ValueError)).
Proof.
  split_and!.
  - intros x Hsum Hx. split; [eapply try_readability_caught; eassumption |].
    apply fresh_element_empty.
  - apply justext_rescue_caught.
  - intros x Hsum Hx s1 s2 Hjt Hzero. unfold compare_extraction.
    rewrite (try_readability_caught _ _ _ _ Hsum Hx).
    destruct (fresh_element_empty s "div") as [_ Hit].
    change (itertext s1 (length s) = []) in Hit.
    change (Element s "div") with (s1, length s). cbv beta iota.
    rewrite Hit, Hzero.
    assert (Hflag : algo_flag len_text 0 (xpath_p_text s1 body) = false).
    { unfold algo_flag, choose_arm. rewrite bool_decide_eq_true_2 by (left; reflexivity).
      reflexivity. }
    rewrite Hflag.
    rewrite !(justext_rescue_caught s1 tree target_language) by exact Hjt.
    fold s2. destruct (xpath_sanitized s1 body); reflexivity.
  - intros x Hrun. unfold compare_extraction in Hrun.
    destruct (try_readability s backup_tree url) as [[s1 algo]|y] eqn:Hread.
    + assert (Hsan : ∀ t b, sanitize_tree t b include_formatting = Raise x →
                       x = AttributeError) by (intros t b; apply sanitize_tree_raises).
      assert (Hjr : ∀ b l t, justext_rescue s1 tree target_language b l t = Raise x →
                      ∃ s', justext s' tree (chosen_stoplist target_language) = Raise x
                            ∧ x ≠ ValueError)
        by (intros b l t Hj; eexists; eapply justext_rescue_raises; exact Hj).
      destruct (algo_flag _ _ _);
        destruct (xpath_sanitized s1 _);
        repeat match type of Hrun with
               | context [justext_rescue ?a ?b ?c ?d ?e ?f] =>
                   let Hj := fresh "Hj" in
                   destruct (justext_rescue a b c d e f) as [[s2 [[[b2 t2] l2] [|]]]|y] eqn:Hj
               | context [bool_decide ?P] => destruct (bool_decide P)
               end;
        first [ discriminate Hrun
              | left; eapply Hsan; exact Hrun
              | right; right; inversion Hrun; subst; eapply Hjr; eassumption ].
    + inversion Hrun. subst y. right. left. apply try_readability_raises. exact Hread.
Qed.

End Fallbacks.

(** C8 on the samples, with a readability that finds every document
    unparseable and a justext that raises [ValueError]: the helpers
    return the empty [div] and the false flag, the arbiter returns the
    content it was given, and the one exception that reaches its caller
    is the [AttributeError] of [sanitize_tree] on a tree whose root is a
    [nav]. *)
Lemma fallback_failures_caught_witness :
  @External.try_readability Sample.readability_unparseable Sample.article_store 0 None
    = Ok (Lxml.Element Sample.article_store "div") ∧
  @External.justext_rescue Sample.utils Sample.settings Sample.justext_value_error
    Sample.article_store 0 None 4 25 "Some words of an article."
    = Ok ((Lxml.Element Sample.article_store "body").1,
          (4, "Some words of an article.", 25%Z, false)) ∧
  @Arbiter.compare_extraction Sample.utils Sample.settings Sample.htmlprocessing
    Sample.readability_unparseable Sample.justext_value_error
    Sample.article_store 0 0 None 4 "Some words of an article." 25 None false
    = Ok ((Lxml.Element (Lxml.Element Sample.article_store "div").1 "body").1,
          (4, "Some words of an article.", 25%Z)) ∧
  (AttributeError = AttributeError ∨
   (@summary Sample.readability_unparseable [Lxml.mk_node "nav" [] None None None []] 0 None
      = Raise AttributeError ∧ caught_by_readability AttributeError = false) ∨
   (∃ s1, @justext Sample.justext_value_error s1 0
            (@chosen_stoplist Sample.settings Sample.justext_value_error None)
          = Raise AttributeError ∧ AttributeError ≠ ValueError)).
Proof.
  destruct (@fallback_failures_caught Sample.utils Sample.settings Sample.htmlprocessing
              Sample.readability_unparseable Sample.justext_value_error
              Sample.article_store 0 0 None 4 "Some words of an article." 25 None false)
    as (Hread & Hrescue & Hboth & _).
  destruct (@fallback_failures_caught Sample.utils Sample.settings Sample.htmlprocessing
              Sample.readability_unparseable Sample.justext_value_error
              [Lxml.mk_node "nav" [] None None None []] 0 0 None 0 "" 0 None false)
    as (_ & _ & _ & Hraise).
  split_and!.
  - apply (Hread Unparseable); reflexivity.
  - apply Hrescue. reflexivity.
  - rewrite (Hboth Unparseable) by reflexivity. vm_compute. reflexivity.
  - apply Hraise. vm_compute. reflexivity.
Defined.

(** ** The metadata record across the JSON output *)

Section JsonOutput.
Context `{Utils} `{PyLib}.
Import Lxml Xml Output.

(** What [sep.join(v)] returns, when it returns. *)
Definition joined (sep : string) (v : pyval) : option string :=
match v with
| PList l => Some (join sep l)
| PStr x => Some (join sep (map (λ c, String c EmptyString) (String.list_ascii_of_string x)))
| PNone => None
end.

(** The record after the renaming and the joins of [build_json_output]. *)
Definition renamed (d : dict) (u h e : pyval) (jc jt : string) : dict :=
<["tags" := PStr jt]> (<["categories" := PStr jc]> (<["excerpt" := e]> (delete "description"
  (<["source-hostname" := h]> (delete "hostname" (<["source" := u]> (delete "url" d))))))).

Lemma alter_insert_at (f : dict → dict) (ds : list dict) (r : nat) (d : dict) :
  <[r := d]> ds !! r = Some d → alter f r (<[r := d]> ds) = <[r := f d]> ds.
Proof.
  revert r. induction ds as [|x ds IH]; intros [|r]; simpl; intros Hd; try discriminate.
  - reflexivity.
  - f_equal. apply IH. exact Hd.
Qed.

Lemma pop_at (t : store) (ds : list dict) (tr : list event) (r : nat) (k : string)
    (v : pyval) (d : dict) :
  r < length ds → d !! k = Some v →
  dict_pop r k (mk_world t (<[r := d]> ds) tr)
  = (mk_world t (<[r := delete k d]> ds) tr, Ok v).
Proof.
  intros Hr Hk. unfold dict_pop, the_dict. simpl.
  rewrite list_lookup_insert_eq by exact Hr. simpl. rewrite Hk.
  rewrite alter_insert_at by (apply list_lookup_insert_eq; exact Hr). reflexivity.
Qed.

Lemma set_at (t : store) (ds : list dict) (tr : list event) (r : nat) (k : string)
    (v : pyval) (d : dict) :
  r < length ds →
  dict_set r k v (mk_world t (<[r := d]> ds) tr)
  = (mk_world t (<[r := <[k := v]> d]> ds) tr, Ok ()).
Proof.
  intros Hr. unfold dict_set. simpl.
  rewrite alter_insert_at by (apply list_lookup_insert_eq; exact Hr). reflexivity.
Qed.

Lemma get_at (t : store) (ds : list dict) (tr : list event) (r : nat) (k : string)
    (v : pyval) (d : dict) :
  r < length ds → d !! k = Some v →
  dict_get r k (mk_world t (<[r := d]> ds) tr) = (mk_world t (<[r := d]> ds) tr, Ok v).
Proof.
  intros Hr Hk. unfold dict_get, the_dict. simpl.
  rewrite list_lookup_insert_eq by exact Hr. simpl. rewrite Hk. reflexivity.
Qed.

Lemma join_at (sep : string) (v : pyval) (j : string) (w : world) :
  joined sep v = Some j → py_join sep v w = (w, Ok j).
Proof. destruct v; simpl; intros Hj; inversion Hj; reflexivity. Qed.

Lemma trees_at {A} (f : store → store * A) (w : world) :
  on_trees f w = (mk_world (f (trees w)).1 (dicts w) (trace w), Ok (f (trees w)).2).
Proof. unfold on_trees. destruct (f (trees w)). reflexivity. Qed.

(** Looks a key up through the insertions and deletions before it. *)
Ltac look :=
  repeat first [ rewrite lookup_insert_eq | rewrite lookup_delete_eq
               | rewrite lookup_insert_ne by discriminate
               | rewrite lookup_delete_ne by discriminate ];
  first [eassumption | reflexivity].

Ltac step tac := erewrite bind_ok by tac; cbv beta.

(** The run of [build_json_output] on a record that has the keys. *)
Lemma build_json_output_run (t : store) (ds : list dict) (tr : list event)
    (docmeta postbody : nat) (commentsbody : option nat) (d : dict)
    (u h e vc vt : pyval) (jc jt : string) :
  docmeta < length ds →
  d !! "url" = Some u → d !! "hostname" = Some h → d !! "description" = Some e →
  d !! "categories" = Some vc → d !! "tags" = Some vt →
  joined ";" vc = Some jc → joined ";" vt = Some jt →
  let post := xmltotxt t postbody in
  let d1 := <["text" := PStr post.2]> (renamed d u h e jc jt) in
  build_json_output docmeta postbody commentsbody (mk_world t (<[docmeta := d]> ds) tr) =
  match commentsbody with
  | Some c =>
      let comm := xmltotxt post.1 c in
      let d2 := <["comments" := PStr comm.2]> d1 in
      (mk_world comm.1 (<[docmeta := d2]> ds) tr, Ok (json_dumps d2))
  | None => (mk_world post.1 (<[docmeta := d1]> ds) tr, Raise AttributeError)
  end.
Proof.
  intros Hr Hu Hh He Hc Ht Hjc Hjt post d1. unfold build_json_output.
  step ltac:(apply pop_at; [exact Hr | look]).
  step ltac:(apply set_at; exact Hr).
  step ltac:(apply pop_at; [exact Hr | look]).
  step ltac:(apply set_at; exact Hr).
  step ltac:(apply pop_at; [exact Hr | look]).
  step ltac:(apply set_at; exact Hr).
  step ltac:(apply get_at; [exact Hr | look]).
  step ltac:(apply join_at; exact Hjc).
  step ltac:(apply set_at; exact Hr).
  step ltac:(apply get_at; [exact Hr | look]).
  step ltac:(apply join_at; exact Hjt).
  step ltac:(apply set_at; exact Hr).
  step ltac:(apply trees_at). simpl trees. simpl dicts. simpl trace.
  step ltac:(apply set_at; exact Hr).
  fold (renamed d u h e jc jt). fold post. fold d1.
  destruct commentsbody as [c|].
  - step ltac:(apply trees_at). simpl trees. simpl dicts. simpl trace.
    step ltac:(apply set_at; exact Hr).
    unfold get_world, mbind, M_bind, mret, M_ret, the_dict. simpl.
    rewrite list_lookup_insert_eq by exact Hr. reflexivity.
  - erewrite bind_raise; [reflexivity | reflexivity].
Qed.

(** C9. [build_json_output] works on the record it is given: no
    dictionary is created, the other dictionaries are left alone, and
    the record itself is changed.  For a record that holds the keys
    [url], [hostname] and [description], and whose [categories] and
    [tags] can be joined, the record afterwards has no key [url],
    [hostname] or [description]; their values are under [source],
    [source-hostname] and [excerpt]; [categories] and [tags] hold the
    strings joined with a semicolon; and the record differs from what
    it was.  This is so when the call returns the JSON string, and also
    when it raises for want of a comments tree. *)
Theorem build_json_output_mutates (w : world) (docmeta postbody : nat)
    (commentsbody : option nat) (d : dict) (u h e vc vt : pyval) (jc jt : string) :
  dicts w !! docmeta = Some d →
  d !! "url" = Some u → d !! "hostname" = Some h → d !! "description" = Some e →
  d !! "categories" = Some vc → d !! "tags" = Some vt →
  joined ";" vc = Some jc → joined ";" vt = Some jt →
  let w' := (build_json_output docmeta postbody commentsbody w).1 in
  let d' := the_dict w' docmeta in
  (d' !! "url" = None ∧ d' !! "hostname" = None ∧ d' !! "description" = None) ∧
  (d' !! "source" = Some u ∧ d' !! "source-hostname" = Some h ∧ d' !! "excerpt" = Some e) ∧
  (d' !! "categories" = Some (PStr jc) ∧ d' !! "tags" = Some (PStr jt)) ∧
  d' ≠ d ∧
  length (dicts w') = length (dicts w) ∧
  (∀ r, r ≠ docmeta → dicts w' !! r = dicts w !! r) ∧
  (∀ c, commentsbody = Some c →
     (build_json_output docmeta postbody commentsbody w).2 = Ok (json_dumps d')) ∧
  (commentsbody = None →
     (build_json_output docmeta postbody commentsbody w).2 = Raise AttributeError).
Proof.
  intros Hd Hu Hh He Hc Ht Hjc Hjt. destruct w as [t ds tr]. simpl in Hd.
  assert (Hr : docmeta < length ds) by (eapply lookup_lt_Some; exact Hd).
  pose proof (build_json_output_run t ds tr docmeta postbody commentsbody d
                u h e vc vt jc jt Hr Hu Hh He Hc Ht Hjc Hjt) as Hrun.
  rewrite (list_insert_id ds docmeta d Hd) in Hrun. cbv zeta in Hrun.
  intros w' d'. subst d' w'. rewrite Hrun. clear Hrun.
  assert (Hrec : ∀ tail : dict → dict,
            (∀ x k, k ≠ "text" → k ≠ "comments" → tail x !! k = x !! k) →
            let d' := tail (renamed d u h e jc jt) in
            (d' !! "url" = None ∧ d' !! "hostname" = None ∧ d' !! "description" = None) ∧
            (d' !! "source" = Some u ∧ d' !! "source-hostname" = Some h
             ∧ d' !! "excerpt" = Some e) ∧
            (d' !! "categories" = Some (PStr jc) ∧ d' !! "tags" = Some (PStr jt)) ∧
            d' ≠ d).
  { intros tail Htail d'. unfold d'.
    assert (Hurl : tail (renamed d u h e jc jt) !! "url" = None)
      by (rewrite Htail by discriminate; unfold renamed; look).
    split_and!; try (rewrite Htail by discriminate; unfold renamed; look).
    intros Heq. rewrite Heq in Hurl. congruence. }
  destruct commentsbody as [c|]; simpl; unfold the_dict; simpl;
    rewrite list_lookup_insert_eq by exact Hr; simpl.
  - destruct (Hrec (λ x, <["comments" := PStr (xmltotxt (xmltotxt t postbody).1 c).2]>
                           (<["text" := PStr (xmltotxt t postbody).2]> x)))
      as (Hgone & Hnew & Hjoin & Hdiff).
    { intros x k Hk1 Hk2. rewrite !lookup_insert_ne by congruence. reflexivity. }
    split; [exact Hgone |]. split; [exact Hnew |]. split; [exact Hjoin |].
    split; [exact Hdiff |]. split_and!.
    + apply length_insert.
    + intros r Hne. apply list_lookup_insert_ne. congruence.
    + intros c' _. reflexivity.
    + discriminate.
  - destruct (Hrec (λ x, <["text" := PStr (xmltotxt t postbody).2]> x))
      as (Hgone & Hnew & Hjoin & Hdiff).
    { intros x k Hk1 Hk2. rewrite !lookup_insert_ne by congruence. reflexivity. }
    split; [exact Hgone |]. split; [exact Hnew |]. split; [exact Hjoin |].
    split; [exact Hdiff |]. split_and!.
    + apply length_insert.
    + intros r Hne. apply list_lookup_insert_ne. congruence.
    + discriminate.
    + reflexivity.
Qed.

End JsonOutput.

(** The record of an article, as the metadata extraction fills it. *)
Definition article_record : dict :=
list_to_map [("title", PStr "T"); ("author", PNone); ("url", PStr "http://a.b/c");
             ("hostname", PStr "a.b"); ("description", PStr "About."); ("sitename", PNone);
             ("date", PNone); ("categories", PList ["x"; "y"]); ("tags", PList ["z"]);
             ("id", PNone); ("fingerprint", PNone)].

(** The extracted article, a comments tree next to it, and the record. *)
Definition article_world : world :=
mk_world (Lxml.Element Sample.article_store "body").1 [article_record] [].

(** C9 on the record of the article: after the call the record held by
    the caller has lost [url], [hostname] and [description], and its
    categories are one string. *)
Lemma build_json_output_mutates_witness :
  let w' := (@Output.build_json_output Sample.utils Sample.pylib 0 4 (Some 5) article_world).1 in
  the_dict article_world 0 !! "url" = Some (PStr "http://a.b/c") ∧
  the_dict w' 0 !! "url" = None ∧
  the_dict w' 0 !! "source" = Some (PStr "http://a.b/c") ∧
  the_dict w' 0 !! "categories" = Some (PStr "x;y") ∧
  the_dict w' 0 !! "tags" = Some (PStr "z") ∧
  length (dicts w') = 1.
Proof.
  destruct (@build_json_output_mutates Sample.utils Sample.pylib article_world 0 4 (Some 5)
              article_record (PStr "http://a.b/c") (PStr "a.b") (PStr "About.")
              (PList ["x"; "y"]) (PList ["z"]) "x;y" "z")
    as ((Hurl & _) & (Hsource & _) & (Hcat & Htag) & _ & Hlen & _);
    try (vm_compute; reflexivity).
  split_and!; [vm_compute; reflexivity | exact Hurl | exact Hsource | exact Hcat
              | exact Htag | exact Hlen].
Defined.

(** * Further properties of the code *)

(** ** The output format *)

Section Formats.
Import Output.

(** X1. [map_format]: a format other than txt is returned as it is,
    whatever the flags; for txt the first flag that is set, in the
    order csv, json, xml, tei, gives the format, and txt stays txt when
    no flag is set.  Mapping twice is mapping once. *)
Theorem map_format_priority (fmt : format) (csv json xml tei : bool) :
  map_format Csv csv json xml tei = Csv ∧
  map_format Json csv json xml tei = Json ∧
  map_format XmlFmt csv json xml tei = XmlFmt ∧
  map_format XmlTei csv json xml tei = XmlTei ∧
  map_format Txt csv json xml tei =
    (if csv then Csv else if json then Json else if xml then XmlFmt
     else if tei then XmlTei else Txt) ∧
  map_format (map_format fmt csv json xml tei) csv json xml tei
    = map_format fmt csv json xml tei.
Proof.
  split_and!; try reflexivity.
  - destruct csv, json, xml, tei; reflexivity.
  - destruct fmt, csv, json, xml, tei; reflexivity.
Qed.

End Formats.

(** ** Attributes and the XML output tree *)

Section XmlOutput.
Import Lxml Etree Xml Output.

Lemma same_links_iter (n : nat) (s s' : store) (r : nat) :
  same_links s s' → iter_fuel n s' r = iter_fuel n s r.
Proof.
  intros [_ Hl]. revert r. induction n as [|n IH]; intros r; simpl; [reflexivity |].
  destruct (Hl r) as (_ & _ & _ & ->). f_equal. apply bind_ext_in. intros x _. apply IH.
Qed.

Lemma attrib_alter (v : list (string * string)) (s : store) (e y : nat) :
  attrib_of (alter (with_attrib v) e s) y =
  if decide (y = e ∧ e < length s) then v else attrib_of s y.
Proof.
  unfold attrib_of. destruct (decide (y = e)) as [-> | Hne].
  - destruct (decide (e < length s)) as [Hlt | Hge].
    + rewrite get_alter_eq by exact Hlt. rewrite decide_True by (split; [reflexivity | exact Hlt]).
      reflexivity.
    + rewrite decide_False by (intros [_ Hlt]; exact (Hge Hlt)).
      rewrite !get_out by (rewrite ?length_alter; lia). reflexivity.
  - rewrite get_alter_ne by exact Hne. rewrite decide_False by (intros [Heq _]; exact (Hne Heq)).
    reflexivity.
Qed.

Lemma alter_fixed (f : node → node) (s : store) (e : nat) :
  (∀ n, s !! e = Some n → f n = n) → alter f e s = s.
Proof.
  intros Hf. apply list_eq. intros i. rewrite list_lookup_alter.
  destruct (decide (e = i)) as [-> | Hne]; [| reflexivity].
  destruct (s !! i) as [n|] eqn:Hn; simpl; [| reflexivity]. rewrite Hf by reflexivity.
  reflexivity.
Qed.

(** One round of the loop of [clean_attributes]. *)
Definition clean_step (s : store) (elem : nat) : store :=
if str_in (tag_of s elem) ["del"; "hi"] then s else attrib_clear s elem.

Lemma clean_step_shape (s : store) (elem : nat) :
  same_links s (clean_step s elem) ∧
  (∀ y, tag_of (clean_step s elem) y = tag_of s y) ∧
  (∀ y, attrib_of (clean_step s elem) y =
        if decide (y = elem ∧ str_in (tag_of s elem) ["del"; "hi"] = false)
        then [] else attrib_of s y).
Proof.
  unfold clean_step. destruct (str_in (tag_of s elem) ["del"; "hi"]) eqn:Htag.
  - split_and!; [apply same_links_refl | reflexivity |].
    intros y. rewrite decide_False by (intros [_ Hf]; discriminate). reflexivity.
  - unfold attrib_clear, set_attrib. split_and!.
    + apply same_links_alter; reflexivity.
    + intros y. unfold tag_of. apply (field_alter n_tag). reflexivity.
    + intros y. rewrite attrib_alter.
      destruct (decide (y = elem)) as [-> | Hne].
      * rewrite (decide_True (P := elem = elem ∧ false = false)) by done.
        destruct (decide (elem = elem ∧ elem < length s)) as [_ | Hout]; [reflexivity |].
        unfold attrib_of. rewrite get_out; [reflexivity |].
        destruct (decide (elem < length s)); [exfalso; apply Hout; done | lia].
      * rewrite !decide_False by (intros [Heq _]; exact (Hne Heq)). reflexivity.
Qed.

Lemma clean_fold (l : list nat) (s : store) :
  let s' := foldl clean_step s l in
  same_links s s' ∧
  (∀ y, tag_of s' y = tag_of s y) ∧
  (∀ y, y ∈ l → str_in (tag_of s y) ["del"; "hi"] = false → attrib_of s' y = []) ∧
  (∀ y, y ∉ l ∨ str_in (tag_of s y) ["del"; "hi"] = true → attrib_of s' y = attrib_of s y) ∧
  (∀ y, attrib_of s y = [] → attrib_of s' y = []).
Proof.
  revert s. induction l as [|e l IH]; intros s; simpl.
  - split_and!; [apply same_links_refl | reflexivity | | reflexivity | auto].
    intros y Hy. inversion Hy.
  - destruct (clean_step_shape s e) as (Hl1 & Ht1 & Ha1).
    destruct (IH (clean_step s e)) as (Hl2 & Ht2 & Hc2 & Hk2 & He2).
    assert (Hempty : ∀ y, attrib_of s y = [] → attrib_of (clean_step s e) y = []).
    { intros y Hy. rewrite Ha1. destruct (decide _); [reflexivity | exact Hy]. }
    split_and!.
    + eapply same_links_trans; eassumption.
    + intros y. rewrite Ht2, Ht1. reflexivity.
    + intros y Hy Htag. destruct (decide (y ∈ l)) as [Hin | Hnin].
      * apply Hc2; [exact Hin | rewrite Ht1; exact Htag].
      * apply elem_of_cons in Hy as [-> | Hy]; [| contradiction].
        apply He2. rewrite Ha1. rewrite decide_True by done. reflexivity.
    + intros y Hy. rewrite Hk2.
      * rewrite Ha1. rewrite decide_False; [reflexivity |].
        intros [-> Htag]. destruct Hy as [Hy | Hy]; [apply Hy; left | congruence].
      * destruct Hy as [Hy | Hy]; [left; intros Hin; apply Hy; right; exact Hin |].
        right. rewrite Ht1. exact Hy.
    + intros y Hy. apply He2, Hempty, Hy.
Qed.

Lemma clean_fold_again (l l' : list nat) (s : store) :
  (∀ y, y ∈ l' → str_in (tag_of s y) ["del"; "hi"] = false → attrib_of s y = []) →
  foldl clean_step s l' = s.
Proof.
  revert s. induction l' as [|e l' IH]; intros s Hs; simpl; [reflexivity |].
  assert (Hstep : clean_step s e = s).
  { unfold clean_step. destruct (str_in (tag_of s e) ["del"; "hi"]) eqn:Htag; [reflexivity |].
    unfold attrib_clear, set_attrib. apply alter_fixed. intros n Hn.
    assert (Ha : attrib_of s e = []) by (apply Hs; [left | exact Htag]).
    unfold attrib_of, get in Ha. rewrite Hn in Ha. simpl in Ha.
    destruct n. simpl in *. subst. reflexivity. }
  rewrite Hstep. apply IH. intros y Hy. apply Hs. right. exact Hy.
Qed.

(** X2. [clean_attributes] empties the attributes of every element of
    the tree except [del] and [hi], whose attributes it keeps, as it
    keeps those of every element outside the tree.  Tags, texts, tails
    and links are what they were.  A second pass changes nothing. *)
Theorem clean_attributes_scope (s : store) (tree : nat) :
  let s' := clean_attributes s tree in
  (∀ y, str_in (tag_of s y) ["del"; "hi"] = false ∧ y ∈ iter s tree →
        attrib_of s' y = []) ∧
  (∀ y, str_in (tag_of s y) ["del"; "hi"] = true ∨ y ∉ iter s tree →
        attrib_of s' y = attrib_of s y) ∧
  (∀ y, tag_of s' y = tag_of s y ∧ text_of s' y = text_of s y ∧ tail_of s' y = tail_of s y ∧
        getparent s' y = getparent s y ∧ children_of s' y = children_of s y) ∧
  length s' = length s ∧
  clean_attributes s' tree = s'.
Proof.
  intros s'. destruct (clean_fold (iter s tree) s) as (Hl & Ht & Hc & Hk & _).
  change (foldl clean_step s (iter s tree)) with s' in *.
  split_and!.
  - intros y [Htag Hin]. apply Hc; assumption.
  - intros y [Htag | Hout]; apply Hk; [right | left]; assumption.
  - intros y. destruct Hl as [_ Hl]. destruct (Hl y) as (? & ? & ? & ?). rewrite Ht. done.
  - apply Hl.
  - unfold clean_attributes. fold clean_step.
    unfold iter. destruct Hl as [Hlen Hl']. rewrite Hlen.
    rewrite (same_links_iter _ s s') by (split; assumption).
    apply (clean_fold_again (iter s tree)). intros y Hy Htag.
    apply Hc; [exact Hy | rewrite <- Ht; exact Htag].
Qed.

Lemma children_set_children (s : store) (p q : nat) (v : list nat) :
  children_of (set_children s p v) q =
  if decide (q = p ∧ p < length s) then v else children_of s q.
Proof.
  unfold children_of, set_children. destruct (decide (q = p)) as [-> | Hne].
  - destruct (decide (p < length s)) as [Hlt | Hge].
    + rewrite get_alter_eq by exact Hlt. rewrite decide_True by done. reflexivity.
    + rewrite decide_False by (intros [_ Hlt]; exact (Hge Hlt)).
      rewrite !get_out by (rewrite ?length_alter; lia). reflexivity.
  - rewrite get_alter_ne by exact Hne. rewrite decide_False by (intros [Heq _]; exact (Hne Heq)).
    reflexivity.
Qed.

Lemma parent_set_parent (s : store) (e x : nat) (v : option nat) :
  getparent (set_parent s e v) x =
  if decide (x = e ∧ e < length s) then v else getparent s x.
Proof.
  unfold getparent, set_parent. destruct (decide (x = e)) as [-> | Hne].
  - destruct (decide (e < length s)) as [Hlt | Hge].
    + rewrite get_alter_eq by exact Hlt. rewrite decide_True by done. reflexivity.
    + rewrite decide_False by (intros [_ Hlt]; exact (Hge Hlt)).
      rewrite !get_out by (rewrite ?length_alter; lia). reflexivity.
  - rewrite get_alter_ne by exact Hne. rewrite decide_False by (intros [Heq _]; exact (Hne Heq)).
    reflexivity.
Qed.

Lemma remove_first_absent (e : nat) (l : list nat) : e ∉ l → remove_first e l = l.
Proof.
  induction l as [|a l IH]; intros Hn; simpl; [reflexivity |].
  rewrite bool_decide_eq_false_2 by (intros ->; apply Hn; left).
  rewrite IH; [reflexivity |]. intros Hin. apply Hn. right. exact Hin.
Qed.

(** The element [e], a root of the store, becomes the last child of [p]. *)
Definition attach (s : store) (p e : nat) : store :=
set_parent (set_children s p (children_of s p ++ [e])) e (Some p).

Lemma attach_links (s : store) (p e : nat) :
  wf s → getparent s e = None → e < length s → p < length s →
  let s' := attach s p e in
  wf s' ∧
  (∀ x, getparent s' x = if decide (x = e) then Some p else getparent s x) ∧
  (∀ q, children_of s' q = if decide (q = p) then children_of s p ++ [e] else children_of s q).
Proof.
  intros Hwf Hroot He Hp s'.
  assert (Hpar : ∀ x, getparent s' x = if decide (x = e) then Some p else getparent s x).
  { intros x. unfold s', attach. rewrite parent_set_parent.
    assert (Hl0 : length (set_children s p (children_of s p ++ [e])) = length s)
      by (unfold set_children; apply length_alter).
    rewrite Hl0.
    destruct (decide (x = e)) as [-> | Hne].
    - rewrite decide_True by done. reflexivity.
    - rewrite decide_False by (intros [Heq _]; exact (Hne Heq)).
      unfold getparent, set_children. apply (field_alter n_parent). reflexivity. }
  assert (Hch : ∀ q, children_of s' q =
                     if decide (q = p) then children_of s p ++ [e] else children_of s q).
  { intros q. unfold s', attach.
    transitivity (children_of (set_children s p (children_of s p ++ [e])) q).
    - unfold children_of, set_parent. apply (field_alter n_children). reflexivity.
    - rewrite children_set_children. destruct (decide (q = p)) as [-> | Hne].
      + rewrite decide_True by done. reflexivity.
      + rewrite decide_False by (intros [Heq _]; exact (Hne Heq)). reflexivity. }
  assert (Hlen : length s' = length s).
  { unfold s', attach, set_parent, set_children. rewrite !length_alter. reflexivity. }
  destruct Hwf as (Hnd & Hkid & Hup).
  assert (Hfree : ∀ q, e ∉ children_of s q).
  { intros q Hin. destruct (Hkid q e Hin) as [Hq _]. congruence. }
  split_and!; [split_and! | exact Hpar | exact Hch].
  - intros q. rewrite Hch. destruct (decide (q = p)) as [-> | Hne]; [| apply Hnd].
    apply NoDup_app. split_and!; [apply Hnd | | apply NoDup_singleton].
    intros x Hx Hx'. apply list_elem_of_singleton in Hx'. subst x. exact (Hfree p Hx).
  - intros q c Hc. rewrite Hch in Hc. rewrite Hpar, Hlen.
    destruct (decide (q = p)) as [-> | Hne].
    + apply elem_of_app in Hc as [Hc | Hc].
      * destruct (decide (c = e)) as [-> | Hce]; [split; [reflexivity | exact He] |].
        apply Hkid. exact Hc.
      * apply list_elem_of_singleton in Hc. subst c. rewrite decide_True by reflexivity.
        split; [reflexivity | exact He].
    + destruct (decide (c = e)) as [-> | Hce]; [exfalso; exact (Hfree q Hc) |].
      apply Hkid. exact Hc.
  - intros c q Hc. rewrite Hpar in Hc. rewrite Hch.
    destruct (decide (c = e)) as [-> | Hce].
    + inversion Hc. subst q. rewrite decide_True by reflexivity.
      apply elem_of_app. right. left.
    + destruct (decide (q = p)) as [-> | Hne].
      * apply elem_of_app. left. apply Hup. exact Hc.
      * apply Hup. exact Hc.
Qed.

(** [append] on a well-formed store: the element leaves its parent,
    if it has one, and becomes the last child of [p]. *)
Lemma append_links (s : store) (p e : nat) :
  wf s → e < length s → p < length s →
  let s' := append s p e in
  wf s' ∧ length s' = length s ∧
  (∀ x, getparent s' x = if decide (x = e) then Some p else getparent s x) ∧
  (∀ q, children_of s' q =
        if decide (q = p) then remove_first e (children_of s p) ++ [e]
        else remove_first e (children_of s q)) ∧
  (∀ y, tag_of s' y = tag_of s y ∧ attrib_of s' y = attrib_of s y ∧
        text_of s' y = text_of s y ∧ tail_of s' y = tail_of s y).
Proof.
  intros Hwf He Hp s'.
  set (s1 := match getparent s e with Some q => remove s q e | None => s end).
  assert (Hs' : s' = attach s1 p e) by reflexivity.
  assert (H1 : wf s1 ∧ length s1 = length s ∧ getparent s1 e = None ∧
               (∀ x, x ≠ e → getparent s1 x = getparent s x) ∧
               (∀ q, children_of s1 q = remove_first e (children_of s q)) ∧
               (∀ y, get s1 y = get s y ∨
                     (n_tag (get s1 y) = n_tag (get s y) ∧
                      n_attrib (get s1 y) = n_attrib (get s y) ∧
                      n_text (get s1 y) = n_text (get s y) ∧
                      n_tail (get s1 y) = n_tail (get s y)))).
  { unfold s1. destruct (getparent s e) as [q|] eqn:Hq.
    - split_and!.
      + apply wf_remove; assumption.
      + unfold remove, set_parent, set_children. rewrite !length_alter. reflexivity.
      + rewrite parent_remove. rewrite decide_True by reflexivity.
        rewrite decide_True by exact He. reflexivity.
      + intros x Hx. rewrite parent_remove. rewrite decide_False by exact Hx. reflexivity.
      + intros q'. rewrite children_remove. destruct (decide (q' = q)) as [-> | Hne].
        * reflexivity.
        * rewrite remove_first_absent; [reflexivity |].
          intros Hin. destruct Hwf as (_ & Hkid & _). destruct (Hkid q' e Hin) as [Hq' _].
          congruence.
      + intros y. right. unfold remove, set_parent, set_children.
        split_and!.
        * rewrite !(field_alter n_tag) by reflexivity. reflexivity.
        * rewrite !(field_alter n_attrib) by reflexivity. reflexivity.
        * rewrite !(field_alter n_text) by reflexivity. reflexivity.
        * rewrite !(field_alter n_tail) by reflexivity. reflexivity.
    - split_and!; try done.
      + intros q'. rewrite remove_first_absent; [reflexivity |].
        intros Hin. destruct Hwf as (_ & Hkid & _). destruct (Hkid q' e Hin) as [Hq' _].
        congruence.
      + intros y. left. reflexivity. }
  destruct H1 as (Hwf1 & Hlen1 & Hroot1 & Hpar1 & Hch1 & Hsame1).
  destruct (attach_links s1 p e Hwf1 Hroot1) as (Hwf' & Hpar' & Hch'); [lia | lia |].
  rewrite Hs'. split_and!.
  - exact Hwf'.
  - unfold attach, set_parent, set_children. rewrite !length_alter. exact Hlen1.
  - intros x. rewrite Hpar'. destruct (decide (x = e)); [reflexivity | apply Hpar1; assumption].
  - intros q. rewrite Hch'. rewrite !Hch1. reflexivity.
  - intros y. unfold tag_of, attrib_of, text_of, tail_of, attach, set_parent, set_children.
    rewrite !(field_alter n_tag), !(field_alter n_attrib), !(field_alter n_text),
            !(field_alter n_tail) by reflexivity.
    destruct (Hsame1 y) as [-> | (-> & -> & -> & ->)]; done.
Qed.

Lemma get_snoc (s : store) (n : node) (q : nat) :
  get (s ++ [n]) q = if decide (q = length s) then n else get s q.
Proof.
  destruct (decide (q = length s)) as [-> | Hne]; [apply get_new |].
  unfold get. destruct (decide (q < length s)) as [Hlt | Hge].
  - rewrite lookup_app_l by exact Hlt. reflexivity.
  - rewrite !lookup_ge_None_2; [reflexivity | lia |].
    rewrite length_app. simpl. lia.
Qed.

Lemma wf_Element (s : store) (t : string) : wf s → wf (Element s t).1.
Proof.
  intros (Hnd & Hkid & Hup). unfold Element. simpl.
  set (n := mk_node t [] None None None []).
  assert (Hch : ∀ q, children_of (s ++ [n]) q = children_of s q).
  { intros q. unfold children_of. rewrite get_snoc. destruct (decide (q = length s)) as [-> |].
    - rewrite get_out by lia. reflexivity.
    - reflexivity. }
  assert (Hpar : ∀ q, getparent (s ++ [n]) q = getparent s q).
  { intros q. unfold getparent. rewrite get_snoc. destruct (decide (q = length s)) as [-> |].
    - rewrite get_out by lia. reflexivity.
    - reflexivity. }
  split_and!.
  - intros p. rewrite Hch. apply Hnd.
  - intros p e He. rewrite Hch in He. rewrite Hpar, length_app. simpl.
    destruct (Hkid p e He). split; [assumption | lia].
  - intros e p He. rewrite Hpar in He. rewrite Hch. apply Hup. exact He.
Qed.

Lemma tag_set_tag (s : store) (e y : nat) (v : string) :
  tag_of (set_tag s e v) y = if decide (y = e ∧ e < length s) then v else tag_of s y.
Proof.
  unfold tag_of, set_tag. destruct (decide (y = e)) as [-> | Hne].
  - destruct (decide (e < length s)) as [Hlt | Hge].
    + rewrite get_alter_eq by exact Hlt. rewrite decide_True by done. reflexivity.
    + rewrite decide_False by (intros [_ Hlt]; exact (Hge Hlt)).
      rewrite !get_out by (rewrite ?length_alter; lia). reflexivity.
  - rewrite get_alter_ne by exact Hne. rewrite decide_False by (intros [Heq _]; exact (Hne Heq)).
    reflexivity.
Qed.

Lemma set_tag_links (s : store) (e : nat) (v : string) :
  (wf s → wf (set_tag s e v)) ∧ length (set_tag s e v) = length s ∧
  ∀ y, attrib_of (set_tag s e v) y = attrib_of s y ∧
       text_of (set_tag s e v) y = text_of s y ∧ tail_of (set_tag s e v) y = tail_of s y ∧
       getparent (set_tag s e v) y = getparent s y ∧
       children_of (set_tag s e v) y = children_of s y.
Proof.
  split_and!.
  - apply wf_alter; reflexivity.
  - unfold set_tag. apply length_alter.
  - intros y. unfold attrib_of, text_of, tail_of, getparent, children_of, set_tag.
    rewrite (field_alter n_attrib), (field_alter n_text), (field_alter n_tail),
            (field_alter n_parent), (field_alter n_children) by reflexivity.
    done.
Qed.

(** X3. [build_xml_output] wraps the trees it is given: on a
    well-formed store it creates a [doc] element, retags the post body
    [main] and the comments body [comments], and makes them, in this
    order, the children of the [doc].  The caller's trees are the ones
    that are retagged and moved; their texts and tails are kept. *)
Theorem build_xml_output_wraps (s : store) (postbody : nat) (commentsbody : option nat) :
  wf s → postbody < length s →
  (∀ c, commentsbody = Some c → c < length s ∧ c ≠ postbody) →
  let s' := (build_xml_output s postbody commentsbody).1 in
  let output := (build_xml_output s postbody commentsbody).2 in
  output = length s ∧ length s' = S (length s) ∧ wf s' ∧
  tag_of s' output = "doc" ∧ getparent s' output = None ∧
  children_of s' output = postbody :: option_list commentsbody ∧
  tag_of s' postbody = "main" ∧ getparent s' postbody = Some output ∧
  (∀ c, commentsbody = Some c → tag_of s' c = "comments" ∧ getparent s' c = Some output) ∧
  (∀ y, text_of s' y = text_of s y ∧ tail_of s' y = tail_of s y) ∧
  (∀ y, y ≠ postbody → Some y ≠ commentsbody → y < length s → tag_of s' y = tag_of s y).
Proof.
  intros Hwf Hpb Hcb. unfold build_xml_output, Element.
  set (doc := mk_node "doc" [] None None None []).
  set (s1 := s ++ [doc]). set (output := length s).
  assert (Hwf1 : wf s1) by (apply (wf_Element s "doc"), Hwf).
  assert (Hlen1 : length s1 = S (length s)) by (unfold s1; rewrite length_app; simpl; lia).
  assert (Hget1 : ∀ q, q ≠ output → get s1 q = get s q).
  { intros q Hq. unfold s1. rewrite get_snoc. rewrite decide_False by exact Hq. reflexivity. }
  assert (Hdoc : get s1 output = doc) by apply get_new.
  set (s1' := set_tag s1 postbody "main").
  destruct (set_tag_links s1 postbody "main") as (Hwf1' & Hlen1' & Hsame1').
  fold s1' in Hwf1', Hlen1', Hsame1'. specialize (Hwf1' Hwf1).
  destruct (append_links s1' output postbody Hwf1') as (Hwf2 & Hlen2 & Hpar2 & Hch2 & Hsame2);
    [lia | unfold output; lia |].
  set (s2 := append s1' output postbody) in *.
  assert (Hout_ch1 : children_of s1' output = []).
  { destruct (Hsame1' output) as (_ & _ & _ & _ & ->). unfold children_of. rewrite Hdoc.
    reflexivity. }
  assert (Hout2 : children_of s2 output = [postbody]).
  { rewrite Hch2. rewrite decide_True by reflexivity. rewrite Hout_ch1. reflexivity. }
  assert (Htag2 : ∀ y, tag_of s2 y = if decide (y = postbody) then "main" else tag_of s1 y).
  { intros y. destruct (Hsame2 y) as (-> & _). unfold s1'. rewrite tag_set_tag.
    destruct (decide (y = postbody)) as [-> | Hne].
    - rewrite decide_True by (split; [reflexivity | lia]). reflexivity.
    - rewrite decide_False by (intros [Heq _]; exact (Hne Heq)). reflexivity. }
  assert (Htext2 : ∀ y, text_of s2 y = text_of s y ∧ tail_of s2 y = tail_of s y).
  { intros y. destruct (Hsame2 y) as (_ & _ & -> & ->).
    destruct (Hsame1' y) as (_ & -> & -> & _).
    unfold text_of, tail_of. destruct (decide (y = output)) as [-> | Hne].
    - rewrite Hdoc. rewrite get_out by (unfold output; lia). done.
    - rewrite Hget1 by exact Hne. done. }
  assert (Hpar_out2 : getparent s2 output = None).
  { rewrite Hpar2. rewrite decide_False by (unfold output; lia).
    destruct (Hsame1' output) as (_ & _ & _ & -> & _). unfold getparent. rewrite Hdoc.
    reflexivity. }
  assert (Hclean : ∀ t, let t' := clean_attributes t output in
            length t' = length t ∧ (wf t → wf t') ∧
            ∀ y, tag_of t' y = tag_of t y ∧ text_of t' y = text_of t y ∧
                 tail_of t' y = tail_of t y ∧ getparent t' y = getparent t y ∧
                 children_of t' y = children_of t y).
  { intros t t'. destruct (clean_fold (iter t output) t) as (Hl & Ht & _).
    change (foldl clean_step t (iter t output)) with t' in *.
    split_and!; [apply Hl | intros Hw; eapply same_links_wf; eassumption |].
    intros y. destruct Hl as [_ Hl]. destruct (Hl y) as (? & ? & ? & ?). rewrite Ht. done. }
  destruct commentsbody as [c|]; simpl.
  - destruct (Hcb c eq_refl) as [Hc Hne].
    set (s2' := set_tag s2 c "comments").
    destruct (set_tag_links s2 c "comments") as (Hwf2' & Hlen2' & Hsame2').
    fold s2' in Hwf2', Hlen2', Hsame2'. specialize (Hwf2' Hwf2).
    destruct (append_links s2' output c Hwf2') as (Hwf3 & Hlen3 & Hpar3 & Hch3 & Hsame3);
      [lia | unfold output; lia |].
    set (s3 := append s2' output c) in *.
    destruct (Hclean s3) as (Hlen' & Hwf' & Hsame').
    split_and!.
    + reflexivity.
    + lia.
    + apply Hwf', Hwf3.
    + destruct (Hsame' output) as (-> & _). destruct (Hsame3 output) as (-> & _).
      unfold s2'. rewrite tag_set_tag. rewrite decide_False by (unfold output; lia).
      rewrite Htag2. rewrite decide_False by (unfold output; lia).
      unfold tag_of. rewrite Hdoc. reflexivity.
    + destruct (Hsame' output) as (_ & _ & _ & -> & _). rewrite Hpar3.
      rewrite decide_False by (unfold output; lia).
      destruct (Hsame2' output) as (_ & _ & _ & -> & _). exact Hpar_out2.
    + destruct (Hsame' output) as (_ & _ & _ & _ & ->). rewrite Hch3.
      rewrite decide_True by reflexivity.
      destruct (Hsame2' output) as (_ & _ & _ & _ & ->). rewrite Hout2. simpl.
      rewrite bool_decide_eq_false_2 by (intros Heq; apply Hne; symmetry; exact Heq).
      reflexivity.
    + destruct (Hsame' postbody) as (-> & _). destruct (Hsame3 postbody) as (-> & _).
      unfold s2'. rewrite tag_set_tag.
      rewrite decide_False by (intros [Heq _]; apply Hne; symmetry; exact Heq).
      rewrite Htag2. rewrite decide_True by reflexivity. reflexivity.
    + destruct (Hsame' postbody) as (_ & _ & _ & -> & _). rewrite Hpar3.
      rewrite decide_False by (intros Heq; apply Hne; symmetry; exact Heq).
      destruct (Hsame2' postbody) as (_ & _ & _ & -> & _). rewrite Hpar2.
      rewrite decide_True by reflexivity. reflexivity.
    + intros c' Hc'. inversion Hc'. subst c'. split.
      * destruct (Hsame' c) as (-> & _). destruct (Hsame3 c) as (-> & _).
        unfold s2'. rewrite tag_set_tag. rewrite decide_True by (split; [reflexivity | lia]).
        reflexivity.
      * destruct (Hsame' c) as (_ & _ & _ & -> & _). rewrite Hpar3.
        rewrite decide_True by reflexivity. reflexivity.
    + intros y. destruct (Hsame' y) as (_ & -> & -> & _).
      destruct (Hsame3 y) as (_ & _ & -> & ->). destruct (Hsame2' y) as (_ & -> & -> & _).
      apply Htext2.
    + intros y Hy1 Hy2 Hy3. destruct (Hsame' y) as (-> & _). destruct (Hsame3 y) as (-> & _).
      unfold s2'. rewrite tag_set_tag.
      rewrite decide_False by (intros [Heq _]; apply Hy2; rewrite Heq; reflexivity).
      rewrite Htag2. rewrite decide_False by exact Hy1.
      unfold tag_of. rewrite Hget1 by (unfold output; lia). reflexivity.
  - destruct (Hclean s2) as (Hlen' & Hwf' & Hsame').
    split_and!.
    + reflexivity.
    + lia.
    + apply Hwf', Hwf2.
    + destruct (Hsame' output) as (-> & _). rewrite Htag2.
      rewrite decide_False by (unfold output; lia). unfold tag_of. rewrite Hdoc. reflexivity.
    + destruct (Hsame' output) as (_ & _ & _ & -> & _). exact Hpar_out2.
    + destruct (Hsame' output) as (_ & _ & _ & _ & ->). exact Hout2.
    + destruct (Hsame' postbody) as (-> & _). rewrite Htag2.
      rewrite decide_True by reflexivity. reflexivity.
    + destruct (Hsame' postbody) as (_ & _ & _ & -> & _). rewrite Hpar2.
      rewrite decide_True by reflexivity. reflexivity.
    + intros c' Hc'. discriminate.
    + intros y. destruct (Hsame' y) as (_ & -> & -> & _). apply Htext2.
    + intros y Hy1 Hy2 Hy3. destruct (Hsame' y) as (-> & _).
      rewrite Htag2. rewrite decide_False by exact Hy1.
      unfold tag_of. rewrite Hget1 by (unfold output; lia). reflexivity.
Qed.

End XmlOutput.

(** ** Serialising twice *)

Section Reserialise.
Context `{Utils}.
Import Lxml Etree Xml.

Lemma getroot_root (s : store) (x : nat) : getparent s x = None → getroot s x = x.
Proof.
  intros Hx. unfold getroot. destruct (length s) as [|n]; simpl; [reflexivity |].
  rewrite Hx. reflexivity.
Qed.

(** After the merging pass only the root can still be a [hi] or a [link]. *)
Lemma merged_plain (s : store) (x e : nat) :
  wf s →
  let s' := xmltotxt_merge s x in
  e ∈ iter s' (getroot s x) → e ≠ getroot s x →
  str_in (tag_of s' e) ["hi"; "link"] = false.
Proof.
  intros Hwf s' Hit Hne.
  assert (Hwf' : wf s') by (apply merges_wf, Hwf).
  assert (Hlen : length s' = length s) by apply merges_length.
  destruct (str_in (tag_of s' e) ["hi"; "link"]) eqn:Htag; [| reflexivity].
  exfalso. assert (Hin : e ∈ xpath_hi_link s x).
  { apply in_xpath_hi_link. split.
    - unfold iter in *. rewrite Hlen in Hit. eapply iter_fuel_mono; [| exact Hit].
      intros q. apply merges_children_subseteq.
    - unfold s', xmltotxt_merge in Htag. rewrite merges_tag in Htag. exact Htag. }
  assert (Hnone : getparent s' e = None) by (apply merges_detach, Hin).
  destruct (iter_fuel_child _ _ _ _ Hit) as [Hroot | (q & Hq)]; [exact (Hne Hroot) |].
  destruct Hwf' as (_ & Hch & _). destruct (Hch q e Hq) as [Hp _]. congruence.
Qed.

Lemma merges_of_roots (l : list nat) (s : store) :
  (∀ e, e ∈ l → getparent s e = None) → foldl merge_with_parent s l = s.
Proof.
  induction l as [|e l IH]; intros Hl; simpl; [reflexivity |].
  rewrite merge_no_parent by (apply Hl; left). apply IH. intros x Hx. apply Hl. right. exact Hx.
Qed.

(** X4. [xmltotxt] on the root of a tree of a well-formed store: a
    second call finds nothing left to merge, leaves the tree as the
    first call left it, and returns the same text. *)
Theorem xmltotxt_twice (s : store) (xmloutput : nat) :
  wf s → getparent s xmloutput = None →
  xmltotxt (xmltotxt s xmloutput).1 xmloutput = xmltotxt s xmloutput.
Proof.
  intros Hwf Hroot. unfold xmltotxt. simpl.
  set (s' := xmltotxt_merge s xmloutput).
  assert (Hroot' : getparent s' xmloutput = None) by (apply merges_parent_none, Hroot).
  assert (Hagain : xmltotxt_merge s' xmloutput = s').
  { unfold xmltotxt_merge at 1. apply merges_of_roots. intros e He.
    apply in_xpath_hi_link in He as [Hit Htag].
    rewrite (getroot_root s' _ Hroot') in Hit.
    destruct (decide (e = xmloutput)) as [-> | Hne]; [exact Hroot' |].
    pose proof (merged_plain s xmloutput e Hwf) as Hplain.
    rewrite (getroot_root s _ Hroot) in Hplain. fold s' in Hplain.
    rewrite (Hplain Hit Hne) in Htag. discriminate. }
  rewrite Hagain. reflexivity.
Qed.

End Reserialise.

(** ** What [check_tei] leaves below the body *)

Section TeiConformance.
Import Lxml Etree Xml.

Lemma elem_of_map_fst (kv : string * string) (a : list (string * string)) :
  kv ∈ a → kv.1 ∈ map fst a.
Proof.
  induction a as [|x a IH]; intros Hin; [inversion Hin |].
  apply elem_of_cons in Hin as [-> | Hin]; simpl; [left | right; apply IH, Hin].
Qed.

(** One round of the attribute loop of [check_tei]. *)
Definition pop_step (x : nat) (s : store) (attribute : string) : store :=
if str_in attribute TEI_VALID_ATTRS then s
else set_attrib s x (attr_pop attribute (attrib_of s x)).

Lemma pop_fold (keys : list string) (s : store) (x : nat) :
  let s' := foldl (pop_step x) s keys in
  (∀ y kv, kv ∈ attrib_of s' y → kv ∈ attrib_of s y) ∧
  (∀ kv, kv ∈ attrib_of s' x → kv.1 ∈ keys → str_in kv.1 TEI_VALID_ATTRS = true).
Proof.
  revert s. induction keys as [|k keys IH]; intros s; simpl.
  - split; [auto |]. intros kv _ Hk. inversion Hk.
  - destruct (IH (pop_step x s k)) as [Hsub Hvalid].
    assert (Hstep : ∀ y kv, kv ∈ attrib_of (pop_step x s k) y → kv ∈ attrib_of s y).
    { intros y kv. unfold pop_step. destruct (str_in k TEI_VALID_ATTRS); [auto |].
      unfold set_attrib. rewrite attrib_alter. destruct (decide _) as [[-> _] |]; [| auto].
      unfold attr_pop. rewrite list_elem_of_filter. intros [_ Hin]. exact Hin. }
    split.
    + intros y kv Hin. apply Hstep, Hsub, Hin.
    + intros kv Hin Hk. apply elem_of_cons in Hk as [Hk | Hk]; [| apply Hvalid; assumption].
      destruct (str_in k TEI_VALID_ATTRS) eqn:Hv; [rewrite Hk; exact Hv |].
      exfalso. apply Hsub in Hin. unfold pop_step in Hin. rewrite Hv in Hin.
      unfold set_attrib in Hin. rewrite attrib_alter in Hin.
      destruct (decide (x = x ∧ x < length s)) as [_ | Hout].
      * unfold attr_pop in Hin. apply list_elem_of_filter in Hin as [Hne _]. exact (Hne Hk).
      * unfold attrib_of in Hin. rewrite get_out in Hin; [inversion Hin |].
        destruct (decide (x < length s)); [exfalso; apply Hout; done | lia].
Qed.

Lemma check_element_attrs (s : store) (a : nat) :
  (∀ y kv, kv ∈ attrib_of (check_element s a) y → kv ∈ attrib_of s y) ∧
  (str_in (tag_of s a) TEI_VALID_TAGS = true →
   ∀ kv, kv ∈ attrib_of (check_element s a) a → str_in kv.1 TEI_VALID_ATTRS = true).
Proof.
  unfold check_element. destruct (str_in (tag_of s a) TEI_VALID_TAGS) eqn:Htag.
  - destruct (pop_fold (map fst (attrib_of s a)) s a) as [Hsub Hvalid].
    split; [exact Hsub |]. intros _ kv Hin. apply Hvalid; [exact Hin |].
    apply elem_of_map_fst, Hsub, Hin.
  - split; [| discriminate]. intros y kv. rewrite merge_attrib. auto.
Qed.

Lemma check_elements_attrs (l : list nat) (s : store) :
  let s' := foldl check_element s l in
  (∀ y kv, kv ∈ attrib_of s' y → kv ∈ attrib_of s y) ∧
  (∀ e, e ∈ l → str_in (tag_of s e) TEI_VALID_TAGS = true →
     ∀ kv, kv ∈ attrib_of s' e → str_in kv.1 TEI_VALID_ATTRS = true).
Proof.
  revert s. induction l as [|a l IH]; intros s; simpl.
  - split; [auto |]. intros e He. inversion He.
  - destruct (IH (check_element s a)) as [Hsub Hvalid].
    destruct (check_element_attrs s a) as [Hsub1 Hvalid1].
    split.
    + intros y kv Hin. apply Hsub1, Hsub, Hin.
    + intros e He Htag kv Hin. destruct (decide (e ∈ l)) as [Hl | Hl].
      * eapply Hvalid; [exact Hl | rewrite check_element_tag; exact Htag | exact Hin].
      * apply elem_of_cons in He as [-> | He]; [| contradiction].
        apply Hvalid1; [exact Htag |]. apply Hsub, Hin.
Qed.

Lemma below_reached (n : nat) (s : store) (inside : bool) (r e : nat) :
  e ∈ below_text_body n s inside r → (e = r ∧ inside = true) ∨ ∃ q, e ∈ children_of s q.
Proof.
  revert inside r. induction n as [|n IH]; intros inside r Hin; simpl in Hin; [inversion Hin |].
  apply elem_of_app in Hin as [Hin | Hin].
  - destruct inside; [| inversion Hin]. apply list_elem_of_singleton in Hin. left. done.
  - apply list_elem_of_bind in Hin as (c & Hin & Hc).
    destruct (IH _ _ Hin) as [[-> _] | Hq]; [right; exists r; exact Hc | right; exact Hq].
Qed.

(** The query finds nothing new once children have been removed. *)
Lemma below_mono (n : nat) (s s' : store) (inside : bool) (r e : nat) :
  wf s → wf s' →
  (∀ y, tag_of s' y = tag_of s y) →
  (∀ q, children_of s' q ⊆ children_of s q) →
  getparent s' r = getparent s r →
  e ∈ below_text_body n s' inside r → e ∈ below_text_body n s inside r.
Proof.
  intros Hwf Hwf' Htag Hsub. revert inside r.
  induction n as [|n IH]; intros inside r Hpar Hin; simpl in *; [exact Hin |].
  apply elem_of_app in Hin as [Hin | Hin]; apply elem_of_app; [left; exact Hin | right].
  apply list_elem_of_bind in Hin as (c & Hin & Hc). apply list_elem_of_bind.
  exists c. split; [| apply Hsub, Hc].
  rewrite !Htag, Hpar in Hin.
  assert (Hsame : match getparent s r with
                  | Some p => bool_decide (tag_of s' p = "text")
                  | None => false
                  end = match getparent s r with
                        | Some p => bool_decide (tag_of s p = "text")
                        | None => false
                        end) by (destruct (getparent s r); [rewrite Htag |]; reflexivity).
  rewrite Hsame in Hin. apply IH; [| exact Hin].
  destruct Hwf' as (_ & Hk' & _). destruct Hwf as (_ & Hk & _).
  destruct (Hk' r c Hc) as [-> _]. destruct (Hk r c (Hsub _ _ Hc)) as [-> _]. reflexivity.
Qed.

Lemma convert_head_tag (s : store) (x y : nat) :
  tag_of (convert_head s x) y = if decide (y = x ∧ x < length s) then "fw" else tag_of s y.
Proof.
  unfold convert_head, set, set_attrib.
  transitivity (tag_of (set_tag s x "fw") y).
  - unfold tag_of. apply (field_alter n_tag). reflexivity.
  - apply tag_set_tag.
Qed.

Lemma attr_set_has (k v : string) (a : list (string * string)) : (k, v) ∈ attr_set k v a.
Proof.
  induction a as [|[k' v'] a IH]; simpl; [left |].
  case_bool_decide; [left | right; exact IH].
Qed.

Lemma convert_heads_run (l : list nat) (s : store) :
  let s' := foldl convert_head s l in
  (∀ y, tag_of s' y = if decide (y ∈ l ∧ y < length s) then "fw" else tag_of s y) ∧
  (∀ y, y ∈ l → y < length s → ("type", "header") ∈ attrib_of s' y) ∧
  (∀ y, ("type", "header") ∈ attrib_of s y → ("type", "header") ∈ attrib_of s' y).
Proof.
  revert s. induction l as [|x l IH]; intros s; cbn [foldl].
  - split_and!; [| intros y Hy; inversion Hy | auto].
    intros y. rewrite decide_False; [reflexivity |]. intros [Hy _]. inversion Hy.
  - destruct (IH (convert_head s x)) as (Htag & Hnew & Hkeep).
    assert (Hlen : length (convert_head s x) = length s).
    { unfold convert_head, set, set_attrib, set_tag. rewrite !length_alter. reflexivity. }
    assert (Hattr : ∀ y, ("type", "header") ∈ attrib_of s y ∨ (y = x ∧ x < length s) →
                         ("type", "header") ∈ attrib_of (convert_head s x) y).
    { intros y Hy. unfold convert_head, set, set_attrib. rewrite attrib_alter.
      assert (Hsame : ∀ z, attrib_of (set_tag s x "fw") z = attrib_of s z)
        by (intros z; apply (set_tag_links s x "fw")).
      rewrite !Hsame.
      assert (Hl : length (set_tag s x "fw") = length s) by apply set_tag_links.
      rewrite Hl. destruct (decide (y = x ∧ x < length s)) as [[-> Hx] |Hno].
      - apply attr_set_has.
      - destruct Hy as [Hy | Hy]; [exact Hy | contradiction]. }
    split_and!.
    + intros y. rewrite Htag, Hlen, convert_head_tag.
      destruct (decide (y ∈ l ∧ y < length s)) as [[Hin Hy] | Hno].
      * rewrite decide_True by (split; [right; exact Hin | exact Hy]). reflexivity.
      * destruct (decide (y = x ∧ x < length s)) as [[-> Hx] | Hno'].
        -- rewrite decide_True by (split; [left | exact Hx]). reflexivity.
        -- rewrite decide_False; [reflexivity |]. intros [Hin Hy].
           apply elem_of_cons in Hin as [-> | Hin]; [apply Hno'; done | apply Hno; done].
    + intros y Hy Hlt. destruct (decide (y ∈ l)) as [Hin | Hnin].
      * apply Hnew; [exact Hin | lia].
      * apply elem_of_cons in Hy as [-> | Hy]; [| contradiction].
        apply Hkeep, Hattr. right. done.
    + intros y Hy. apply Hkeep, Hattr. left. exact Hy.
Qed.

Lemma check_tei_post (s : store) (tei : nat) :
  wf s → getparent s tei = None →
  let s' := check_tei s tei in
  (∀ e, e ∈ xpath_text_body s' tei →
     str_in (tag_of s' e) TEI_VALID_TAGS = true ∧
     ∀ kv, kv ∈ attrib_of s' e → str_in kv.1 TEI_VALID_ATTRS = true) ∧
  (∀ e, e ∈ iter s tei → tag_of s e = "head" →
     tag_of s' e = "fw" ∧ ("type", "header") ∈ attrib_of s' e) ∧
  (∀ e, e ∈ iter s tei → tag_of s' e ≠ "head").
Proof.
  intros Hwf Hroot s'.
  set (heads := iter_tags s tei ["head"]).
  set (s1 := foldl convert_head s heads).
  pose proof (convert_heads_links heads s) as Hl1. fold s1 in Hl1.
  assert (Hwf1 : wf s1) by (eapply same_links_wf; eassumption).
  destruct (convert_heads_run heads s) as (Htag1 & Hnew1 & _). fold s1 in Htag1, Hnew1.
  set (targets := xpath_text_body s1 tei).
  destruct (check_elements_run targets s1 Hwf1)
    as (Hwf' & Hlen & Htag & Hsub & Hnone & Hdet & Hattr & _).
  destruct (check_elements_attrs targets s1) as [_ Hvalid].
  change (foldl check_element s1 targets) with s' in *.
  destruct Hl1 as [Hlen1 Hf1].
  assert (Hroot1 : getparent s1 tei = None).
  { destruct (Hf1 tei) as (_ & _ & -> & _). exact Hroot. }
  assert (Hroot' : getparent s' tei = None) by (apply Hnone, Hroot1).
  assert (Hhead : ∀ e, e ∈ iter s tei → tag_of s e = "head" → e ∈ heads ∧ e < length s).
  { intros e He Hh. split.
    - unfold heads, iter_tags. apply list_elem_of_filter. split; [| exact He].
      rewrite Hh. reflexivity.
    - destruct (decide (e < length s)) as [Hlt | Hge]; [exact Hlt |].
      unfold tag_of in Hh. rewrite get_out in Hh by lia. discriminate. }
  split_and!.
  - intros e He.
    assert (Ht : e ∈ targets).
    { unfold targets, xpath_text_body in *.
      rewrite (getroot_root s' _ Hroot') in He. rewrite (getroot_root s1 _ Hroot1).
      rewrite Hlen in He. eapply below_mono; [exact Hwf1 | exact Hwf' | exact Htag | exact Hsub
                                             | | exact He].
      rewrite Hroot', Hroot1. reflexivity. }
    assert (Hok : str_in (tag_of s1 e) TEI_VALID_TAGS = true).
    { destruct (str_in (tag_of s1 e) TEI_VALID_TAGS) eqn:Hbad; [reflexivity |].
      exfalso. pose proof (Hdet e Ht Hbad) as Hgone.
      unfold xpath_text_body in He.
      destruct (below_reached _ _ _ _ _ He) as [[_ Hr] | (q & Hq)]; [discriminate Hr |].
      destruct Hwf' as (_ & Hk & _). destruct (Hk q e Hq). congruence. }
    split; [rewrite Htag; exact Hok |]. apply Hvalid; assumption.
  - intros e He Hh. destruct (Hhead e He Hh) as [Hin Hlt]. split.
    + rewrite Htag, Htag1. rewrite decide_True by done. reflexivity.
    + apply Hattr; [apply Hnew1; assumption |]. unfold TEI_VALID_ATTRS. do 3 right. left.
  - intros e He. rewrite Htag, Htag1.
    destruct (decide (e ∈ heads ∧ e < length s)) as [_ | Hno]; [discriminate |].
    intros Hh. apply Hno. apply Hhead; assumption.
Qed.


(** X5. After [check_tei] on the root of a well-formed tree, every
    element that the query for the body still finds has a tag of the
    TEI set and only attributes of the TEI set, and every [head] of the
    tree has become a [fw] of type [header]: no element of the tree is
    tagged [head] any more. *)
Theorem check_tei_conforms (s : store) (tei : nat) :
  wf s → getparent s tei = None →
  let s' := check_tei s tei in
  (∀ e, e ∈ xpath_text_body s' tei →
     str_in (tag_of s' e) TEI_VALID_TAGS = true ∧
     ∀ kv, kv ∈ attrib_of s' e → str_in kv.1 TEI_VALID_ATTRS = true) ∧
  (∀ e, e ∈ iter s tei → tag_of s e = "head" →
     tag_of s' e = "fw" ∧ ("type", "header") ∈ attrib_of s' e) ∧
  (∀ e, e ∈ iter s tei → tag_of s' e ≠ "head").
Proof.
  intros Hwf Hroot s'.
  destruct (check_tei_post s tei Hwf Hroot) as (Hbody & Hheads & Hnone).
  split_and!; [exact Hbody | exact Hheads | exact Hnone].
Qed.

Lemma filter_none {A} (P : A → Prop) `{∀ x, Decision (P x)} (l : list A) :
  (∀ x, x ∈ l → ¬ P x) → filter P l = [].
Proof.
  induction l as [|a l IH]; intros Hl; [reflexivity |].
  rewrite filter_cons. rewrite decide_False by (apply Hl; left).
  apply IH. intros x Hx. apply Hl. right. exact Hx.
Qed.

Lemma pop_fold_valid (keys : list string) (s : store) (x : nat) :
  (∀ k, k ∈ keys → str_in k TEI_VALID_ATTRS = true) → foldl (pop_step x) s keys = s.
Proof.
  induction keys as [|k keys IH]; intros Hk; cbn [foldl]; [reflexivity |].
  unfold pop_step at 2. rewrite (Hk k) by left. apply IH. intros k' Hk'. apply Hk. right.
  exact Hk'.
Qed.

Lemma elem_of_map_fst_inv (k : string) (a : list (string * string)) :
  k ∈ map fst a → ∃ kv, kv ∈ a ∧ kv.1 = k.
Proof.
  induction a as [|x a IH]; simpl; intros Hin; [inversion Hin |].
  apply elem_of_cons in Hin as [-> | Hin]; [exists x; split; [left | reflexivity] |].
  destruct (IH Hin) as (kv & Hkv & Hk). exists kv. split; [right; exact Hkv | exact Hk].
Qed.

Lemma check_elements_fixed (l : list nat) (s : store) :
  (∀ e, e ∈ l → str_in (tag_of s e) TEI_VALID_TAGS = true ∧
                ∀ kv, kv ∈ attrib_of s e → str_in kv.1 TEI_VALID_ATTRS = true) →
  foldl check_element s l = s.
Proof.
  induction l as [|e l IH]; intros Hl; cbn [foldl]; [reflexivity |].
  assert (Hstep : check_element s e = s).
  { destruct (Hl e) as [Htag Hattr]; [left |]. unfold check_element. rewrite Htag.
    apply (pop_fold_valid _ s e). intros k Hk.
    apply elem_of_map_fst_inv in Hk as (kv & Hkv & <-). apply Hattr, Hkv. }
  rewrite Hstep. apply IH. intros x Hx. apply Hl. right. exact Hx.
Qed.

(** X6. A second [check_tei] on the root of a well-formed tree changes
    nothing: no [head] is left to convert, and every element of the
    body already has a tag and attributes of the TEI set. *)
Theorem check_tei_twice (s : store) (tei : nat) :
  wf s → getparent s tei = None →
  check_tei (check_tei s tei) tei = check_tei s tei.
Proof.
  intros Hwf Hroot. destruct (check_tei_post s tei Hwf Hroot) as (Hbody & _ & Hnone).
  set (s' := check_tei s tei) in *.
  assert (Hiter : ∀ e, e ∈ iter s' tei → e ∈ iter s tei).
  { intros e He.
    pose proof (convert_heads_links (iter_tags s tei ["head"]) s) as [Hlen1 Hl1].
    destruct (check_elements_run (xpath_text_body (foldl convert_head s
                 (iter_tags s tei ["head"])) tei) (foldl convert_head s
                 (iter_tags s tei ["head"])))
      as (_ & Hlen & _ & Hsub & _).
    { eapply same_links_wf; [split; [exact Hlen1 | exact Hl1] | exact Hwf]. }
    change (foldl check_element _ _) with s' in Hlen, Hsub.
    unfold iter in *. rewrite Hlen, Hlen1 in He.
    eapply iter_fuel_mono; [| exact He]. intros q.
    etrans; [apply Hsub |]. destruct (Hl1 q) as (_ & _ & _ & ->). done. }
  unfold check_tei at 1.
  assert (Hheads : iter_tags s' tei ["head"] = []).
  { unfold iter_tags. apply filter_none. intros e He Htag. apply (Hnone e (Hiter e He)).
    unfold str_in in Htag. apply bool_decide_eq_true in Htag.
    apply list_elem_of_singleton in Htag. exact Htag. }
  rewrite Hheads. cbn [foldl]. apply check_elements_fixed. exact Hbody.
Qed.

End TeiConformance.

(** ** The justext fallback *)

Section JustextResult.
Context `{Utils} `{Settings} `{Justext}.
Import Lxml Etree External.

Lemma add_paragraph_get (rb : nat) (s : store) (p : paragraph) (y : nat) :
  rb < length s →
  get (add_paragraph rb s p) y =
  if decide (y = length s) then mk_node "p" [] (Some (p_text p)) None (Some rb) []
  else if decide (y = rb) then with_children (children_of s rb ++ [length s]) (get s rb)
  else get s y.
Proof.
  intros Hrb. unfold add_paragraph, Element, append.
  set (n := mk_node "p" [] None None None []).
  set (e := length s).
  set (s1 := set_text (s ++ [n]) e (Some (p_text p))).
  assert (Hlen1 : length s1 = S (length s)).
  { unfold s1, set_text. rewrite length_alter, length_app. simpl. lia. }
  assert (Hget1 : ∀ z, get s1 z = if decide (z = e) then with_text (Some (p_text p)) n
                                  else get s z).
  { intros z. unfold s1, set_text. destruct (decide (z = e)) as [-> | Hne].
    - rewrite get_alter_eq by (rewrite length_app; simpl; unfold e; lia).
      unfold e. rewrite get_new. reflexivity.
    - rewrite get_alter_ne by exact Hne. rewrite get_snoc. rewrite decide_False by exact Hne.
      reflexivity. }
  assert (Hroot : getparent s1 e = None).
  { unfold getparent. rewrite Hget1. rewrite decide_True by reflexivity. reflexivity. }
  rewrite Hroot.
  assert (Hch : children_of s1 rb = children_of s rb).
  { unfold children_of. rewrite Hget1. rewrite decide_False by (unfold e; lia). reflexivity. }
  rewrite Hch.
  destruct (decide (y = e)) as [-> | Hne].
  - unfold set_parent. rewrite get_alter_eq
      by (unfold set_children; rewrite length_alter; lia).
    unfold set_children. rewrite get_alter_ne by (unfold e; lia).
    rewrite Hget1. rewrite decide_True by reflexivity. reflexivity.
  - unfold set_parent. rewrite get_alter_ne by exact Hne.
    destruct (decide (y = rb)) as [-> | Hne'].
    + unfold set_children. rewrite get_alter_eq by lia.
      rewrite Hget1. rewrite decide_False by exact Hne. reflexivity.
    + unfold set_children. rewrite get_alter_ne by exact Hne'.
      rewrite Hget1. rewrite decide_False by exact Hne. reflexivity.
Qed.

Lemma add_paragraph_length (rb : nat) (s : store) (p : paragraph) :
  length (add_paragraph rb s p) = S (length s).
Proof.
  unfold add_paragraph, Element, append.
  destruct (getparent _ _);
    unfold remove, set_parent, set_children, set_text;
    rewrite !length_alter, length_app; simpl; lia.
Qed.

Lemma add_paragraphs_run (ps : list paragraph) (rb : nat) (s : store) :
  rb < length s →
  let s' := foldl (add_paragraph rb) s ps in
  length s' = length s + length ps ∧
  children_of s' rb = children_of s rb ++ seq (length s) (length ps) ∧
  text_of s' rb = text_of s rb ∧ tag_of s' rb = tag_of s rb ∧
  getparent s' rb = getparent s rb ∧
  (∀ y, y < length s → y ≠ rb → get s' y = get s y) ∧
  (∀ i p, ps !! i = Some p →
     get s' (length s + i) = mk_node "p" [] (Some (p_text p)) None (Some rb) []).
Proof.
  revert s. induction ps as [|p ps IH]; intros s Hrb; cbn [foldl].
  - split_and!; try reflexivity.
    + simpl. lia.
    + simpl. rewrite app_nil_r. reflexivity.
    + intros i p Hp. inversion Hp.
  - pose proof (add_paragraph_length rb s p) as Hlen1.
    pose proof (add_paragraph_get rb s p) as Hget1.
    destruct (IH (add_paragraph rb s p)) as (Hlen & Hch & Htext & Htag & Hpar & Hold & Hnew);
      [lia |].
    assert (Hrb1 : get (add_paragraph rb s p) rb
                   = with_children (children_of s rb ++ [length s]) (get s rb)).
    { rewrite Hget1 by exact Hrb. rewrite decide_False by lia.
      rewrite decide_True by reflexivity. reflexivity. }
    split_and!.
    + rewrite Hlen, Hlen1. simpl. lia.
    + rewrite Hch, Hlen1. unfold children_of at 1. rewrite Hrb1. simpl.
      rewrite <- app_assoc. reflexivity.
    + rewrite Htext. unfold text_of. rewrite Hrb1. reflexivity.
    + rewrite Htag. unfold tag_of. rewrite Hrb1. reflexivity.
    + rewrite Hpar. unfold getparent. rewrite Hrb1. reflexivity.
    + intros y Hy Hne. rewrite Hold by (rewrite ?Hlen1; lia).
      rewrite Hget1 by exact Hrb. rewrite !decide_False by lia. reflexivity.
    + intros i q Hq. destruct i as [|i].
      * inversion Hq. subst q. rewrite Nat.add_0_r. rewrite Hold by (rewrite ?Hlen1; lia).
        rewrite Hget1 by exact Hrb. rewrite decide_True by reflexivity. reflexivity.
      * simpl in Hq. replace (length s + S i) with (length (add_paragraph rb s p) + i)
          by (rewrite Hlen1; lia).
        apply Hnew. exact Hq.
Qed.

Lemma paragraphs_text (kept : list paragraph) (n base rb : nat) (s' : store) :
  (∀ i p, kept !! i = Some p →
     get s' (base + i) = mk_node "p" [] (Some (p_text p)) None (Some rb) []) →
  seq base (length kept) ≫= (λ c, itertext_fuel (S n) s' c ++ otext (tail_of s' c))
  = map p_text kept.
Proof.
  revert base. induction kept as [|p kept IH]; intros base Hnew; [reflexivity |].
  cbn [length seq map]. rewrite bind_cons.
  pose proof (Hnew 0 p eq_refl) as Hp. rewrite Nat.add_0_r in Hp.
  cbn [itertext_fuel]. unfold text_of, children_of, tail_of. rewrite Hp. simpl.
  f_equal. apply IH. intros i q Hq. replace (S base + i) with (base + S i) by lia.
  apply Hnew. exact Hq.
Qed.

(** X7. When justext returns its paragraphs, [try_justext] returns a
    new [body] whose children are new [p] elements, one for each
    paragraph that is not boilerplate, in the order of the paragraphs
    and with their texts; the text of the new tree is the list of these
    texts.  The elements that were in the store are untouched. *)
Theorem try_justext_paragraphs (s : store) (tree : nat) (target_language : option string)
    (paragraphs : list paragraph) :
  justext (Element s "body").1 tree (chosen_stoplist target_language) = Ok paragraphs →
  let kept := filter (λ p, is_boilerplate p = false) paragraphs in
  ∃ s', try_justext s tree target_language = Ok (s', Some (length s)) ∧
        length s' = S (length s) + length kept ∧
        tag_of s' (length s) = "body" ∧ getparent s' (length s) = None ∧
        children_of s' (length s) = seq (S (length s)) (length kept) ∧
        itertext s' (length s) = map p_text kept ∧
        (∀ i p, kept !! i = Some p →
           get s' (S (length s) + i)
           = mk_node "p" [] (Some (p_text p)) None (Some (length s)) []) ∧
        (∀ y, y < length s → get s' y = get s y).
Proof.
  intros Hjt kept. unfold try_justext. unfold chosen_stoplist in Hjt.
  unfold Element in *. cbn [fst] in Hjt. cbv beta iota zeta. rewrite Hjt.
  set (body := mk_node "body" [] None None None []).
  set (s1 := s ++ [body]).
  assert (Hlen1 : length s1 = S (length s)) by (unfold s1; rewrite length_app; simpl; lia).
  destruct (add_paragraphs_run kept (length s) s1)
    as (Hlen & Hch & Htext & Htag & Hpar & Hold & Hnew); [lia |].
  fold kept. set (s' := foldl (add_paragraph (length s)) s1 kept) in *.
  assert (Hbody : get s1 (length s) = body) by apply get_new.
  rewrite Hlen1 in *.
  exists s'. split_and!.
  - reflexivity.
  - exact Hlen.
  - rewrite Htag. unfold tag_of. rewrite Hbody. reflexivity.
  - rewrite Hpar. unfold getparent. rewrite Hbody. reflexivity.
  - rewrite Hch. unfold children_of. rewrite Hbody. reflexivity.
  - unfold itertext. rewrite Hlen. cbn [Nat.add itertext_fuel].
    rewrite Htext. unfold text_of at 1. rewrite Hbody. cbn [n_text otext app].
    rewrite Hch. unfold children_of at 1. rewrite Hbody. cbn [n_children app].
    destruct kept as [|p kept'] eqn:Hk; [reflexivity |].
    cbn [length]. replace (length s + S (length kept')) with (S (length s + length kept'))
      by lia.
    apply (paragraphs_text (p :: kept') _ _ (length s)). exact Hnew.
  - exact Hnew.
  - intros y Hy. rewrite Hold by lia. unfold s1. rewrite get_snoc.
    rewrite decide_False by lia. reflexivity.
Qed.

(** X8. [justext_rescue] never hands back less than it was given:
    with a false flag the body, the text and the length are the ones it
    received; with a true flag the body is the new one built from
    justext, the length is that of the new text, and it is strictly
    greater than the length received. *)
Theorem justext_rescue_longer (s s1 : store) (tree : nat) (target_language : option string)
    (postbody postbody' : nat) (len_text len_text' : Z) (text text' : string) (flag : bool) :
  justext_rescue s tree target_language postbody len_text text
    = Ok (s1, (postbody', text', len_text', flag)) →
  (len_text ≤ len_text')%Z ∧
  (flag = false → postbody' = postbody ∧ text' = text ∧ len_text' = len_text) ∧
  (flag = true → postbody' = length s ∧ len_text' = py_len text' ∧
                 text' = trim (join " " (itertext s1 postbody')) ∧
                 (len_text' > len_text)%Z).
Proof.
  unfold justext_rescue.
  destruct (try_justext s tree target_language) as [[s2 [t|]]|x] eqn:Htry.
  - assert (Ht : t = length s).
    { unfold try_justext, Element in Htry. cbv beta iota zeta in Htry.
      destruct (justext _ _ _) as [ps|[]]; inversion Htry; reflexivity. }
    case_bool_decide as Hcmp; intros Hr; inversion Hr; subst.
    + split_and!; [lia | discriminate |]. intros _. split_and!; [reflexivity.. | lia].
    + split_and!; [lia | done | discriminate].
  - intros Hr. inversion Hr. subst. split_and!; [lia | done | discriminate].
  - discriminate.
Qed.

End JustextResult.

(** ** Trees in the store *)

Section Forest.
Import Lxml.

(** The [k]-th ancestor of an element. *)
Fixpoint ancestor (k : nat) (s : store) (x : nat) : option nat :=
match k with
| 0 => Some x
| S k' => getparent s x ≫= ancestor k' s
end.

Lemma ancestor_snoc (k : nat) (s : store) (x : nat) :
  ancestor (S k) s x = ancestor k s x ≫= getparent s.
Proof.
  revert x. induction k as [|k IH]; intros x.
  - simpl. destruct (getparent s x); reflexivity.
  - change (ancestor (S (S k)) s x) with (getparent s x ≫= ancestor (S k) s).
    change (ancestor (S k) s x) with (getparent s x ≫= ancestor k s).
    destruct (getparent s x) as [p|]; simpl; [apply IH | reflexivity].
Qed.

Lemma ancestor_add (j k : nat) (s : store) (x : nat) :
  ancestor (j + k) s x = ancestor j s x ≫= ancestor k s.
Proof.
  revert x. induction j as [|j IH]; intros x; simpl; [reflexivity |].
  destruct (getparent s x) as [p|]; simpl; [apply IH | reflexivity].
Qed.

Lemma iter_ancestor (n : nat) (s : store) (c x : nat) :
  wf s → x ∈ iter_fuel n s c → ∃ k, k < n ∧ ancestor k s x = Some c.
Proof.
  intros Hwf. revert c. induction n as [|n IH]; intros c Hin; simpl in Hin; [inversion Hin |].
  apply elem_of_cons in Hin as [-> | Hin]; [exists 0; split; [lia | reflexivity] |].
  apply list_elem_of_bind in Hin as (d & Hin & Hd).
  destruct (IH d Hin) as (k & Hk & Hanc). exists (S k). split; [lia |].
  rewrite ancestor_snoc, Hanc. simpl. destruct Hwf as (_ & Hkid & _). apply (Hkid c d Hd).
Qed.

Lemma ancestor_iter (k : nat) (s : store) (c x : nat) :
  wf s → ancestor k s x = Some c → x ∈ iter_fuel (S k) s c.
Proof.
  intros Hwf. revert c. induction k as [|k IH]; intros c Hanc.
  - inversion Hanc. left.
  - rewrite ancestor_snoc in Hanc.
    destruct (ancestor k s x) as [d|] eqn:Hd; [| discriminate]. simpl in Hanc.
    change (iter_fuel (S (S k)) s c) with (c :: (children_of s c ≫= iter_fuel (S k) s)).
    right. apply list_elem_of_bind. exists d. split; [apply IH; reflexivity |].
    destruct Hwf as (_ & _ & Hup). apply Hup, Hanc.
Qed.

Lemma depth_ok_more (n : nat) (s : store) (x : nat) :
  depth_ok n s x = true → depth_ok (S n) s x = true.
Proof.
  revert x. induction n as [|n IH]; intros x Hd; [discriminate |].
  change (forallb (depth_ok (S n) s) (children_of s x) = true).
  simpl in Hd. rewrite forallb_forall in *. intros c Hc. apply IH, Hd, Hc.
Qed.

Lemma depth_ok_below (m n : nat) (s : store) (c x : nat) :
  depth_ok m s c = true → x ∈ iter_fuel n s c → depth_ok m s x = true.
Proof.
  revert m c. induction n as [|n IH]; intros m c Hd Hin; simpl in Hin; [inversion Hin |].
  apply elem_of_cons in Hin as [-> | Hin]; [exact Hd |].
  apply list_elem_of_bind in Hin as (d & Hin & Hc).
  destruct m as [|m]; [discriminate |]. simpl in Hd. rewrite forallb_forall in Hd.
  apply depth_ok_more. eapply IH; [| exact Hin]. apply Hd. apply list_elem_of_In. exact Hc.
Qed.

(** An element of bounded depth is not below one of its children. *)
Lemma not_below_child (m : nat) (s : store) (r : nat) :
  depth_ok m s r = true → ∀ c n, c ∈ children_of s r → r ∉ iter_fuel n s c.
Proof.
  revert r. induction m as [|m IH]; intros r Hd c n Hc Hin; [discriminate |].
  assert (Hdc : depth_ok m s c = true).
  { simpl in Hd. rewrite forallb_forall in Hd. apply Hd. apply list_elem_of_In. exact Hc. }
  pose proof (depth_ok_below m n s c r Hdc Hin) as Hdr.
  exact (IH r Hdr c n Hc Hin).
Qed.

(** The traversal of a tree of bounded depth meets no element twice. *)
Lemma iter_NoDup (m n : nat) (s : store) (r : nat) :
  wf s → depth_ok m s r = true → NoDup (iter_fuel n s r).
Proof.
  intros Hwf. revert m r. induction n as [|n IH]; intros m r Hd; simpl; [constructor |].
  destruct m as [|m]; [discriminate |].
  assert (Hkids : ∀ c, c ∈ children_of s r → depth_ok m s c = true).
  { intros c Hc. simpl in Hd. rewrite forallb_forall in Hd. apply Hd.
    apply list_elem_of_In. exact Hc. }
  apply NoDup_cons. split.
  - intros Hin. apply list_elem_of_bind in Hin as (c & Hin & Hc).
    exact (not_below_child (S m) s r Hd c n Hc Hin).
  - apply NoDup_bind.
    + intros c1 c2 x Hc1 Hc2 Hx1 Hx2.
      destruct (iter_ancestor _ _ _ _ Hwf Hx1) as (k1 & _ & Ha1).
      destruct (iter_ancestor _ _ _ _ Hwf Hx2) as (k2 & _ & Ha2).
      destruct Hwf as (Hnd & Hkid & Hup).
      assert (Hclimb : ∀ j k a b, a ∈ children_of s r → b ∈ children_of s r →
                ancestor j s x = Some a → ancestor (j + S k) s x = Some b → False).
      { intros j k a b Ha Hb Hja Hjb. rewrite ancestor_add, Hja in Hjb. simpl in Hjb.
        destruct (Hkid r a Ha) as [Hpa _]. rewrite Hpa in Hjb. simpl in Hjb.
        apply (not_below_child (S m) s r Hd b (S k) Hb).
        apply ancestor_iter; [split_and!; assumption | exact Hjb]. }
      destruct (Nat.lt_trichotomy k1 k2) as [Hlt | [Heq | Hgt]].
      * exfalso. apply (Hclimb k1 (k2 - k1 - 1) c1 c2 Hc1 Hc2 Ha1).
        replace (k1 + S (k2 - k1 - 1)) with k2 by lia. exact Ha2.
      * subst k2. congruence.
      * exfalso. apply (Hclimb k2 (k1 - k2 - 1) c2 c1 Hc2 Hc1 Ha2).
        replace (k2 + S (k1 - k2 - 1)) with k1 by lia. exact Ha1.
    + intros c Hc. eapply IH. apply Hkids, Hc.
    + destruct Hwf as (Hnd & _). apply Hnd.
Qed.

End Forest.

(** ** When [sanitize_tree] fails *)

Section Sanitize.
Context `{Utils} `{Settings} `{HtmlProcessing}.
Import Lxml Etree External.

Lemma remove_all_ok (l : list nat) (s : store) :
  wf s → NoDup l → (∀ e, e ∈ l → getparent s e ≠ None) → ∃ s', remove_all s l = Ok s'.
Proof.
  revert s. induction l as [|e l IH]; intros s Hwf Hnd Hpar; simpl; [eexists; reflexivity |].
  unfold remove_from_parent. destruct (getparent s e) as [p|] eqn:Hp.
  - apply NoDup_cons in Hnd as [Hnin Hnd]. apply IH.
    + apply wf_remove; assumption.
    + exact Hnd.
    + intros x Hx. rewrite parent_remove.
      rewrite decide_False by (intros ->; exact (Hnin Hx)). apply Hpar. right. exact Hx.
  - exfalso. apply (Hpar e); [left | exact Hp].
Qed.

(** X9. [sanitize_tree] on the root of a well-formed tree: when the
    root itself carries one of the unwanted tags the first removal
    fails, for want of a parent, and [AttributeError] is raised; when
    it does not, every unwanted element has a parent to be removed from
    and the function returns. *)
Theorem sanitize_tree_root (s : store) (tree : nat) (include_formatting : bool) :
  wf s → depth_ok (length s) s tree = true → getparent s tree = None →
  (str_in (tag_of s tree) SANITIZED_TAGS = true →
   sanitize_tree s tree include_formatting = Raise AttributeError) ∧
  (str_in (tag_of s tree) SANITIZED_TAGS = false →
   ∃ r, sanitize_tree s tree include_formatting = Ok r).
Proof.
  intros Hwf Hdepth Hroot. unfold sanitize_tree, xpath_sanitized.
  rewrite (getroot_root s tree Hroot). split.
  - intros Htag.
    assert (Hfirst : ∃ l, iter_tags s tree SANITIZED_TAGS = tree :: l).
    { unfold iter_tags, iter. destruct (length s) as [|n]; [discriminate Hdepth |].
      simpl iter_fuel. rewrite filter_cons. rewrite decide_True by exact Htag.
      eexists. reflexivity. }
    destruct Hfirst as [l ->]. simpl. unfold remove_from_parent. rewrite Hroot. reflexivity.
  - intros Htag.
    destruct (remove_all_ok (iter_tags s tree SANITIZED_TAGS) s Hwf) as [s1 Hs1].
    + apply NoDup_filter. eapply iter_NoDup; eassumption.
    + intros e He. unfold iter_tags in He. apply list_elem_of_filter in He as [Htag' Hin].
      destruct (iter_fuel_child _ _ _ _ Hin) as [-> | (q & Hq)]; [congruence |].
      destruct Hwf as (_ & Hkid & _). destruct (Hkid q e Hq) as [-> _]. discriminate.
    + rewrite Hs1. destruct (prune_html _ _) as [s3 t3].
      destruct (convert_tags _ _ _ _) as [s4 t4]. eexists. reflexivity.
Qed.

End Sanitize.

(** ** What a run of the pipeline calls and reads *)

(** A computation whose events all satisfy [P]. *)
Definition emits {A} (P : event → Prop) (m : M A) : Prop :=
  ∀ w, ∃ evs, trace (m w).1 = trace w ++ evs ∧ ∀ ev, ev ∈ evs → P ev.

Section Emits.

Lemma quiet_emits {A} (P : event → Prop) (m : M A) : quiet m → emits P m.
Proof.
  intros Hq w. exists []. rewrite app_nil_r. split; [apply Hq |].
  intros ev Hin. inversion Hin.
Qed.

Lemma emits_emit (P : event → Prop) (ev : event) : P ev → emits P (emit ev).
Proof.
  intros Hp w. exists [ev]. split; [reflexivity |].
  intros ev' Hin. apply list_elem_of_singleton in Hin. subst. exact Hp.
Qed.

Lemma emits_discard {A} (P : event → Prop) (why : reason) :
  P (Discard why) → emits P (@discard A why).
Proof.
  intros Hp w. exists [Discard why]. split; [reflexivity |].
  intros ev' Hin. apply list_elem_of_singleton in Hin. subst. exact Hp.
Qed.

Lemma emits_bind {A B} (P : event → Prop) (m : M A) (f : A → M B) :
  emits P m → (∀ a, emits P (f a)) → emits P (m ≫= f).
Proof.
  intros Hm Hf w. unfold mbind, M_bind.
  destruct (Hm w) as (e1 & Ht1 & Hd1).
  destruct (m w) as [w1 [a|x]]; simpl in *.
  - destruct (Hf a w1) as (e2 & Ht2 & Hd2).
    exists (e1 ++ e2). rewrite Ht2, Ht1, app_assoc. split; [reflexivity |].
    intros ev Hin. apply elem_of_app in Hin as [Hin | Hin]; [apply Hd1 | apply Hd2]; exact Hin.
  - exists e1. split; [exact Ht1 | exact Hd1].
Qed.

Lemma emits_conclude (P : event → Prop) (m : M (nat * string * nat * option nat)) :
  emits P m → emits P (Pipeline.conclude m).
Proof.
  intros Hm w. rewrite conclude_run. destruct (Hm w) as (evs & Ht & Hp).
  exists evs. split; [| exact Hp].
  destruct (m w) as [w1 [[[[d t] p] c]|[]]]; exact Ht.
Qed.

Lemma bind_inv {A B} (m : M A) (f : A → M B) (w w' : world) (b : B) :
  (m ≫= f) w = (w', Ok b) → ∃ a w1, m w = (w1, Ok a) ∧ f a w1 = (w', Ok b).
Proof.
  unfold mbind, M_bind. destruct (m w) as [w1 [a|x]]; [| discriminate].
  intros Hf. exists a, w1. split; [reflexivity | exact Hf].
Qed.

End Emits.

Ltac emits_tac :=
  repeat first
    [ apply emits_emit; solve [split_and!; discriminate]
    | apply emits_discard; solve [split_and!; discriminate]
    | apply emits_bind; [| intros ?]
    | match goal with
      | |- emits _ (match ?x with _ => _ end) => destruct x
      | |- emits _ (if ?b then _ else _) => destruct b
      end
    | (apply quiet_emits; solve [quiet_tac]) ].

Section TxtRuns.
Context `{Utils} `{Settings} `{HtmlProcessing} `{XPaths} `{Filters} `{Handlers}
        `{Readability} `{Justext} `{Metadata} `{PyLib} `{Outputs}.
Import Lxml Etree Pipeline.

(** The events a run in txt format can leave. *)
Definition txt_event (ev : event) : Prop :=
  ev ≠ Call "extract_metadata" ∧ ev ≠ Discard Blacklisted ∧ ev ≠ Discard MissingMetadata.

(** X10. In txt format [bare_extraction] does not extract the metadata
    and runs neither of the two checks on them: whatever the options,
    the run never calls [extract_metadata] and never discards a
    document for a blacklisted URL or for missing metadata.  The same
    holds for [extract] when no format flag is set. *)
Theorem txt_skips_metadata_checks (filecontent : string) (o : options) (record_id : pyval)
    (tei_validation : bool) (w : world) :
  (∃ evs, trace (bare_extraction filecontent o Txt w).1 = trace w ++ evs ∧
          (Call "extract_metadata" ∉ evs) ∧ (Discard Blacklisted ∉ evs) ∧
          (Discard MissingMetadata ∉ evs)) ∧
  (∃ evs, trace (extract filecontent o record_id Txt false false false false
                         tei_validation w).1 = trace w ++ evs ∧
          (Call "extract_metadata" ∉ evs) ∧ (Discard Blacklisted ∉ evs) ∧
          (Discard MissingMetadata ∉ evs)).
Proof.
  assert (Hbare : emits txt_event (bare_extraction filecontent o Txt)).
  { unfold bare_extraction. apply emits_conclude.
    unfold extraction_steps, before_checks, load_step, backup_step, metadata_step,
           harvest_step, tree_size_check, after_cap, size_check, duplicate_check,
           language_check.
    rewrite bool_decide_eq_false_2 by (intros Hn; apply Hn; reflexivity).
    unfold txt_event. emits_tac. }
  assert (Hextract : emits txt_event (extract filecontent o record_id Txt false false false
                                              false tei_validation)).
  { unfold extract. change (Output.map_format Txt false false false false) with Txt.
    apply emits_bind; [exact Hbare |]. intros [[[d t] p] c].
    rewrite bool_decide_eq_false_2 by (intros Hn; apply Hn; reflexivity).
    destruct d, t, p; unfold txt_event; emits_tac;
      apply quiet_emits, quiet_determine_returnstring. }
  split.
  - destruct (Hbare w) as (evs & Ht & Hp). exists evs. split; [exact Ht |].
    split_and!; intros Hin; destruct (Hp _ Hin) as (Hcall & Hblack & Hmiss); congruence.
  - destruct (Hextract w) as (evs & Ht & Hp). exists evs. split; [exact Ht |].
    split_and!; intros Hin; destruct (Hp _ Hin) as (Hcall & Hblack & Hmiss); congruence.
Qed.

End TxtRuns.

Section JsonRuns.
Context `{Utils} `{Settings} `{HtmlProcessing} `{XPaths} `{Filters} `{Handlers}
        `{Readability} `{Justext} `{Metadata} `{PyLib} `{Outputs}.
Import Lxml Etree Pipeline.

Ltac invert_bind Hrun :=
  repeat match type of Hrun with
         | (_ ≫= _) _ = (_, Ok _) =>
             let a := fresh "a" in let w := fresh "w" in let Hm := fresh "Hm" in
             apply bind_inv in Hrun as (a & w & Hm & Hrun)
         end.

Lemma harvest_no_comments (filecontent : string) (o : options) (tree : nat)
    (backup_tree : option nat) (w w' : world) (h : harvest) :
  include_comments o = false →
  harvest_step filecontent o tree backup_tree w = (w', Ok h) → h_commentsbody h = None.
Proof.
  intros Hinc Hrun. unfold harvest_step in Hrun. rewrite Hinc in Hrun.
  invert_bind Hrun.
  match goal with
  | Hret : mret (None, _, _, _) _ = (_, Ok ?a) |- _ => inversion Hret; subst a
  end.
  simpl in Hrun. invert_bind Hrun.
  repeat match goal with
         | a : (_ * _)%type |- _ => destruct a
         end.
  simpl in Hrun. invert_bind Hrun.
  repeat match goal with
         | a : (_ * _)%type |- _ => destruct a
         end.
  inversion Hrun. reflexivity.
Qed.

Lemma bare_no_comments (filecontent : string) (o : options) (fmt : format) (w w' : world)
    (docmeta postbody : nat) (temp_text : string) (commentsbody : option nat) :
  include_comments o = false →
  bare_extraction filecontent o fmt w
    = (w', Ok (Some docmeta, Some temp_text, Some postbody, commentsbody)) →
  commentsbody = None.
Proof.
  intros Hinc Hrun. unfold bare_extraction in Hrun. rewrite conclude_run in Hrun.
  destruct (extraction_steps filecontent o fmt w) as [w1 [[[[d t] p] c]|x]] eqn:Hsteps.
  - inversion Hrun. subst. clear Hrun.
    unfold extraction_steps in Hsteps. invert_bind Hsteps.
    destruct a as [d' h]. invert_bind Hsteps.
    unfold after_cap in Hsteps. invert_bind Hsteps. inversion Hsteps. subst.
    unfold before_checks in Hm. invert_bind Hm. inversion Hm. subst.
    eapply harvest_no_comments; eassumption.
  - destruct x; inversion Hrun.
Qed.

Lemma build_json_needs_comments (docmeta postbody : nat) (w : world) (x : string) :
  (Output.build_json_output docmeta postbody None w).2 ≠ Ok x.
Proof.
  unfold Output.build_json_output, Xml.xmltotxt.
  unfold on_trees, get_world, dict_pop, dict_set, dict_get, py_join, raise,
         mbind, M_bind, mret, M_ret.
  repeat (match goal with
          | |- context [match ?o !! ?k with Some _ => _ | None => _ end] =>
              destruct (o !! k); simpl; try discriminate
          | |- context [match ?v with PNone => _ | PStr _ => _ | PList _ => _ end] =>
              destruct v; simpl; try discriminate
          end).
Qed.

(** X11. With [include_comments] switched off no comments tree is
    built, and the JSON output, which serialises the comments tree
    without asking whether there is one, cannot be produced: [extract]
    in json format then never returns a string; it returns None for a
    discarded document and raises otherwise. *)
Theorem json_needs_comments (filecontent : string) (o : options) (record_id : pyval)
    (fmt : format) (csv_output json_output xml_output tei_output tei_validation : bool)
    (w : world) :
  include_comments o = false →
  Output.map_format fmt csv_output json_output xml_output tei_output = Json →
  let r := (extract filecontent o record_id fmt csv_output json_output xml_output tei_output
                    tei_validation w).2 in
  (∀ x, r ≠ Ok (Some x)) ∧
  (∀ w1 docmeta temp_text postbody commentsbody,
     bare_extraction filecontent o Json w
       = (w1, Ok (Some docmeta, Some temp_text, Some postbody, commentsbody)) →
     commentsbody = None ∧ ∃ e, r = Raise e).
Proof.
  intros Hinc Hfmt r. unfold r, extract. rewrite Hfmt.
  assert (Hjson : ∀ d p w0, ∃ w1 e,
            (_ ← emit (Call "determine_returnstring");
             x ← Output.determine_returnstring d p None Json tei_validation;
             mret (Some x)) w0 = (w1, Raise e)).
  { intros d p w0. unfold mbind, M_bind, emit. simpl.
    pose proof (build_json_needs_comments d p
                  (mk_world (trees w0) (dicts w0) (trace w0 ++ [Call "determine_returnstring"])))
      as Hno.
    destruct (Output.build_json_output d p None _) as [w1 [x|e]]; simpl in *.
    - exfalso. exact (Hno x eq_refl).
    - exists w1, e. reflexivity. }
  assert (Hrun : ∀ w1 d t p c,
            bare_extraction filecontent o Json w = (w1, Ok (Some d, Some t, Some p, c)) →
            c = None ∧
            ∃ e, ((r0 ← bare_extraction filecontent o Json;
                   match r0 with
                   | (Some docmeta, Some temp_text, Some postbody, commentsbody) =>
                       _ ← (if bool_decide (Json ≠ Txt) then
                              _ ← dict_set docmeta "id" record_id;
                              _ ← emit (Call "content_fingerprint");
                              dict_set docmeta "fingerprint"
                                       (PStr (content_fingerprint temp_text))
                            else mret ());
                       _ ← emit (Call "determine_returnstring");
                       x ← Output.determine_returnstring docmeta postbody commentsbody Json
                             tei_validation;
                       mret (Some x)
                   | _ => mret None
                   end) w).2 = Raise e).
  { intros w1 d t p c Hb. pose proof (bare_no_comments _ _ _ _ _ _ _ _ _ Hinc Hb) as ->.
    split; [reflexivity |]. erewrite bind_ok by exact Hb. cbv beta iota.
    rewrite bool_decide_eq_true_2 by discriminate.
    assert (Hset : ∃ w2, (_ ← dict_set d "id" record_id;
                          _ ← emit (Call "content_fingerprint");
                          dict_set d "fingerprint" (PStr (content_fingerprint t))) w1
                         = (w2, Ok ())) by (eexists; reflexivity).
    destruct Hset as [w2 Hset]. erewrite bind_ok by exact Hset.
    destruct (Hjson d p w2) as (w3 & e & He).
    exists e. rewrite He. reflexivity. }
  split.
  - intros x Hx.
    destruct (bare_extraction filecontent o Json w) as [w1 [[[[d t] p] c]|e]] eqn:Hb.
    + destruct d as [d|], t as [t|], p as [p|];
        try (erewrite bind_ok in Hx by exact Hb; discriminate Hx).
      destruct (Hrun w1 d t p c eq_refl) as [_ [e He]].
      pose proof (eq_trans (eq_sym He) Hx) as Habs. discriminate Habs.
    + erewrite bind_raise in Hx by exact Hb. discriminate.
  - intros w1 d t p c Hb. destruct (Hrun w1 d t p c Hb) as [Hc [e He]].
    split; [exact Hc |]. exists e. exact He.
Qed.

End JsonRuns.

(** ** The handlers of single elements *)

Section ElementHandlers.
Context `{Utils} `{HtmlProcessing} `{Filters}.
Import Lxml Etree Core.

Lemma SubElement_get (s : store) (p : nat) (t : string) (y : nat) :
  p < length s →
  (SubElement s p t).2 = length s ∧
  length (SubElement s p t).1 = S (length s) ∧
  get (SubElement s p t).1 y =
  if decide (y = length s) then mk_node t [] None None (Some p) []
  else if decide (y = p) then with_children (children_of s p ++ [length s]) (get s p)
  else get s y.
Proof.
  intros Hp. unfold SubElement, Element, append. cbv beta iota zeta.
  set (n := mk_node t [] None None None []). set (e := length s).
  assert (Hroot : getparent (s ++ [n]) e = None) by (unfold getparent, e; rewrite get_new; done).
  rewrite Hroot.
  assert (Hch : children_of (s ++ [n]) p = children_of s p).
  { unfold children_of. rewrite get_snoc. rewrite decide_False by lia. reflexivity. }
  rewrite Hch. cbn [fst snd]. split_and!.
  - reflexivity.
  - unfold set_parent, set_children. rewrite !length_alter, length_app. simpl. lia.
  - destruct (decide (y = e)) as [-> | Hne].
    + unfold set_parent. rewrite get_alter_eq
        by (unfold set_children; rewrite length_alter, length_app; simpl; unfold e; lia).
      unfold set_children. rewrite get_alter_ne by (unfold e; lia).
      unfold e. rewrite get_new. reflexivity.
    + unfold set_parent. rewrite get_alter_ne by exact Hne.
      destruct (decide (y = p)) as [-> | Hne'].
      * unfold set_children. rewrite get_alter_eq by (rewrite length_app; simpl; lia).
        rewrite get_snoc. rewrite decide_False by exact Hne. reflexivity.
      * unfold set_children. rewrite get_alter_ne by exact Hne'.
        rewrite get_snoc. rewrite decide_False by exact Hne. reflexivity.
Qed.

(** X12. [handle_formatting] builds its result beside the document:
    it returns None exactly when the element has neither text nor tail,
    and leaves the store as it is then; otherwise it returns a new [p]
    with one new child that has the tag of the element and, where they
    pass the character test, its trimmed text and tail.  No element
    that was in the store is changed. *)
Theorem handle_formatting_fresh (s : store) (element : nat) :
  let s' := (handle_formatting s element).1 in
  let r := (handle_formatting s element).2 in
  (r = None ↔ text_of s element = None ∧ tail_of s element = None) ∧
  (r = None → s' = s) ∧
  (∀ y, y < length s → get s' y = get s y) ∧
  (∀ p, r = Some p →
     p = length s ∧ length s' = length s + 2 ∧
     tag_of s' p = "p" ∧ getparent s' p = None ∧ text_of s' p = None ∧
     children_of s' p = [S (length s)] ∧
     getparent s' (S (length s)) = Some p ∧ children_of s' (S (length s)) = [] ∧
     tag_of s' (S (length s)) = tag_of s element ∧
     text_of s' (S (length s)) =
       (if text_chars_test (text_of s element) then trim <$> text_of s element else None) ∧
     tail_of s' (S (length s)) =
       (if text_chars_test (tail_of s element) then trim <$> tail_of s element else None)).
Proof.
  intros s' r. unfold s', r, handle_formatting. clear s' r.
  destruct (text_of s element) as [x|] eqn:Hx, (tail_of s element) as [tl|] eqn:Htl;
    try (unfold Element; cbv beta iota zeta;
         set (pn := mk_node "p" [] None None None []); set (s1 := s ++ [pn]);
         assert (Hlen1 : length s1 = S (length s))
           by (unfold s1; rewrite length_app; simpl; lia);
         assert (Htag1 : tag_of s1 element = tag_of s element)
           by (unfold tag_of, s1; rewrite get_snoc;
               destruct (decide (element = length s)) as [-> |]; [| reflexivity];
               unfold text_of, tail_of in *; rewrite get_out in * by lia; discriminate);
         rewrite Htag1;
         pose proof (λ y, SubElement_get s1 (length s) (tag_of s element) y
                            ltac:(lia)) as Hsub;
         destruct (SubElement s1 (length s) (tag_of s element)) as [s2 c] eqn:Hs2;
         cbn [fst snd] in Hsub;
         assert (Hc : c = S (length s)) by (destruct (Hsub 0) as (-> & _); lia);
         assert (Hlen2 : length s2 = S (S (length s)))
           by (destruct (Hsub 0) as (_ & -> & _); lia);
         assert (Hget2 : ∀ y, get s2 y =
                   if decide (y = S (length s))
                   then mk_node (tag_of s element) [] None None (Some (length s)) []
                   else if decide (y = length s)
                        then with_children [S (length s)] pn
                        else get s y)
           by (intros y; destruct (Hsub y) as (_ & _ & ->); rewrite Hlen1;
               destruct (decide (y = S (length s))); [reflexivity |];
               destruct (decide (y = length s)) as [-> |];
               [unfold children_of, s1; rewrite get_new; reflexivity
               | unfold s1; rewrite get_snoc; rewrite decide_False by assumption;
                 reflexivity]);
         subst c; clear Hsub Hs2).
  all: cbn [fst snd].
  4: { split_and!; [split; [intros _; done | reflexivity] | reflexivity | reflexivity
                   | intros p Hp; discriminate]. }
  all: set (s3 := if text_chars_test _ then set_text s2 _ _ else s2);
       set (s4 := if text_chars_test _ then set_tail s3 _ _ else s3).
  all: assert (Hget4 : ∀ y, y ≠ S (length s) → get s4 y = get s2 y)
         by (intros y Hy; unfold s4, s3, set_text, set_tail;
             repeat destruct (text_chars_test _); rewrite ?get_alter_ne by exact Hy;
             reflexivity).
  all: assert (Hlen4 : length s4 = S (S (length s)))
         by (unfold s4, s3, set_text, set_tail; repeat destruct (text_chars_test _);
             rewrite ?length_alter; exact Hlen2).
  all: assert (Hchild : get s4 (S (length s)) =
           mk_node (tag_of s element) []
             (if text_chars_test (text_of s element) then trim <$> text_of s element else None)
             (if text_chars_test (tail_of s element) then trim <$> tail_of s element else None)
             (Some (length s)) [])
         by (rewrite Hx, Htl; unfold s4, s3, set_text, set_tail;
             repeat destruct (text_chars_test _);
             rewrite ?get_alter_eq by (rewrite ?length_alter; lia);
             rewrite Hget2; rewrite decide_True by reflexivity; reflexivity).
  all: rewrite Hx, Htl in Hchild.
  all: split_and!;
       [ split; [discriminate | intros [? ?]; discriminate]
       | discriminate
       | intros y Hy; rewrite Hget4 by lia; rewrite Hget2;
         rewrite !decide_False by lia; reflexivity
       | intros p Hp; inversion Hp; subst p;
         unfold tag_of, getparent, text_of, children_of, tail_of;
         rewrite Hchild, (Hget4 (length s)) by lia; rewrite Hget2;
         rewrite decide_False by lia; rewrite decide_True by reflexivity;
         split_and!; first [reflexivity | lia] ].
Qed.

Lemma tagged_in_range (s : store) (e : nat) (t : string) :
  tag_of s e = t → t ≠ "" → e < length s.
Proof.
  intros Ht Hne. destruct (decide (e < length s)) as [Hlt | Hge]; [exact Hlt |].
  unfold tag_of in Ht. rewrite get_out in Ht by lia. subst t. contradiction.
Qed.

(** X13. [handle_other_elements] lets nothing through but a [div]:
    it returns an element only when the element is a [div], [div] is
    among the potential tags and the text helper keeps it; the element
    returned is the one given, rewritten in place, without attributes,
    and it is no longer tagged [div].  For every other element it
    returns None and changes nothing.  [process_comments_node] returns
    the element it is given, without attributes, when its tag is among
    the potential tags and the text helper keeps it; an element whose
    tag is not among them is left untouched. *)
Theorem handle_other_elements_div (s : store) (element : nat) (potential_tags : list string)
    (dedupbool : bool) :
  let s' := (handle_other_elements s element potential_tags dedupbool).1 in
  let r := (handle_other_elements s element potential_tags dedupbool).2 in
  (∀ pe, r = Some pe →
     pe = element ∧ tag_of s element = "div" ∧ str_in "div" potential_tags = true ∧
     r_keep (handle_textnode s element false dedupbool) = true ∧
     attrib_of s' element = [] ∧ tag_of s' element ≠ "div") ∧
  (tag_of s element ≠ "div" ∨ str_in (tag_of s element) potential_tags = false →
   s' = s ∧ r = None) ∧
  (∀ y, y ≠ element → get s' y = get s y) ∧
  let c := process_comments_node potential_tags dedupbool s element in
  (∀ pe, c.2 = Some pe →
     pe = element ∧ str_in (tag_of s element) potential_tags = true ∧
     r_keep (handle_textnode s element true dedupbool) = true ∧
     attrib_of c.1 element = []) ∧
  (str_in (tag_of s element) potential_tags = false → c = (s, None)) ∧
  (∀ y, y ≠ element → get c.1 y = get s y).
Proof.
  intros s' r. unfold s', r, handle_other_elements, process_comments_node. clear s' r.
  split_and!.
  - intros pe. destruct (str_in (tag_of s element) potential_tags) eqn:Hin; simpl;
      [| discriminate].
    case_bool_decide as Hdiv; [| discriminate].
    unfold apply_rewrite. cbn [fst snd].
    destruct (r_keep (handle_textnode s element false dedupbool)) eqn:Hkeep; [| discriminate].
    cbn [fst snd]. intros Hpe. inversion Hpe. subst pe. rewrite Hdiv in Hin.
    pose proof (tagged_in_range s element "div" Hdiv ltac:(discriminate)) as Hlt.
    set (s1 := set_tail _ _ _). set (s2 := attrib_clear s1 element).
    assert (Hlen2 : length s2 = length s).
    { unfold s2, s1, attrib_clear, set_attrib, set_tail, set_text, set_tag.
      rewrite !length_alter. reflexivity. }
    assert (Ha2 : attrib_of s2 element = []).
    { unfold s2, attrib_clear, set_attrib. rewrite attrib_alter.
      rewrite decide_True; [reflexivity |]. split; [reflexivity |].
      unfold s1, set_tail, set_text, set_tag. rewrite !length_alter. exact Hlt. }
    split_and!; try reflexivity; try assumption.
    + case_bool_decide; [| exact Ha2].
      destruct (set_tag_links s2 element "p") as (_ & _ & Hsame).
      destruct (Hsame element) as (-> & _). exact Ha2.
    + case_bool_decide as Hd; [| exact Hd]. rewrite tag_set_tag.
      rewrite decide_True by (split; [reflexivity | lia]). discriminate.
  - intros [Hdiv | Hout].
    + destruct (str_in (tag_of s element) potential_tags); simpl; [| done].
      rewrite bool_decide_eq_false_2 by exact Hdiv. done.
    + rewrite Hout. done.
  - intros y Hy. destruct (str_in (tag_of s element) potential_tags); simpl; [| reflexivity].
    case_bool_decide; [| reflexivity].
    unfold apply_rewrite. cbn [fst snd].
    destruct (r_keep (handle_textnode s element false dedupbool)); cbn [fst snd];
      [case_bool_decide |];
      unfold attrib_clear, set_attrib, set_tail, set_text, set_tag;
      rewrite !get_alter_ne by exact Hy; reflexivity.
  - intros pe. destruct (str_in (tag_of s element) potential_tags) eqn:Hin; [| discriminate].
    unfold apply_rewrite. cbn [fst snd].
    destruct (r_keep (handle_textnode s element true dedupbool)) eqn:Hkeep; [| discriminate].
    cbn [fst snd]. intros Hpe. inversion Hpe. subst pe.
    split_and!; try reflexivity.
    unfold attrib_clear, set_attrib. rewrite attrib_alter.
    destruct (decide _) as [_ | Hout]; [reflexivity |].
    unfold attrib_of. rewrite get_out; [reflexivity |].
    unfold set_tail, set_text, set_tag in *. rewrite !length_alter in *.
    destruct (decide (element < length s)); [exfalso; apply Hout; done | lia].
  - intros Hout. rewrite Hout. reflexivity.
  - intros y Hy. destruct (str_in (tag_of s element) potential_tags); [| reflexivity].
    unfold apply_rewrite. cbn [fst snd].
    destruct (r_keep (handle_textnode s element true dedupbool)); cbn [fst snd];
      unfold attrib_clear, set_attrib, set_tail, set_text, set_tag;
      rewrite !get_alter_ne by exact Hy; reflexivity.
Qed.

End ElementHandlers.

(** ** The text across the merging pass of [xmltotxt] *)

Section MergedText.
Context `{Utils}.
Import Lxml Etree Xml.

Lemma merges_keep_text (l : list nat) (s : store) :
  wf s → (∀ e, e ∈ l → children_of s e = []) →
  ∀ n r, depth_ok n s r = true →
    text_chars_fuel n (foldl merge_with_parent s l) r = text_chars_fuel n s r.
Proof.
  revert s. induction l as [|e l IH]; intros s Hwf Hleaf n r Hd; cbn [foldl]; [reflexivity |].
  assert (Hstep : text_chars_fuel n (merge_with_parent s e) r = text_chars_fuel n s r).
  { destruct (getparent s e) as [p|] eqn:Hp.
    - eapply merge_keeps_text; [exact Hwf | exact Hp | apply Hleaf; left | exact Hd].
    - rewrite merge_no_parent by exact Hp. reflexivity. }
  rewrite <- Hstep. apply IH.
  - apply merge_wf, Hwf.
  - intros x Hx. pose proof (merge_children_subseteq s e x) as Hsub.
    rewrite (Hleaf x) in Hsub by (right; exact Hx).
    destruct (children_of (merge_with_parent s e) x) as [|c cs]; [reflexivity |].
    exfalso. specialize (Hsub c). rewrite elem_of_nil in Hsub. apply Hsub. left.
  - eapply depth_ok_mono; [| exact Hd]. intros q. apply merge_children_subseteq.
Qed.

(** X14. The merging pass of [xmltotxt] keeps a well-formed store
    well-formed, with the same elements, tags and attributes.  When
    every [hi] and [link] of the tree is a leaf, the text of the tree is
    the same after the pass as before, up to blanks: the texts and
    tails of the merged elements have moved into their neighbours. *)
Theorem xmltotxt_keeps_text (s : store) (xmloutput : nat) :
  wf s → depth_ok (length s) s xmloutput = true →
  let s' := (xmltotxt s xmloutput).1 in
  wf s' ∧ length s' = length s ∧
  (∀ y, tag_of s' y = tag_of s y ∧ attrib_of s' y = attrib_of s y) ∧
  ((∀ e, e ∈ xpath_hi_link s xmloutput → children_of s e = []) →
   text_chars s' xmloutput = text_chars s xmloutput).
Proof.
  intros Hwf Hd s'. unfold s', xmltotxt. cbn [fst]. unfold xmltotxt_merge.
  set (l := xpath_hi_link s xmloutput).
  assert (Hattr : ∀ (k : list nat) t y, attrib_of (foldl merge_with_parent t k) y = attrib_of t y).
  { induction k as [|e k IH]; intros t y; cbn [foldl]; [reflexivity |].
    rewrite IH. apply merge_attrib. }
  split_and!.
  - apply merges_wf, Hwf.
  - apply merges_length.
  - intros y. split; [apply merges_tag | apply Hattr].
  - intros Hleaf. unfold text_chars, itertext. rewrite merges_length.
    apply (merges_keep_text l s Hwf Hleaf (length s) xmloutput Hd).
Qed.

End MergedText.

(** ** The metadata attributes of the XML output *)

Section MetaAttributes.
Context `{XmlStrings}.
Import Lxml Py XmlMeta.




Lemma attr_get_set (k v : string) (a : list (string * string)) :
  attr_get k (attr_set k v a) = Some v.
Proof.
  unfold attr_get. induction a as [|[k' v'] a IH]; simpl.
  - rewrite decide_True by reflexivity. reflexivity.
  - case_bool_decide as Hk; simpl.
    + rewrite decide_True by reflexivity. reflexivity.
    + rewrite decide_False by exact Hk.
      destruct (list_find (λ kv, kv.1 = k) (attr_set k v a)) as [[i kv]|]; simpl in *;
        [exact IH | discriminate IH].
Qed.

Lemma attr_get_set_ne (k k' v : string) (a : list (string * string)) :
  k ≠ k' → attr_get k (attr_set k' v a) = attr_get k a.
Proof.
  intros Hne. unfold attr_get. induction a as [|[k0 v0] a IH]; simpl.
  - rewrite decide_False by (intros Heq; apply Hne; symmetry; exact Heq). reflexivity.
  - case_bool_decide as Hk; simpl.
    + subst k0. rewrite !decide_False by (intros Heq; apply Hne; symmetry; exact Heq).
      reflexivity.
    + destruct (decide (k0 = k)) as [_ | _]; [reflexivity |].
      destruct (list_find (λ kv, kv.1 = k) (attr_set k' v a)) as [[i kv]|],
               (list_find (λ kv, kv.1 = k) a) as [[j kv']|]; simpl in *;
        congruence.
Qed.

Lemma set_get (s : store) (e : nat) (k v : string) (y : nat) :
  get (set s e k v) y =
  if decide (y = e ∧ e < length s) then with_attrib (attr_set k v (attrib_of s e)) (get s e)
  else get s y.
Proof.
  unfold set, set_attrib. destruct (decide (y = e)) as [-> | Hne].
  - destruct (decide (e < length s)) as [Hlt | Hge].
    + rewrite decide_True by done. rewrite get_alter_eq by exact Hlt. reflexivity.
    + rewrite decide_False by (intros [_ Hlt]; exact (Hge Hlt)).
      rewrite !get_out by (rewrite ?length_alter; lia). reflexivity.
  - rewrite decide_False by (intros [Heq _]; exact (Hne Heq)).
    rewrite get_alter_ne by exact Hne. reflexivity.
Qed.


(** The elements of the store other than the attributes of [output]. *)
Definition same_but_attrib (output : nat) (s s' : store) : Prop :=
  length s' = length s ∧
  (∀ y, y ≠ output → get s' y = get s y) ∧
  tag_of s' output = tag_of s output ∧ text_of s' output = text_of s output ∧
  tail_of s' output = tail_of s output ∧ getparent s' output = getparent s output ∧
  children_of s' output = children_of s output.



Lemma same_but_attrib_set (output : nat) (s : store) (k v : string) :
  same_but_attrib output s (set s output k v).
Proof.
  unfold same_but_attrib. split_and!.
  - unfold set, set_attrib. apply length_alter.
  - intros y Hy. rewrite set_get. rewrite decide_False by (intros [Heq _]; exact (Hy Heq)).
    reflexivity.
  - unfold tag_of, set, set_attrib. apply (field_alter n_tag). reflexivity.
  - unfold text_of, set, set_attrib. apply (field_alter n_text). reflexivity.
  - unfold tail_of, set, set_attrib. apply (field_alter n_tail). reflexivity.
  - unfold getparent, set, set_attrib. apply (field_alter n_parent). reflexivity.
  - unfold children_of, set, set_attrib. apply (field_alter n_children). reflexivity.
Qed.

Lemma attr_after_set (s : store) (output : nat) (k v a : string) :
  output < length s →
  attr_get a (attrib_of (set s output k v) output) =
  if decide (a = k) then Some v else attr_get a (attrib_of s output).
Proof.
  intros Hlt. unfold attrib_of at 1. rewrite set_get. rewrite decide_True by done.
  cbn [n_attrib with_attrib]. destruct (decide (a = k)) as [-> | Hne].
  - apply attr_get_set.
  - apply attr_get_set_ne. exact Hne.
Qed.







End MetaAttributes.

(** ** Trees under construction, copied into the store *)

Section BuildFacts.
Import Lxml Etree Core.

Lemma node_eq (n m : node) :
  n_tag n = n_tag m → n_attrib n = n_attrib m → n_text n = n_text m →
  n_tail n = n_tail m → n_parent n = n_parent m → n_children n = n_children m → n = m.
Proof. destruct n, m. simpl. intros. subst. reflexivity. Qed.

(** [append] of an element that has no parent changes the element and
    its new parent, and nothing else. *)
Lemma append_root_get (s : store) (p e y : nat) :
  wf s → getparent s e = None → e < length s → p < length s → p ≠ e →
  wf (append s p e) ∧ length (append s p e) = length s ∧
  get (append s p e) y =
  if decide (y = e) then with_parent (Some p) (get s e)
  else if decide (y = p) then with_children (children_of s p ++ [e]) (get s p)
  else get s y.
Proof.
  intros Hwf Hroot He Hp Hne.
  destruct (append_links s p e Hwf He Hp) as (Hwf' & Hlen & Hpar & Hch & Hsame).
  split; [exact Hwf' |]. split; [exact Hlen |].
  assert (Hfree : ∀ q, e ∉ children_of s q).
  { intros q Hin. destruct Hwf as (_ & Hkid & _). destruct (Hkid q e Hin). congruence. }
  destruct (Hsame y) as (Htag & Hattr & Htext & Htail).
  apply node_eq.
  - fold (tag_of (append s p e) y). rewrite Htag.
    destruct (decide (y = e)) as [-> |]; [reflexivity |].
    destruct (decide (y = p)) as [-> |]; reflexivity.
  - fold (attrib_of (append s p e) y). rewrite Hattr.
    destruct (decide (y = e)) as [-> |]; [reflexivity |].
    destruct (decide (y = p)) as [-> |]; reflexivity.
  - fold (text_of (append s p e) y). rewrite Htext.
    destruct (decide (y = e)) as [-> |]; [reflexivity |].
    destruct (decide (y = p)) as [-> |]; reflexivity.
  - fold (tail_of (append s p e) y). rewrite Htail.
    destruct (decide (y = e)) as [-> |]; [reflexivity |].
    destruct (decide (y = p)) as [-> |]; reflexivity.
  - fold (getparent (append s p e) y). rewrite Hpar.
    destruct (decide (y = e)) as [-> |]; [reflexivity |].
    destruct (decide (y = p)) as [-> |]; reflexivity.
  - fold (children_of (append s p e) y). rewrite Hch.
    rewrite !remove_first_absent by apply Hfree.
    destruct (decide (y = e)) as [-> |].
    + rewrite decide_False by (intros Heq; apply Hne; symmetry; exact Heq). reflexivity.
    + destruct (decide (y = p)) as [-> |]; reflexivity.
Qed.

(** A tree under construction becomes a tree of the store: its root is
    a new element without parent, and no element that was in the store
    is changed. *)
Lemma build_links (e : Fresh.element) :
  ∀ s, wf s →
    (build s e).2 = length s ∧ wf (build s e).1 ∧ length s < length (build s e).1 ∧
    (∀ y, y < length s → get (build s e).1 y = get s y) ∧
    getparent (build s e).1 (length s) = None ∧
    tag_of (build s e).1 (length s) = Fresh.tag e.
Proof.
  revert e. fix IH 1. intros [t a x cs tl] s Hwf. cbn [build Fresh.tag].
  unfold Element. cbv beta iota zeta.
  set (n := mk_node t [] None None None []). set (r := length s).
  set (s2 := set_tail (set_text (set_attrib (s ++ [n]) r a) r x) r tl).
  assert (Hlen2 : length s < length s2).
  { unfold s2, set_tail, set_text, set_attrib. rewrite !length_alter, length_app. simpl. lia. }
  assert (Hwf2 : wf s2).
  { unfold s2, set_tail, set_text, set_attrib.
    repeat (apply wf_alter; [reflexivity | reflexivity |]).
    apply (wf_Element s t), Hwf. }
  assert (Hold2 : ∀ y, y < length s → get s2 y = get s y).
  { intros y Hy. unfold s2, set_tail, set_text, set_attrib.
    rewrite !get_alter_ne by (unfold r; lia). rewrite get_snoc.
    rewrite decide_False by lia. reflexivity. }
  assert (Hroot2 : getparent s2 r = None ∧ tag_of s2 r = t).
  { unfold getparent, tag_of, s2, set_tail, set_text, set_attrib.
    rewrite !(field_alter n_parent), !(field_alter n_tag) by reflexivity.
    unfold r. rewrite get_new. done. }
  clearbody s2. clear n.
  revert s2 Hlen2 Hwf2 Hold2 Hroot2.
  induction cs as [|c cs IHcs]; intros s2 Hlen2 Hwf2 Hold2 [Hpar2 Htag2]; cbn [foldl fst snd].
  - split_and!; [reflexivity | exact Hwf2 | lia | exact Hold2 | exact Hpar2 | exact Htag2].
  - destruct (IH c s2 Hwf2) as (Hk & Hwfc & Hlenc & Holdc & Hparc & _).
    destruct (build s2 c) as [s' k]. cbn [fst snd] in *. subst k.
    assert (Hstep : ∀ y, wf (append s' r (length s2)) ∧
              length (append s' r (length s2)) = length s' ∧
              get (append s' r (length s2)) y =
              if decide (y = length s2) then with_parent (Some r) (get s' (length s2))
              else if decide (y = r)
                   then with_children (children_of s' r ++ [length s2]) (get s' r)
                   else get s' y).
    { intros y. apply append_root_get; [exact Hwfc | exact Hparc | lia | unfold r; lia
                                       | unfold r; lia]. }
    apply IHcs.
    + destruct (Hstep 0) as (_ & -> & _). lia.
    + apply (Hstep 0).
    + intros y Hy. destruct (Hstep y) as (_ & _ & ->).
      rewrite !decide_False by (unfold r; lia). rewrite Holdc by lia. apply Hold2, Hy.
    + unfold getparent, tag_of. destruct (Hstep r) as (_ & _ & ->).
      rewrite decide_False by (unfold r; lia). rewrite decide_True by reflexivity.
      cbn [n_parent n_tag with_children]. rewrite Holdc by (unfold r; lia).
      split; [exact Hpar2 | exact Htag2].
Qed.

End BuildFacts.

(** ** The TEI header *)

Section TeiHeader.
Context `{XmlStrings}.
Import Py Tei.























End TeiHeader.

(** ** The TEI tree *)

Section TeiTree.
Context `{XmlStrings}.
Import Lxml Etree Xml Output Py Tei.

Lemma SubElement_links (s : store) (p : nat) (t : string) :
  wf s → p < length s →
  (SubElement s p t).2 = length s ∧ wf (SubElement s p t).1 ∧
  length (SubElement s p t).1 = S (length s) ∧
  ∀ y, get (SubElement s p t).1 y =
       if decide (y = length s) then mk_node t [] None None (Some p) []
       else if decide (y = p) then with_children (children_of s p ++ [length s]) (get s p)
       else get s y.
Proof.
  intros Hwf Hp. split_and!.
  - apply (SubElement_get s p t 0 Hp).
  - unfold SubElement, Element. cbv beta iota zeta. cbn [fst].
    apply append_links; [apply (wf_Element s t), Hwf | |]; rewrite length_app; simpl; lia.
  - apply (SubElement_get s p t 0 Hp).
  - intros y. apply (SubElement_get s p t y Hp).
Qed.

Lemma as_division_links (s : store) (b : nat) (type : string) :
  b < length s →
  let s' := as_division s b type in
  same_links s s' ∧
  (∀ y, tag_of s' y = if decide (y = b) then "div" else tag_of s y) ∧
  attr_get "type" (attrib_of s' b) = Some type ∧
  (∀ y, y ≠ b → y ∉ iter s b → attrib_of s' y = attrib_of s y).
Proof.
  intros Hb s'. unfold s', as_division.
  destruct (clean_fold (iter s b) s) as (Hl1 & Ht1 & _ & Hk1 & _).
  change (foldl clean_step s (iter s b)) with (clean_attributes s b) in *.
  set (s1 := clean_attributes s b) in *.
  assert (Hlen1 : length s1 = length s) by apply Hl1.
  destruct (set_tag_links s1 b "div") as (_ & Hlen2 & Hsame2).
  split_and!.
  - apply (same_links_trans s s1); [exact Hl1 |].
    apply (same_links_trans s1 (set_tag s1 b "div")).
    + unfold set_tag. apply same_links_alter; reflexivity.
    + unfold set, set_attrib. apply same_links_alter; reflexivity.
  - intros y. destruct (same_but_attrib_set b (set_tag s1 b "div") "type" type)
      as (_ & Hother & Htag & _).
    destruct (decide (y = b)) as [-> | Hne].
    + rewrite Htag, tag_set_tag. rewrite decide_True by (split; [reflexivity | lia]).
      reflexivity.
    + unfold tag_of. rewrite Hother by exact Hne. fold (tag_of (set_tag s1 b "div") y).
      rewrite tag_set_tag. rewrite decide_False by (intros [Heq _]; exact (Hne Heq)).
      apply Ht1.
  - rewrite attr_after_set by lia. rewrite decide_True by reflexivity. reflexivity.
  - intros y Hne Hout.
    destruct (same_but_attrib_set b (set_tag s1 b "div") "type" type) as (_ & Hother & _).
    unfold attrib_of at 1. rewrite Hother by exact Hne.
    fold (attrib_of (set_tag s1 b "div") y).
    destruct (set_tag_links s1 b "div") as (_ & _ & Hf). destruct (Hf y) as (-> & _).
    apply Hk1. left. exact Hout.
Qed.

(** The traversal stays inside a set of elements closed under children. *)
Lemma iter_closed (P : nat → Prop) (n : nat) (s : store) (r : nat) :
  (∀ q c, P q → c ∈ children_of s q → P c) → P r → ∀ x, x ∈ iter_fuel n s r → P x.
Proof.
  intros Hclosed. revert r. induction n as [|n IH]; intros r Hr x Hin; simpl in Hin;
    [inversion Hin |].
  apply elem_of_cons in Hin as [-> | Hin]; [exact Hr |].
  apply list_elem_of_bind in Hin as (c & Hin & Hc).
  apply (IH c); [apply (Hclosed r c Hr Hc) | exact Hin].
Qed.

(** The comments that [write_teitree] attaches: a comments tree with
    children. *)
Definition attached_comments (s : store) (commentsbody : option nat) : list nat :=
match commentsbody with
| Some c => if bool_decide (0 < Lxml.len s c) then [c] else []
| None => []
end.

(** A root of the store becomes a division of the TEI body. *)
Lemma attach_division (s : store) (b textbody : nat) (type : string) :
  wf s → b < length s → textbody < length s → b ≠ textbody → getparent s b = None →
  let s' := append (as_division s b type) textbody b in
  wf s' ∧ length s' = length s ∧
  (∀ y, text_of s' y = text_of s y ∧ tail_of s' y = tail_of s y) ∧
  (∀ y, tag_of s' y = if decide (y = b) then "div" else tag_of s y) ∧
  (∀ y, getparent s' y = if decide (y = b) then Some textbody else getparent s y) ∧
  (∀ y, children_of s' y =
        if decide (y = textbody) then children_of s textbody ++ [b] else children_of s y) ∧
  attr_get "type" (attrib_of s' b) = Some type ∧
  (∀ y, y ≠ b → y ∉ iter s b → attrib_of s' y = attrib_of s y).
Proof.
  intros Hwf Hb Htb Hne Hroot s'.
  destruct (as_division_links s b type Hb) as (Hl & Htag & Hattr & Hframe).
  set (s1 := as_division s b type) in *.
  assert (Hwf1 : wf s1) by (eapply same_links_wf; eassumption).
  destruct Hl as [Hlen Hl].
  assert (Hroot1 : getparent s1 b = None).
  { destruct (Hl b) as (_ & _ & -> & _). exact Hroot. }
  assert (Hstep : ∀ y, get s' y =
            if decide (y = b) then with_parent (Some textbody) (get s1 b)
            else if decide (y = textbody)
                 then with_children (children_of s1 textbody ++ [b]) (get s1 textbody)
                 else get s1 y).
  { intros y. apply append_root_get; [exact Hwf1 | exact Hroot1 | lia | lia |].
    intros Heq. apply Hne. symmetry. exact Heq. }
  destruct (append_root_get s1 textbody b 0 Hwf1 Hroot1) as (Hwf' & Hlen' & _);
    [lia | lia | intros Heq; apply Hne; symmetry; exact Heq |].
  fold s' in Hwf', Hlen'.
  split_and!.
  - exact Hwf'.
  - lia.
  - intros y. unfold text_of, tail_of. rewrite Hstep.
    destruct (Hl y) as (Ht & Hta & _). unfold text_of, tail_of in Ht, Hta.
    destruct (decide (y = b)) as [-> |]; [split; [exact Ht | exact Hta] |].
    destruct (decide (y = textbody)) as [-> |]; split; assumption.
  - intros y. rewrite <- Htag. unfold tag_of. rewrite Hstep.
    destruct (decide (y = b)) as [-> |]; [reflexivity |].
    destruct (decide (y = textbody)) as [-> |]; reflexivity.
  - intros y. destruct (Hl y) as (_ & _ & Hp & _). rewrite <- Hp.
    unfold getparent. rewrite Hstep.
    destruct (decide (y = b)) as [-> |]; [reflexivity |].
    destruct (decide (y = textbody)) as [-> |]; reflexivity.
  - intros y. destruct (Hl y) as (_ & _ & _ & Hc). destruct (Hl textbody) as (_ & _ & _ & Hc').
    rewrite <- Hc, <- Hc'. unfold children_of at 1. rewrite Hstep.
    destruct (decide (y = b)) as [-> |].
    + rewrite decide_False by exact Hne. reflexivity.
    + destruct (decide (y = textbody)) as [-> |]; reflexivity.
  - unfold attrib_of. rewrite Hstep. rewrite decide_True by reflexivity. exact Hattr.
  - intros y Hy Hout. rewrite <- (Hframe y Hy Hout). unfold attrib_of. rewrite Hstep.
    rewrite decide_False by exact Hy. destruct (decide (y = textbody)) as [-> |]; reflexivity.
Qed.

Lemma write_teitree_run (version : string) (s : store) (postbody : nat)
    (commentsbody : option nat) (docmeta : dict) (header : Fresh.element) :
  wf s → postbody < length s → getparent s postbody = None →
  (∀ c, commentsbody = Some c → c < length s ∧ c ≠ postbody ∧ getparent s c = None) →
  write_fullheader version docmeta = Ok header →
  ∃ s' h textelem textbody,
    write_teitree version s postbody commentsbody docmeta = Ok (s', length s) ∧
    wf s' ∧ length s < h ∧ h < textelem ∧ textelem < textbody ∧ textbody < length s' ∧
    (tag_of s' (length s) = "TEI" ∧ getparent s' (length s) = None ∧
     children_of s' (length s) = [h; textelem]) ∧
    tag_of s' h = Fresh.tag header ∧
    (tag_of s' textelem = "text" ∧ getparent s' textelem = Some (length s) ∧
     children_of s' textelem = [textbody]) ∧
    (tag_of s' textbody = "body" ∧ getparent s' textbody = Some textelem ∧
     children_of s' textbody = postbody :: attached_comments s commentsbody) ∧
    (tag_of s' postbody = "div" ∧ attr_get "type" (attrib_of s' postbody) = Some "entry" ∧
     getparent s' postbody = Some textbody) ∧
    (∀ c, c ∈ attached_comments s commentsbody →
       tag_of s' c = "div" ∧ attr_get "type" (attrib_of s' c) = Some "comments" ∧
       getparent s' c = Some textbody) ∧
    (∀ c, commentsbody = Some c → Lxml.len s c = 0 →
       tag_of s' c = tag_of s c ∧ getparent s' c = None) ∧
    (∀ y, y < length s →
       text_of s' y = text_of s y ∧ tail_of s' y = tail_of s y ∧
       children_of s' y = children_of s y ∧
       (y ≠ postbody → y ∉ attached_comments s commentsbody →
        tag_of s' y = tag_of s y ∧ getparent s' y = getparent s y)).
Proof.
  intros Hwf Hpb Hproot Hcb Hheader. unfold write_teitree. rewrite Hheader.
  cbn [mbind result_bind]. unfold Element. cbv beta iota zeta.
  set (tei := length s).
  set (s1 := set (s ++ [mk_node "TEI" [] None None None []]) tei "xmlns"
                 "http://www.tei-c.org/ns/1.0").
  assert (Hlen1 : length s1 = S (length s)).
  { unfold s1, set, set_attrib. rewrite length_alter, length_app. simpl. lia. }
  assert (Hwf1 : wf s1).
  { unfold s1, set, set_attrib. apply wf_alter; [reflexivity | reflexivity |].
    apply (wf_Element s "TEI"), Hwf. }
  assert (Hget1 : ∀ y, get s1 y =
            if decide (y = tei)
            then mk_node "TEI" [("xmlns", "http://www.tei-c.org/ns/1.0")] None None None []
            else get s y).
  { intros y. unfold s1. rewrite set_get. rewrite length_app. cbn [length].
    destruct (decide (y = tei)) as [-> | Hne].
    - rewrite decide_True by (split; [reflexivity | unfold tei; lia]).
      unfold attrib_of, tei. rewrite get_new. reflexivity.
    - rewrite decide_False by (intros [Heq _]; exact (Hne Heq)).
      rewrite get_snoc. rewrite decide_False by exact Hne. reflexivity. }
  destruct (build_links header s1 Hwf1) as (Hh & Hwf2 & Hlen2 & Hold2 & Hhroot & Hhtag).
  destruct (Core.build s1 header) as [s2 h]. cbn [fst snd] in *. subst h.
  rewrite Hlen1 in *. set (h := S (length s)) in *.
  assert (Hstep2 : ∀ y, wf (append s2 tei h) ∧ length (append s2 tei h) = length s2 ∧
            get (append s2 tei h) y =
            if decide (y = h) then with_parent (Some tei) (get s2 h)
            else if decide (y = tei) then with_children (children_of s2 tei ++ [h]) (get s2 tei)
            else get s2 y).
  { intros y. apply append_root_get; [exact Hwf2 | exact Hhroot | lia | unfold tei; lia
                                     | unfold tei, h; lia]. }
  set (s2' := append s2 tei h) in *.
  assert (Hwf2' : wf s2') by apply (Hstep2 0).
  assert (Hlen2' : length s2' = length s2) by apply (Hstep2 0).
  assert (Htei2 : get s2' tei =
            mk_node "TEI" [("xmlns", "http://www.tei-c.org/ns/1.0")] None None None [h]).
  { destruct (Hstep2 tei) as (_ & _ & ->). rewrite decide_False by (unfold tei, h; lia).
    rewrite decide_True by reflexivity. unfold children_of.
    rewrite Hold2 by (unfold tei; lia). rewrite Hget1. rewrite decide_True by reflexivity.
    reflexivity. }
  assert (Hold2' : ∀ y, y < length s → get s2' y = get s y).
  { intros y Hy. destruct (Hstep2 y) as (_ & _ & ->).
    rewrite !decide_False by (unfold tei, h; lia). rewrite Hold2 by lia.
    rewrite Hget1. rewrite decide_False by (unfold tei; lia). reflexivity. }
  assert (Hh2 : tag_of s2' h = Fresh.tag header).
  { unfold tag_of. destruct (Hstep2 h) as (_ & _ & ->). rewrite decide_True by reflexivity.
    exact Hhtag. }
  destruct (SubElement_links s2' tei "text" Hwf2') as (Hte & Hwf3 & Hlen3 & Hget3);
    [unfold tei; lia |].
  destruct (SubElement s2' tei "text") as [s3 textelem]. cbn [fst snd] in *.
  destruct (SubElement_links s3 textelem "body" Hwf3) as (Htb & Hwf4 & Hlen4 & Hget4);
    [lia |].
  destruct (SubElement s3 textelem "body") as [s4 textbody]. cbn [fst snd] in *.
  assert (Hte_lt : h < textelem) by lia.
  assert (Htb_lt : textelem < textbody) by lia.
  assert (Htei4 : get s4 tei =
            mk_node "TEI" [("xmlns", "http://www.tei-c.org/ns/1.0")] None None None
                    [h; textelem]).
  { rewrite Hget4. rewrite !decide_False by (unfold tei; lia). rewrite Hget3.
    rewrite decide_False by (unfold tei; lia). rewrite decide_True by reflexivity.
    unfold children_of. rewrite Htei2. subst textelem. rewrite Hlen2'. reflexivity. }
  assert (Hte4 : get s4 textelem = mk_node "text" [] None None (Some tei) [textbody]).
  { rewrite Hget4. rewrite decide_False by lia. rewrite decide_True by reflexivity.
    unfold children_of. rewrite Hget3. rewrite decide_True by lia. subst textbody.
    reflexivity. }
  assert (Htb4 : get s4 textbody = mk_node "body" [] None None (Some textelem) []).
  { rewrite Hget4. rewrite decide_True by lia. reflexivity. }
  assert (Hh4 : tag_of s4 h = Fresh.tag header).
  { unfold tag_of. rewrite Hget4. rewrite !decide_False by lia. rewrite Hget3.
    rewrite !decide_False by (unfold tei, h; lia). exact Hh2. }
  assert (Hold4 : ∀ y, y < length s → get s4 y = get s y).
  { intros y Hy. rewrite Hget4. rewrite !decide_False by lia. rewrite Hget3.
    rewrite !decide_False by (unfold tei; lia). apply Hold2', Hy. }
  clear Hget4 Hget3 Hstep2 Hold2 Hget1.
  (* the post body *)
  assert (Hproot4 : getparent s4 postbody = None).
  { unfold getparent. rewrite Hold4 by exact Hpb. exact Hproot. }
  destruct (attach_division s4 postbody textbody "entry" Hwf4)
    as (Hwf6 & Hlen6 & Htext6 & Htag6 & Hpar6 & Hch6 & Hattr6 & _);
    [lia | lia | lia | exact Hproot4 |].
  set (s6 := append (as_division s4 postbody "entry") textbody postbody) in *.
  assert (Hfield4 : ∀ y, y < length s →
            tag_of s4 y = tag_of s y ∧ text_of s4 y = text_of s y ∧
            tail_of s4 y = tail_of s y ∧ getparent s4 y = getparent s y ∧
            children_of s4 y = children_of s y).
  { intros y Hy. unfold tag_of, text_of, tail_of, getparent, children_of.
    rewrite Hold4 by exact Hy. done. }
  assert (Hskel6 : (tag_of s6 tei = "TEI" ∧ getparent s6 tei = None ∧
                    children_of s6 tei = [h; textelem]) ∧
                   tag_of s6 h = Fresh.tag header ∧
                   (tag_of s6 textelem = "text" ∧ getparent s6 textelem = Some tei ∧
                    children_of s6 textelem = [textbody]) ∧
                   (tag_of s6 textbody = "body" ∧ getparent s6 textbody = Some textelem ∧
                    children_of s6 textbody = [postbody])).
  { rewrite !Htag6, !Hpar6, !Hch6.
    rewrite !(decide_False (P := tei = postbody)), !(decide_False (P := h = postbody)),
            !(decide_False (P := textelem = postbody)),
            !(decide_False (P := textbody = postbody)),
            !(decide_False (P := tei = textbody)), !(decide_False (P := textelem = textbody)),
            !(decide_True (P := textbody = textbody)) by (unfold tei, h in *; lia).
    unfold tag_of, getparent, children_of. rewrite Htei4, Hte4, Htb4. fold (tag_of s4 h).
    rewrite Hh4. done. }
  destruct Hskel6 as (Htei6 & Hh6 & Hte6 & Htb6).
  assert (Hold6 : ∀ y, y < length s →
            text_of s6 y = text_of s y ∧ tail_of s6 y = tail_of s y ∧
            children_of s6 y = children_of s y ∧
            (y ≠ postbody → tag_of s6 y = tag_of s y ∧ getparent s6 y = getparent s y)).
  { intros y Hy. destruct (Hfield4 y Hy) as (Ht & Hx & Hl & Hp & Hc).
    destruct (Htext6 y) as [-> ->]. rewrite Hch6, Htag6, Hpar6.
    rewrite decide_False by lia. split_and!; try assumption.
    intros Hne. rewrite !decide_False by exact Hne. done. }
  assert (Hpost6 : tag_of s6 postbody = "div" ∧ getparent s6 postbody = Some textbody).
  { rewrite Htag6, Hpar6. rewrite !decide_True by reflexivity. done. }
  destruct Hpost6 as [Hptag6 Hppar6].
  assert (Hdone : ∃ s' h textelem textbody,
            Ok (s6, tei) = Ok (s', length s) ∧
            wf s' ∧ length s < h ∧ h < textelem ∧ textelem < textbody ∧ textbody < length s' ∧
            (tag_of s' (length s) = "TEI" ∧ getparent s' (length s) = None ∧
             children_of s' (length s) = [h; textelem]) ∧
            tag_of s' h = Fresh.tag header ∧
            (tag_of s' textelem = "text" ∧ getparent s' textelem = Some (length s) ∧
             children_of s' textelem = [textbody]) ∧
            (tag_of s' textbody = "body" ∧ getparent s' textbody = Some textelem ∧
             children_of s' textbody = [postbody]) ∧
            (tag_of s' postbody = "div" ∧
             attr_get "type" (attrib_of s' postbody) = Some "entry" ∧
             getparent s' postbody = Some textbody) ∧
            (∀ c, commentsbody = Some c → tag_of s' c = tag_of s c ∧ getparent s' c = None) ∧
            (∀ y, y < length s →
               text_of s' y = text_of s y ∧ tail_of s' y = tail_of s y ∧
               children_of s' y = children_of s y ∧
               (y ≠ postbody → tag_of s' y = tag_of s y ∧ getparent s' y = getparent s y))).
  { exists s6, h, textelem, textbody.
    split; [reflexivity |]. split; [exact Hwf6 |].
    split; [unfold h; lia |]. split; [exact Hte_lt |]. split; [exact Htb_lt |].
    split; [lia |]. split; [exact Htei6 |]. split; [exact Hh6 |]. split; [exact Hte6 |].
    split; [exact Htb6 |]. split; [done |]. split; [| exact Hold6].
    intros c Hc. destruct (Hcb c Hc) as (Hlt & Hne & Hroot).
    destruct (Hold6 c Hlt) as (_ & _ & _ & Hrest). destruct (Hrest Hne) as [-> ->]. done. }
  destruct commentsbody as [c|]; cbn [attached_comments].
  - destruct (Hcb c eq_refl) as (Hc & Hcne & Hcroot).
    assert (Hlen_c : Lxml.len s6 c = Lxml.len s c).
    { unfold Lxml.len. destruct (Hold6 c Hc) as (_ & _ & -> & _). reflexivity. }
    rewrite Hlen_c. case_bool_decide as Hfull.
    + clear Hdone.
      assert (Hcroot6 : getparent s6 c = None).
      { destruct (Hold6 c Hc) as (_ & _ & _ & Hrest). destruct (Hrest Hcne) as [_ ->].
        exact Hcroot. }
      destruct (attach_division s6 c textbody "comments" Hwf6)
        as (Hwf8 & Hlen8 & Htext8 & Htag8 & Hpar8 & Hch8 & Hattr8 & Hframe8);
        [lia | lia | lia | exact Hcroot6 |].
      set (s8 := append (as_division s6 c "comments") textbody c) in *.
      assert (Hout : postbody ∉ iter s6 c).
      { intros Hin.
        assert (Hp : postbody < length s ∧ postbody ≠ postbody); [| destruct Hp as [_ Hp]; done].
        refine (iter_closed (λ y, y < length s ∧ y ≠ postbody) _ s6 c _ _ postbody Hin);
          [| split; [exact Hc | exact Hcne]].
        intros q d [Hq Hqne] Hd. destruct (Hold6 q Hq) as (_ & _ & Hkids & _).
        rewrite Hkids in Hd. destruct Hwf as (_ & Hkid & _). destruct (Hkid q d Hd) as [Hpar Hdl].
        split; [exact Hdl |]. intros ->. congruence. }
      assert (Hne_new : tei ≠ c ∧ h ≠ c ∧ textelem ≠ c ∧ textbody ≠ c ∧ postbody ≠ c ∧
                        tei ≠ textbody ∧ textelem ≠ textbody).
      { unfold tei, h in *. split_and!; first [lia | congruence]. }
      destruct Hne_new as (N1 & N2 & N3 & N4 & N5 & N6 & N7).
      exists s8, h, textelem, textbody.
      split; [reflexivity |]. split; [exact Hwf8 |].
      split; [unfold h; lia |]. split; [exact Hte_lt |]. split; [exact Htb_lt |].
      split; [lia |].
      split.
      { rewrite Htag8, Hpar8, Hch8. rewrite !(decide_False (P := tei = c)) by exact N1.
        rewrite decide_False by exact N6. exact Htei6. }
      split. { rewrite Htag8, decide_False by exact N2. exact Hh6. }
      split.
      { rewrite Htag8, Hpar8, Hch8. rewrite !(decide_False (P := textelem = c)) by exact N3.
        rewrite decide_False by exact N7. exact Hte6. }
      split.
      { rewrite Htag8, Hpar8, Hch8. rewrite !(decide_False (P := textbody = c)) by exact N4.
        rewrite decide_True by reflexivity. destruct Htb6 as (-> & -> & ->). done. }
      split.
      { rewrite Htag8, Hpar8. rewrite !(decide_False (P := postbody = c)) by exact N5.
        rewrite (Hframe8 postbody N5 Hout). done. }
      split.
      { intros c' Hc'. apply list_elem_of_singleton in Hc'. subst c'.
        rewrite Htag8, Hpar8. rewrite !decide_True by reflexivity. done. }
      split. { intros c' Hc' Hempty. injection Hc' as <-. lia. }
      intros y Hy. destruct (Hold6 y Hy) as (Ht & Hx & Hk & Hrest).
      destruct (Htext8 y) as [-> ->]. rewrite Hch8. rewrite decide_False by lia.
      split; [exact Ht |]. split; [exact Hx |]. split; [exact Hk |].
      intros Hyp Hyc. rewrite Htag8, Hpar8.
      assert (Hyc' : y ≠ c). { intros ->. apply Hyc. left. }
      rewrite !decide_False by exact Hyc'. apply Hrest, Hyp.
    + destruct Hdone as (s' & h' & te' & tb' & Heq & R1 & R2 & R3 & R4 & R5 & R6 & R7 & R8 & R9
                         & R10 & R11 & R12).
      exists s', h', te', tb'. split; [exact Heq |].
      do 10 (split; [assumption |]). split; [| split].
      * intros c' Hc'. inversion Hc'.
      * intros c' Hc' _. apply R11, Hc'.
      * intros y Hy. destruct (R12 y Hy) as (? & ? & ? & Hrest).
        do 3 (split; [assumption |]). intros Hyp _. apply Hrest, Hyp.
  - destruct Hdone as (s' & h' & te' & tb' & Heq & R1 & R2 & R3 & R4 & R5 & R6 & R7 & R8 & R9
                       & R10 & R11 & R12).
    exists s', h', te', tb'. split; [exact Heq |].
    do 10 (split; [assumption |]). split; [| split].
    + intros c' Hc'. inversion Hc'.
    + intros c' Hc'. discriminate.
    + intros y Hy. destruct (R12 y Hy) as (? & ? & ? & Hrest).
      do 3 (split; [assumption |]). intros Hyp _. apply Hrest, Hyp.
Qed.

Lemma write_fullheader_tag (version : string) (docmeta : dict) (header : Fresh.element) :
  write_fullheader version docmeta = Ok header → Fresh.tag header = "teiHeader".
Proof.
  unfold write_fullheader. intros Hrun.
  destruct (title_stmt docmeta); [| discriminate].
  destruct (notes_stmt docmeta); [| discriminate].
  destruct (source_desc docmeta); [| discriminate].
  destruct (profile_desc docmeta); [| discriminate].
  destruct (checked version); [| discriminate].
  cbn [mbind result_bind] in Hrun. injection Hrun as <-. reflexivity.
Qed.

(** X18. [write_teitree] on a post body and a comments body that are
    roots of two trees, when the header can be written.  The new root
    [TEI] has two children, the header and [text]; [text] has the one
    child [body]; the children of [body] are the post body and, only
    when it has children, the comments body.  Both have become [div]
    elements, of type [entry] and [comments].  A comments body without
    children is left out of the tree and keeps its tag.  No text, tail
    or list of children of the extracted elements changes. *)
Theorem write_teitree_shape (version : string) (s : store) (postbody : nat)
    (commentsbody : option nat) (docmeta : dict) (header : Fresh.element) :
  wf s → postbody < length s → getparent s postbody = None →
  (∀ c, commentsbody = Some c → c < length s ∧ c ≠ postbody ∧ getparent s c = None) →
  write_fullheader version docmeta = Ok header →
  ∃ s' h textelem textbody,
    write_teitree version s postbody commentsbody docmeta = Ok (s', length s) ∧
    (tag_of s' (length s) = "TEI" ∧ getparent s' (length s) = None ∧
     children_of s' (length s) = [h; textelem]) ∧
    tag_of s' h = "teiHeader" ∧
    (tag_of s' textelem = "text" ∧ children_of s' textelem = [textbody]) ∧
    (tag_of s' textbody = "body" ∧
     children_of s' textbody = postbody :: attached_comments s commentsbody) ∧
    (tag_of s' postbody = "div" ∧ attr_get "type" (attrib_of s' postbody) = Some "entry") ∧
    (∀ c, c ∈ attached_comments s commentsbody →
       tag_of s' c = "div" ∧ attr_get "type" (attrib_of s' c) = Some "comments") ∧
    (∀ c, commentsbody = Some c → Lxml.len s c = 0 →
       tag_of s' c = tag_of s c ∧ getparent s' c = None) ∧
    (∀ y, y < length s →
       text_of s' y = text_of s y ∧ tail_of s' y = tail_of s y ∧
       children_of s' y = children_of s y).
Proof.
  intros Hwf Hpb Hproot Hcb Hheader.
  destruct (write_teitree_run version s postbody commentsbody docmeta header
              Hwf Hpb Hproot Hcb Hheader)
    as (s' & h & textelem & textbody & Hrun & _ & _ & _ & _ & _ & Htei & Hh & Hte & Htb
        & Hpost & Hcom & Hempty & Hold).
  exists s', h, textelem, textbody.
  split; [exact Hrun |]. split; [exact Htei |].
  split; [rewrite Hh; apply (write_fullheader_tag version docmeta), Hheader |].
  split; [destruct Hte as (? & _ & ?); done |].
  split; [destruct Htb as (? & _ & ?); done |].
  split; [destruct Hpost as (? & ? & _); done |].
  split; [intros c Hc; destruct (Hcom c Hc) as (? & ? & _); done |].
  split; [exact Hempty |].
  intros y Hy. destruct (Hold y Hy) as (? & ? & ? & _). done.
Qed.





End TeiTree.

(** ** The dispatch on the tag of an element *)

Section TextElem.
Context `{Utils} `{HtmlProcessing} `{Filters} `{Handlers}.
Import Lxml Etree Core.

(** X20. What [handle_textelem] passes over.  An element whose tag is
    none of [list], [quote], [head], [p], [lb], [hi], [table] and [div]
    gives None and is left as it is; so does a [table] when tables are
    not among the potential tags, a [div] when [div] is not among them,
    and a line break whose tail does not pass the character test. *)
Theorem handle_textelem_ignores (potential_tags : list string) (dedupbool : bool)
    (s : store) (element : nat) :
  (str_in (tag_of s element) ["list"; "quote"; "head"; "p"; "lb"; "hi"; "table"; "div"] = false →
   handle_textelem potential_tags dedupbool s element = (s, None)) ∧
  (tag_of s element = "table" → str_in "table" potential_tags = false →
   handle_textelem potential_tags dedupbool s element = (s, None)) ∧
  (tag_of s element = "div" → str_in "div" potential_tags = false →
   handle_textelem potential_tags dedupbool s element = (s, None)) ∧
  (tag_of s element = "lb" → text_chars_test (tail_of s element) = false →
   handle_textelem potential_tags dedupbool s element = (s, None)).
Proof.
  assert (Hother : tag_of s element ≠ "div" ∨ str_in (tag_of s element) potential_tags = false →
                   handle_other_elements s element potential_tags dedupbool = (s, None)).
  { intros Hcase. unfold handle_other_elements.
    destruct (str_in (tag_of s element) potential_tags) eqn:Hin; [| reflexivity].
    destruct Hcase as [Hne | Hno]; [| discriminate].
    cbn [negb]. rewrite bool_decide_eq_false_2 by exact Hne. reflexivity. }
  split_and!.
  - intros Hnone. unfold str_in in Hnone. apply bool_decide_eq_false in Hnone.
    unfold handle_textelem. cbv zeta.
    rewrite !bool_decide_eq_false_2.
    + cbn [andb]. apply Hother. left. intros Heq. apply Hnone. rewrite Heq. do 7 right. left.
    + intros Heq. apply Hnone. rewrite Heq. do 6 right. left.
    + intros Heq. apply Hnone. rewrite Heq. do 5 right. left.
    + intros Heq. apply Hnone. rewrite Heq. do 4 right. left.
    + intros Heq. apply Hnone. rewrite Heq. do 3 right. left.
    + intros Heq. apply Hnone. rewrite Heq. do 2 right. left.
    + intros Heq. apply Hnone. rewrite Heq. do 1 right. left.
    + intros Heq. apply Hnone. rewrite Heq. left.
  - intros Htag Hno. unfold handle_textelem. cbv zeta.
    rewrite !(bool_decide_eq_false_2 (tag_of s element = _)) by (rewrite Htag; discriminate).
    rewrite Hno, andb_false_r. apply Hother. right. rewrite Htag. exact Hno.
  - intros Htag Hno. unfold handle_textelem. cbv zeta.
    rewrite !(bool_decide_eq_false_2 (tag_of s element = _)) by (rewrite Htag; discriminate).
    cbn [andb]. apply Hother. right. rewrite Htag. exact Hno.
  - intros Htag Hno. unfold handle_textelem. cbv zeta.
    rewrite !(bool_decide_eq_false_2 (tag_of s element = _)) by (rewrite Htag; discriminate).
    rewrite (bool_decide_eq_true_2 (tag_of s element = "lb")) by exact Htag.
    rewrite Hno. reflexivity.
Qed.

End TextElem.

(** * The properties on documents *)

(** A closed decidable statement, by evaluation. *)
Ltac decided := apply (bool_decide_unpack _); vm_compute; exact I.

Ltac sample_wf := apply wf_b_wf; vm_compute; reflexivity.

Lemma extracted_wf : Lxml.wf Cases.extracted.
Proof. sample_wf. Qed.



(** X2 on the extracted post: the class and the identifier go, the
    rendition of the [hi] stays, and so does what lies in the comments. *)
Lemma clean_attributes_scope_witness :
  let s' := Output.clean_attributes Cases.extracted 0 in
  Lxml.attrib_of s' 0 = [] ∧ Lxml.attrib_of s' 2 = [] ∧
  Lxml.attrib_of s' 3 = [("rend", "#b")] ∧
  Lxml.attrib_of s' 5 = Lxml.attrib_of Cases.extracted 5 ∧
  Output.clean_attributes s' 0 = s'.
Proof.
  destruct (clean_attributes_scope Cases.extracted 0) as (Hclear & Hkeep & _ & _ & Hagain).
  split_and!.
  - apply Hclear. split; [reflexivity | decided].
  - apply Hclear. split; [reflexivity | decided].
  - rewrite Hkeep by (left; reflexivity). reflexivity.
  - apply Hkeep. right. decided.
  - exact Hagain.
Defined.

(** X3 on the extracted post and its comments. *)
Lemma build_xml_output_wraps_witness :
  let s' := (Output.build_xml_output Cases.extracted 0 (Some 4)).1 in
  Lxml.wf Cases.extracted ∧
  (Output.build_xml_output Cases.extracted 0 (Some 4)).2 = 6 ∧
  Lxml.tag_of s' 6 = "doc" ∧ Lxml.children_of s' 6 = [0; 4] ∧
  Lxml.tag_of s' 0 = "main" ∧ Lxml.tag_of s' 4 = "comments" ∧
  Lxml.getparent s' 4 = Some 6.
Proof.
  pose proof extracted_wf as Hwf.
  assert (Hc : ∀ c, Some 4 = Some c → c < length Cases.extracted ∧ c ≠ 0).
  { intros c Hc. injection Hc as <-. split; [simpl; lia | discriminate]. }
  pose proof (build_xml_output_wraps Cases.extracted 0 (Some 4) Hwf ltac:(simpl; lia) Hc)
    as Hrun.
  cbv zeta in Hrun.
  destruct Hrun as (Hout & _ & _ & Hdoc & _ & Hkids & Hmain & _ & Hcomments & _).
  destruct (Hcomments 4 eq_refl) as [Htag Hpar].
  split_and!; [exact Hwf | exact Hout | exact Hdoc | exact Hkids | exact Hmain | exact Htag
              | exact Hpar].
Defined.

(** X4 on the extracted post. *)
Lemma xmltotxt_twice_witness :
  Lxml.wf Cases.extracted ∧ Lxml.getparent Cases.extracted 0 = None ∧
  @Xml.xmltotxt Sample.utils (@Xml.xmltotxt Sample.utils Cases.extracted 0).1 0
    = @Xml.xmltotxt Sample.utils Cases.extracted 0.
Proof.
  pose proof extracted_wf as Hwf.
  split; [exact Hwf |]. split; [reflexivity |].
  apply (@xmltotxt_twice Sample.utils Cases.extracted 0 Hwf). reflexivity.
Defined.

(** X5 on a TEI document with a title: the title becomes a [fw], the
    paragraph loses its class and keeps its rendition. *)
Lemma check_tei_conforms_witness :
  let s' := Xml.check_tei Cases.tei_headed 0 in
  Lxml.wf Cases.tei_headed ∧ Lxml.getparent Cases.tei_headed 0 = None ∧
  (Lxml.tag_of s' 5 = "fw" ∧ ("type", "header") ∈ Lxml.attrib_of s' 5) ∧
  str_in (Lxml.tag_of s' 6) Xml.TEI_VALID_TAGS = true ∧
  (∀ kv, kv ∈ Lxml.attrib_of s' 6 → str_in kv.1 Xml.TEI_VALID_ATTRS = true) ∧
  Lxml.tag_of s' 4 ≠ "head".
Proof.
  assert (Hwf : Lxml.wf Cases.tei_headed) by sample_wf.
  destruct (check_tei_conforms Cases.tei_headed 0 Hwf eq_refl) as (Hbody & Hheads & Hnone).
  destruct (Hbody 6) as [Htag Hattr]; [decided |].
  split_and!; [exact Hwf | reflexivity | apply Hheads; [decided | reflexivity]
              | apply Hheads; [decided | reflexivity] | exact Htag | exact Hattr
              | apply Hnone; decided].
Defined.

(** X6 on the same document. *)
Lemma check_tei_twice_witness :
  Lxml.wf Cases.tei_headed ∧ Lxml.getparent Cases.tei_headed 0 = None ∧
  Xml.check_tei (Xml.check_tei Cases.tei_headed 0) 0 = Xml.check_tei Cases.tei_headed 0.
Proof.
  assert (Hwf : Lxml.wf Cases.tei_headed) by sample_wf.
  split; [exact Hwf |]. split; [reflexivity |].
  apply (check_tei_twice Cases.tei_headed 0 Hwf). reflexivity.
Defined.

(** X7 with a justext that keeps two paragraphs of three. *)
Lemma try_justext_paragraphs_witness :
  @justext Cases.justext_three (Lxml.Element Sample.formatted "body").1 0
    (@chosen_stoplist Sample.settings Cases.justext_three None)
    = Ok [ mk_paragraph "A first paragraph of the article." false;
           mk_paragraph "Buy now" true;
           mk_paragraph "A second paragraph." false ] ∧
  ∃ s', @External.try_justext Sample.settings Cases.justext_three Sample.formatted 0 None
          = Ok (s', Some 4) ∧
        length s' = 7 ∧ Lxml.children_of s' 4 = [5; 6] ∧
        Lxml.itertext s' 4 = ["A first paragraph of the article."; "A second paragraph."].
Proof.
  split; [reflexivity |].
  destruct (@try_justext_paragraphs Sample.settings Cases.justext_three Sample.formatted 0 None
              _ eq_refl) as (s' & Hrun & Hlen & _ & _ & Hkids & Htext & _).
  exists s'. split_and!; [exact Hrun | exact Hlen | exact Hkids | exact Htext].
Defined.

(** X8 with the same justext, on a text of four characters. *)
Lemma justext_rescue_longer_witness :
  ∃ s1, @External.justext_rescue Sample.utils Sample.settings Cases.justext_three
          Sample.formatted 0 None 0 4 "abcd"
        = Ok (s1, (4, "A first paragraph of the article. A second paragraph.", 53%Z, true)) ∧
        (4 ≤ 53)%Z ∧
        "A first paragraph of the article. A second paragraph."
          = @trim Sample.utils (join " " (Lxml.itertext s1 4)).
Proof.
  assert (Hrun : ∃ s1, @External.justext_rescue Sample.utils Sample.settings Cases.justext_three
                         Sample.formatted 0 None 0 4 "abcd"
                       = Ok (s1, (4, "A first paragraph of the article. A second paragraph.",
                                  53%Z, true)))
    by (eexists; vm_compute; reflexivity).
  destruct Hrun as [s1 Hrun]. exists s1.
  destruct (@justext_rescue_longer Sample.utils Sample.settings Cases.justext_three
              Sample.formatted s1 0 None 0 4 4 53 "abcd" _ true Hrun) as (Hle & _ & Htrue).
  destruct (Htrue eq_refl) as (_ & _ & Htext & _).
  split_and!; [exact Hrun | exact Hle | exact Htext].
Defined.

(** X9 on a content tree, and on a tree whose root is a [nav]. *)
Lemma sanitize_tree_root_witness :
  Lxml.wf Sample.formatted ∧ Lxml.depth_ok 4 Sample.formatted 0 = true ∧
  Lxml.getparent Sample.formatted 0 = None ∧
  (∃ r, @External.sanitize_tree Sample.utils Sample.settings Sample.htmlprocessing
          Sample.formatted 0 false = Ok r) ∧
  @External.sanitize_tree Sample.utils Sample.settings Sample.htmlprocessing
    [Lxml.mk_node "nav" [] None None None []] 0 false = Raise AttributeError.
Proof.
  assert (Hwf : Lxml.wf Sample.formatted) by sample_wf.
  assert (Hwf' : Lxml.wf [Lxml.mk_node "nav" [] None None None []]) by sample_wf.
  destruct (@sanitize_tree_root Sample.utils Sample.settings Sample.htmlprocessing
              Sample.formatted 0 false Hwf eq_refl eq_refl) as [_ Hok].
  destruct (@sanitize_tree_root Sample.utils Sample.settings Sample.htmlprocessing
              [Lxml.mk_node "nav" [] None None None []] 0 false Hwf' eq_refl eq_refl)
    as [Hraise _].
  split_and!; [exact Hwf | reflexivity | reflexivity | apply Hok; reflexivity
              | apply Hraise; reflexivity].
Defined.

(** X11 on the article page: the content is extracted, there is no
    comments tree, and the JSON output raises. *)
Lemma json_needs_comments_witness :
  let r := (@Pipeline.extract Sample.utils Sample.settings Sample.htmlprocessing Sample.xpaths
              Sample.filters Sample.handlers Sample.readability_unparseable
              Sample.justext_value_error Sample.metadata Sample.pylib Sample.outputs
              "article" Cases.json_options PNone Txt false true false false false
              Sample.start).2 in
  @Pipeline.include_comments Sample.metadata Cases.json_options = false ∧
  Output.map_format Txt false true false false = Json ∧
  (∀ x, r ≠ Ok (Some x)) ∧ ∃ e, r = Raise e.
Proof.
  destruct (@json_needs_comments Sample.utils Sample.settings Sample.htmlprocessing
              Sample.xpaths Sample.filters Sample.handlers Sample.readability_unparseable
              Sample.justext_value_error Sample.metadata Sample.pylib Sample.outputs
              "article" Cases.json_options PNone Txt false true false false false
              Sample.start eq_refl eq_refl) as [Hnever Hraise].
  assert (Hbare : ∃ w1, @Pipeline.bare_extraction Sample.utils Sample.settings
                          Sample.htmlprocessing Sample.xpaths Sample.filters Sample.handlers
                          Sample.readability_unparseable Sample.justext_value_error
                          Sample.metadata Sample.pylib Sample.outputs
                          "article" Cases.json_options Json Sample.start
                        = (w1, Ok (Some 0, Some "Some words of an article.", Some 4, None)))
    by (eexists; vm_compute; reflexivity).
  destruct Hbare as [w1 Hbare].
  destruct (Hraise w1 0 "Some words of an article." 4 None Hbare) as [_ He].
  split_and!; [reflexivity | reflexivity | exact Hnever | exact He].
Defined.

(** X12 on the [hi] of a content tree. *)
Lemma handle_formatting_fresh_witness :
  let s' := (@Core.handle_formatting Sample.utils Sample.filters Sample.formatted 2).1 in
  (@Core.handle_formatting Sample.utils Sample.filters Sample.formatted 2).2 = Some 4 ∧
  Lxml.tag_of s' 4 = "p" ∧ Lxml.children_of s' 4 = [5] ∧ Lxml.tag_of s' 5 = "hi" ∧
  Lxml.get s' 2 = Lxml.get Sample.formatted 2.
Proof.
  destruct (@handle_formatting_fresh Sample.utils Sample.filters Sample.formatted 2)
    as (_ & _ & Hold & Hnew).
  destruct (Hnew 4 eq_refl) as (_ & _ & Hp & _ & _ & Hkids & _ & _ & Htag & _).
  split_and!; [reflexivity | exact Hp | exact Hkids | exact Htag | apply Hold; simpl; lia].
Defined.

(** X13 on a [div]: kept and renamed when [div] is a potential tag,
    passed over when it is not. *)
Lemma handle_other_elements_div_witness :
  let s' := (@Core.handle_other_elements Sample.htmlprocessing Cases.lone_div 0 ["div"] false).1 in
  (@Core.handle_other_elements Sample.htmlprocessing Cases.lone_div 0 ["div"] false).2 = Some 0 ∧
  Lxml.attrib_of s' 0 = [] ∧ Lxml.tag_of s' 0 ≠ "div" ∧
  @Core.handle_other_elements Sample.htmlprocessing Cases.lone_div 0 ["p"] false
    = (Cases.lone_div, None) ∧
  @Core.process_comments_node Sample.htmlprocessing ["p"] false Cases.lone_div 0
    = (Cases.lone_div, None).
Proof.
  destruct (@handle_other_elements_div Sample.htmlprocessing Cases.lone_div 0 ["div"] false)
    as (Hsome & _).
  destruct (@handle_other_elements_div Sample.htmlprocessing Cases.lone_div 0 ["p"] false)
    as (_ & Hpass & _ & _ & Hcomment & _).
  destruct (Hsome 0 eq_refl) as (_ & _ & _ & _ & Hattr & Htag).
  destruct Hpass as [Hs Hr]; [right; reflexivity |].
  split_and!; [reflexivity | exact Hattr | exact Htag | | apply Hcomment; reflexivity].
  apply injective_projections; assumption.
Defined.

(** X14 on the extracted post, whose [hi] is a leaf. *)
Lemma xmltotxt_keeps_text_witness :
  let s' := (@Xml.xmltotxt Sample.utils Cases.extracted 0).1 in
  Lxml.wf Cases.extracted ∧ Lxml.depth_ok 6 Cases.extracted 0 = true ∧
  (∀ e, e ∈ Xml.xpath_hi_link Cases.extracted 0 → Lxml.children_of Cases.extracted e = []) ∧
  Lxml.wf s' ∧ Lxml.text_chars s' 0 = Lxml.text_chars Cases.extracted 0.
Proof.
  pose proof extracted_wf as Hwf.
  assert (Hleaf : ∀ e, e ∈ Xml.xpath_hi_link Cases.extracted 0 →
                       Lxml.children_of Cases.extracted e = []).
  { intros e He. assert (He' : e ∈ [3]) by exact He.
    apply list_elem_of_singleton in He'. subst e. reflexivity. }
  destruct (@xmltotxt_keeps_text Sample.utils Cases.extracted 0 Hwf eq_refl)
    as (Hwf' & _ & _ & Htext).
  split_and!; [exact Hwf | reflexivity | exact Hleaf | exact Hwf' | apply Htext, Hleaf].
Defined.





(** X18 on the extracted post with its comments, and on a post beside
    a comments tree without a comment. *)
Lemma write_teitree_shape_witness :
  Lxml.wf Cases.extracted ∧ Lxml.wf Cases.uncommented ∧
  (∃ header, @Tei.write_fullheader Cases.xml_chars "1.0" Cases.record = Ok header) ∧
  (∃ s' textbody,
     @Tei.write_teitree Cases.xml_chars "1.0" Cases.extracted 0 (Some 4) Cases.record
       = Ok (s', 6) ∧
     Lxml.tag_of s' textbody = "body" ∧ Lxml.children_of s' textbody = [0; 4] ∧
     Lxml.tag_of s' 4 = "div" ∧
     Lxml.attr_get "type" (Lxml.attrib_of s' 4) = Some "comments") ∧
  (∃ s' textbody,
     @Tei.write_teitree Cases.xml_chars "1.0" Cases.uncommented 0 (Some 2) Cases.record
       = Ok (s', 3) ∧
     Lxml.children_of s' textbody = [0] ∧
     Lxml.tag_of s' 2 = "body" ∧ Lxml.getparent s' 2 = None).
Proof.
  pose proof extracted_wf as Hwf.
  assert (Hwf' : Lxml.wf Cases.uncommented) by sample_wf.
  destruct (@Tei.write_fullheader Cases.xml_chars "1.0" Cases.record) as [header|] eqn:Hheader;
    [| vm_compute in Hheader; discriminate].
  assert (Hc : ∀ c, Some 4 = Some c →
                    c < length Cases.extracted ∧ c ≠ 0 ∧ Lxml.getparent Cases.extracted c = None).
  { intros c Hc. injection Hc as <-. split; [simpl; lia |]. split; [discriminate | reflexivity]. }
  assert (Hc' : ∀ c, Some 2 = Some c →
                     c < length Cases.uncommented ∧ c ≠ 0
                     ∧ Lxml.getparent Cases.uncommented c = None).
  { intros c Hc'. injection Hc' as <-. split; [simpl; lia |].
    split; [discriminate | reflexivity]. }
  destruct (@write_teitree_shape Cases.xml_chars "1.0" Cases.extracted 0 (Some 4) Cases.record
              header Hwf ltac:(simpl; lia) eq_refl Hc Hheader)
    as (s1 & h1 & te1 & tb1 & Hrun1 & _ & _ & _ & Hbody1 & _ & Hcom1 & _).
  destruct (@write_teitree_shape Cases.xml_chars "1.0" Cases.uncommented 0 (Some 2)
              Cases.record header Hwf' ltac:(simpl; lia) eq_refl Hc' Hheader)
    as (s2 & h2 & te2 & tb2 & Hrun2 & _ & _ & _ & Hbody2 & _ & _ & Hleft2 & _).
  split; [exact Hwf |]. split; [exact Hwf' |]. split; [exists header; reflexivity |]. split.
  - exists s1, tb1. destruct Hbody1 as [Htag Hkids]. destruct (Hcom1 4) as [H4 Hty]; [left |].
    split_and!; [exact Hrun1 | exact Htag | exact Hkids | exact H4 | exact Hty].
  - exists s2, tb2. destruct Hbody2 as [_ Hkids]. destruct (Hleft2 2 eq_refl eq_refl) as [Htag Hp].
    split_and!; [exact Hrun2 | exact Hkids | exact Htag | exact Hp].
Defined.


(** X20 on the root of a page: an [html] element is passed over. *)
Lemma handle_textelem_ignores_witness :
  str_in (Lxml.tag_of Sample.page 0)
         ["list"; "quote"; "head"; "p"; "lb"; "hi"; "table"; "div"] = false ∧
  @Core.handle_textelem Sample.utils Sample.htmlprocessing Sample.filters Sample.handlers
    (@TAG_CATALOG Sample.settings) true Sample.page 0 = (Sample.page, None).
Proof.
  destruct (@handle_textelem_ignores Sample.utils Sample.htmlprocessing Sample.filters
              Sample.handlers (@TAG_CATALOG Sample.settings) true Sample.page 0)
    as (Hnone & _).
  split; [reflexivity | apply Hnone; reflexivity].
Defined.
